(** * claude-persistent-context: the context updater and the system scanner

    A shallow embedding of [scripts/update_context.py],
    [scripts/scanner.py] and the functions of [setup.py] that read a scan
    and the settings.  Python values are modelled as the programs use
    them:

    - a [str] is the list of its code points ([text]);
    - a JSON document is the value [json.loads] builds ([json]), a [dict]
      being the list of its items in insertion order;
    - a function that can raise returns a [result];
    - what a run of [update_context.main] does to its files and channels is
      the list of its effects, in program order ([event]).

    The library functions the scripts call ([str] methods, [json],
    [difflib.unified_diff]) are modelled after CPython's implementation of
    them, each next to its name. *)

From Stdlib Require Import List NArith ZArith Bool Arith Lia String Ascii.
From Stdlib Require Import Permutation Sorted DecimalN.
Import ListNotations.

Local Open Scope N_scope.

(* ===================================================================== *)
(** ** Python text *)
(* ===================================================================== *)

Module Py.

(** A character is its code point. *)
Definition char := N.
Definition text := list char.

(** The text of a literal of the source. *)
Fixpoint str (s : string) : text :=
  match s with
  | EmptyString => []
  | String c s' => N_of_ascii c :: str s'
  end.

Definition dquote : char := 34.

(** A literal in which every apostrophe stands for a double quote: the way
    the examples below write JSON texts. *)
Definition jstr (s : string) : text :=
  map (fun c => if c =? 39 then dquote else c) (str s).

Fixpoint text_eqb (s t : text) : bool :=
  match s, t with
  | [], [] => true
  | c :: s', d :: t' => (c =? d) && text_eqb s' t'
  | _, _ => false
  end.

(** [s < t] on [str]: lexicographic on code points. *)
Fixpoint text_ltb (s t : text) : bool :=
  match s, t with
  | _, [] => false
  | [], _ :: _ => true
  | c :: s', d :: t' => (c <? d) || ((c =? d) && text_ltb s' t')
  end.

(** [str.isspace] on one character: the code points CPython's
    [_PyUnicode_IsWhitespace] lists. *)
Definition isspace (c : char) : bool :=
  ((9 <=? c) && (c <=? 13)) || ((28 <=? c) && (c <=? 32))
  || (c =? 133) || (c =? 160) || (c =? 5760)
  || ((8192 <=? c) && (c <=? 8202))
  || (c =? 8232) || (c =? 8233) || (c =? 8239) || (c =? 8287) || (c =? 12288).

(** [s.lstrip()], [s.rstrip()], [s.strip()]. *)
Fixpoint lstrip (s : text) : text :=
  match s with
  | [] => []
  | c :: s' => if isspace c then lstrip s' else s
  end.

Definition rstrip (s : text) : text := rev (lstrip (rev s)).

Definition strip (s : text) : text := rstrip (lstrip s).

(** [s.startswith(p)]. *)
Fixpoint startswith (p s : text) : bool :=
  match p, s with
  | [], _ => true
  | c :: p', d :: s' => (c =? d) && startswith p' s'
  | _ :: _, [] => false
  end.

(** [p in s]: [p] occurs in [s] as a substring. *)
Fixpoint contains (p s : text) : bool :=
  startswith p s || match s with [] => false | _ :: s' => contains p s' end.

(** [sep.join(parts)]. *)
Fixpoint join (sep : text) (parts : list text) : text :=
  match parts with
  | [] => []
  | [p] => p
  | p :: rest => p ++ sep ++ join sep rest
  end.

(** ["".join(parts)]. *)
Definition concat (parts : list text) : text := List.concat parts.

(** [str(n)] of a non-negative [int]: its decimal digits. *)
Fixpoint digits_of_uint (d : Decimal.uint) : text :=
  match d with
  | Decimal.Nil => []
  | Decimal.D0 d' => 48 :: digits_of_uint d'
  | Decimal.D1 d' => 49 :: digits_of_uint d'
  | Decimal.D2 d' => 50 :: digits_of_uint d'
  | Decimal.D3 d' => 51 :: digits_of_uint d'
  | Decimal.D4 d' => 52 :: digits_of_uint d'
  | Decimal.D5 d' => 53 :: digits_of_uint d'
  | Decimal.D6 d' => 54 :: digits_of_uint d'
  | Decimal.D7 d' => 55 :: digits_of_uint d'
  | Decimal.D8 d' => 56 :: digits_of_uint d'
  | Decimal.D9 d' => 57 :: digits_of_uint d'
  end.

Definition str_of_N (n : N) : text := digits_of_uint (N.to_uint n).

Definition str_of_nat (n : nat) : text := str_of_N (N.of_nat n).

(** [str(z)] of an [int]. *)
Definition str_of_Z (z : Z) : text :=
  match z with
  | Zneg p => 45 :: str_of_N (Npos p)
  | _ => str_of_N (Z.to_N z)
  end.

End Py.

(* ===================================================================== *)
(** ** The [json] module: documents and [json.dumps] *)
(* ===================================================================== *)

Module json.
Import Py.

(** What [json.loads] returns.  A [dict] is the list of its items in
    insertion order (its keys are [str] and pairwise different, see
    [wf]).  A [float] is kept as the text [float.__repr__] gives it:
    CPython rounds a literal to a binary64 first, which is outside this
    model, so two literals of one binary64 ([1.5] and [1.50]) are one
    value there and two here. *)
#[warnings="-register-all"]
Inductive value : Type :=
| JNull
| JBool (b : bool)
| JInt (z : Z)
| JFloat (repr : text)
| JStr (s : text)
| JList (items : list value)
| JDict (items : list (text * value)).

(** ['{0:04x}'.format(n)] for [n < 0x10000]. *)
Definition hex_digit (n : N) : char := if n <? 10 then 48 + n else 87 + n.

Definition hex4 (n : N) : text :=
  [hex_digit ((n / 4096) mod 16); hex_digit ((n / 256) mod 16);
   hex_digit ((n / 16) mod 16); hex_digit (n mod 16)].

(** [json.encoder.py_encode_basestring_ascii]: the replacement of one
    character ([ESCAPE_ASCII] matches a backslash, a double quote and
    everything outside [' '..'~']). *)
Definition escape_char (c : char) : text :=
  if c =? 92 then [92; 92]
  else if c =? 34 then [92; 34]
  else if c =? 8 then [92; 98]
  else if c =? 12 then [92; 102]
  else if c =? 10 then [92; 110]
  else if c =? 13 then [92; 114]
  else if c =? 9 then [92; 116]
  else if (32 <=? c) && (c <=? 126) then [c]
  else if c <? 65536 then 92 :: 117 :: hex4 c
  else
    let n := c - 65536 in
    let s1 := N.lor 55296 (N.land (N.shiftr n 10) 1023) in
    let s2 := N.lor 56320 (N.land n 1023) in
    (92 :: 117 :: hex4 s1) ++ (92 :: 117 :: hex4 s2).

Definition encode_string (s : text) : text :=
  dquote :: flat_map escape_char s ++ [dquote].

(** [sorted(dct.items())]: a stable sort on the keys (the keys of a [dict]
    differ, so the comparison of two items never reaches their values). *)
Fixpoint insert_item {A : Type} (x : text * A) (l : list (text * A))
  : list (text * A) :=
  match l with
  | [] => [x]
  | y :: l' => if text_ltb (fst y) (fst x) then y :: insert_item x l' else x :: l
  end.

Fixpoint sorted {A : Type} (l : list (text * A)) : list (text * A) :=
  match l with
  | [] => []
  | x :: l' => insert_item x (sorted l')
  end.

(** ['\n' + _indent * _current_indent_level] with [indent=2]. *)
Definition newline_indent (level : nat) : text := 10 :: repeat 32 (2 * level)%nat.

Definition encode_item (kv : text * text) : text :=
  encode_string (fst kv) ++ [58; 32] ++ snd kv.

(** [json.encoder._make_iterencode] with [indent=2], [ensure_ascii=True],
    item separator [','] and key separator [': '], its chunks joined.
    The items of a [dict] are sorted after their values are encoded, which
    is the order [sorted(dct.items())] gives before. *)
Fixpoint encode (sort_keys : bool) (level : nat) (v : value) : text :=
  match v with
  | JNull => str "null"
  | JBool true => str "true"
  | JBool false => str "false"
  | JInt z => str_of_Z z
  | JFloat r => r
  | JStr s => encode_string s
  | JList [] => str "[]"
  | JList items =>
      [91] ++ newline_indent (S level)
      ++ join (44 :: newline_indent (S level))
              (map (encode sort_keys (S level)) items)
      ++ newline_indent level ++ [93]
  | JDict [] => str "{}"
  | JDict items =>
      let encoded :=
        map (fun kv => (fst kv, encode sort_keys (S level) (snd kv))) items in
      [123] ++ newline_indent (S level)
      ++ join (44 :: newline_indent (S level))
              (map encode_item (if sort_keys then sorted encoded else encoded))
      ++ newline_indent level ++ [125]
  end.

(** [json.dumps(v, indent=2, sort_keys=sort_keys)]. *)
Definition dumps (sort_keys : bool) (v : value) : text := encode sort_keys 0 v.


(** *** [json.loads] *)

(** The whitespace of [json.decoder]: space, tab, line feed, carriage
    return. *)
Definition is_ws (c : char) : bool :=
  (c =? 32) || (c =? 9) || (c =? 10) || (c =? 13).

Fixpoint skip_ws (s : text) : text :=
  match s with
  | [] => []
  | c :: s' => if is_ws c then skip_ws s' else s
  end.

Definition is_digit (c : char) : bool := (48 <=? c) && (c <=? 57).

(** The value of a hexadecimal digit, either case. *)
Definition hex_value (c : char) : option N :=
  if is_digit c then Some (c - 48)
  else if (97 <=? c) && (c <=? 102) then Some (c - 87)
  else if (65 <=? c) && (c <=? 70) then Some (c - 55)
  else None.

(** [_decode_uXXXX]: four hexadecimal digits. *)
Definition hex4_value (h1 h2 h3 h4 : char) : option N :=
  match hex_value h1, hex_value h2, hex_value h3, hex_value h4 with
  | Some a, Some b, Some c, Some d => Some (((a * 16 + b) * 16 + c) * 16 + d)
  | _, _, _, _ => None
  end.

Definition is_high_surrogate (u : N) : bool := (55296 <=? u) && (u <=? 56319).
Definition is_low_surrogate (u : N) : bool := (56320 <=? u) && (u <=? 57343).

(** [0x10000 + (((uni - 0xd800) << 10) | (uni2 - 0xdc00))]. *)
Definition combine_surrogates (u u2 : N) : N :=
  65536 + N.lor (N.shiftl (u - 55296) 10) (u2 - 56320).

(** The [BACKSLASH] table. *)
Definition unescape (e : char) : option char :=
  if e =? 34 then Some 34
  else if e =? 92 then Some 92
  else if e =? 47 then Some 47
  else if e =? 98 then Some 8
  else if e =? 102 then Some 12
  else if e =? 110 then Some 10
  else if e =? 114 then Some 13
  else if e =? 116 then Some 9
  else None.

Definition cons_char (c : char) (r : option (text * text)) : option (text * text) :=
  match r with
  | Some (t, rest) => Some (c :: t, rest)
  | None => None
  end.

(** [scanstring(s, end, strict=True)] from behind the opening quote: the
    string and the text behind its closing quote.  A high surrogate escape
    followed by a low surrogate escape is one character. *)
Fixpoint scanstring (s : text) : option (text * text) :=
  match s with
  | [] => None
  | c :: s1 =>
      if c =? 34 then Some ([], s1)
      else if c =? 92 then
        match s1 with
        | [] => None
        | e :: s2 =>
            if e =? 117 then
              match s2 with
              | h1 :: h2 :: h3 :: h4 :: s3 =>
                  match hex4_value h1 h2 h3 h4 with
                  | None => None
                  | Some u =>
                      if is_high_surrogate u then
                        match s3 with
                        | b1 :: b2 :: s4 =>
                            if (b1 =? 92) && (b2 =? 117) then
                              match s4 with
                              | g1 :: g2 :: g3 :: g4 :: s5 =>
                                  match hex4_value g1 g2 g3 g4 with
                                  | None => None
                                  | Some u2 =>
                                      if is_low_surrogate u2
                                      then cons_char (combine_surrogates u u2)
                                                     (scanstring s5)
                                      else cons_char u (scanstring s3)
                                  end
                              | _ => None
                              end
                            else cons_char u (scanstring s3)
                        | _ => cons_char u (scanstring s3)
                        end
                      else cons_char u (scanstring s3)
                  end
              | _ => None
              end
            else
              match unescape e with
              | Some c' => cons_char c' (scanstring s2)
              | None => None
              end
        end
      else if c <? 32 then None
      else cons_char c (scanstring s1)
  end.

(** The longest run of decimal digits [s] starts with, and the rest. *)
Fixpoint span_digits (s : text) : text * text :=
  match s with
  | [] => ([], [])
  | c :: s' =>
      if is_digit c then let '(ds, rest) := span_digits s' in (c :: ds, rest)
      else ([], s)
  end.

(** [int(digits)] for a run of decimal digits. *)
Fixpoint uint_of_digits (ds : text) : Decimal.uint :=
  match ds with
  | [] => Decimal.Nil
  | c :: ds' =>
      let d := uint_of_digits ds' in
      match c - 48 with
      | 0 => Decimal.D0 d
      | 1 => Decimal.D1 d
      | 2 => Decimal.D2 d
      | 3 => Decimal.D3 d
      | 4 => Decimal.D4 d
      | 5 => Decimal.D5 d
      | 6 => Decimal.D6 d
      | 7 => Decimal.D7 d
      | 8 => Decimal.D8 d
      | _ => Decimal.D9 d
      end
  end.

Definition N_of_digits (ds : text) : N := N.of_uint (uint_of_digits ds).

(** The integer part of [NUMBER_RE] without its sign: a zero, or a digit
    from 1 to 9 and the digits that follow. *)
Definition match_integer (s : text) : option (text * text) :=
  match s with
  | [] => None
  | c :: s' =>
      if c =? 48 then Some ([c], s')
      else if is_digit c then let '(ds, rest) := span_digits s' in Some (c :: ds, rest)
      else None
  end.

(** The fraction of [NUMBER_RE]: a dot and one digit or more, or nothing. *)
Definition match_frac (s : text) : text * text :=
  match s with
  | c :: s' =>
      if c =? 46 then
        match span_digits s' with
        | ([], _) => ([], s)
        | (ds, rest) => (c :: ds, rest)
        end
      else ([], s)
  | [] => ([], s)
  end.

(** The exponent of [NUMBER_RE]: [e] or [E], a sign or none, and one digit
    or more, or nothing. *)
Definition match_exp (s : text) : text * text :=
  match s with
  | c :: s' =>
      if (c =? 101) || (c =? 69) then
        match s' with
        | sg :: s'' =>
            if (sg =? 45) || (sg =? 43) then
              match span_digits s'' with
              | ([], _) => ([], s)
              | (ds, rest) => (c :: sg :: ds, rest)
              end
            else
              match span_digits s' with
              | ([], _) => ([], s)
              | (ds, rest) => (c :: ds, rest)
              end
        | [] => ([], s)
        end
      else ([], s)
  | [] => ([], s)
  end.

(** A number of [_scan_once]: an [int] when the literal has neither a
    fraction nor an exponent, a [float] otherwise. *)
Definition scan_number (s : text) : option (value * text) :=
  let '(neg, s0) :=
    match s with
    | c :: s' => if c =? 45 then (true, s') else (false, s)
    | [] => (false, s)
    end in
  match match_integer s0 with
  | None => None
  | Some (int_part, s1) =>
      let '(frac, s2) := match_frac s1 in
      let '(exp, s3) := match_exp s2 in
      match frac, exp with
      | [], [] =>
          let n := Z.of_N (N_of_digits int_part) in
          Some (JInt (if neg then Z.opp n else n), s3)
      | _, _ =>
          Some (JFloat ((if neg then [45] else []) ++ int_part ++ frac ++ exp), s3)
      end
  end.

(** [dict(pairs)]: a key keeps the place of its first item and the value of
    its last. *)
Fixpoint dict_set (k : text) (v : value) (d : list (text * value))
  : list (text * value) :=
  match d with
  | [] => [(k, v)]
  | kv :: d' =>
      if text_eqb k (fst kv) then (k, v) :: d' else kv :: dict_set k v d'
  end.

Definition dict_of_pairs (pairs : list (text * value)) : list (text * value) :=
  fold_left (fun d kv => dict_set (fst kv) (snd kv) d) pairs [].

(** [_scan_once], [JSONArray] and [JSONObject].  [scan_once] reads a value
    at the head of [s]; [parse_array] reads the elements of an array from
    behind a comma or the opening bracket (whitespace skipped);
    [parse_object] reads the members of an object from the quote of a
    key.  Every call spends one unit of [fuel]. *)
Fixpoint scan_once (fuel : nat) (s : text) : option (value * text) :=
  match fuel with
  | O => None
  | S fuel' =>
      match s with
      | [] => None
      | c :: s' =>
          if c =? 34 then
            match scanstring s' with
            | Some (t, rest) => Some (JStr t, rest)
            | None => None
            end
          else if c =? 123 then
            match skip_ws s' with
            | d :: s'' =>
                if d =? 125 then Some (JDict [], s'')
                else
                  match parse_object fuel' (d :: s'') with
                  | Some (pairs, rest) => Some (JDict (dict_of_pairs pairs), rest)
                  | None => None
                  end
            | [] => None
            end
          else if c =? 91 then
            match skip_ws s' with
            | d :: s'' =>
                if d =? 93 then Some (JList [], s'')
                else
                  match parse_array fuel' (d :: s'') with
                  | Some (items, rest) => Some (JList items, rest)
                  | None => None
                  end
            | [] => None
            end
          else if startswith (str "null") s then Some (JNull, skipn 4 s)
          else if startswith (str "true") s then Some (JBool true, skipn 4 s)
          else if startswith (str "false") s then Some (JBool false, skipn 5 s)
          else
            match scan_number s with
            | Some r => Some r
            | None =>
                if startswith (str "NaN") s then Some (JFloat (str "NaN"), skipn 3 s)
                else if startswith (str "Infinity") s
                then Some (JFloat (str "Infinity"), skipn 8 s)
                else if startswith (str "-Infinity") s
                then Some (JFloat (str "-Infinity"), skipn 9 s)
                else None
            end
      end
  end

with parse_array (fuel : nat) (s : text) : option (list value * text) :=
  match fuel with
  | O => None
  | S fuel' =>
      match scan_once fuel' s with
      | None => None
      | Some (v, rest) =>
          match skip_ws rest with
          | c :: rest' =>
              if c =? 93 then Some ([v], rest')
              else if c =? 44 then
                match parse_array fuel' (skip_ws rest') with
                | Some (vs, rest'') => Some (v :: vs, rest'')
                | None => None
                end
              else None
          | [] => None
          end
      end
  end

with parse_object (fuel : nat) (s : text) : option (list (text * value) * text) :=
  match fuel with
  | O => None
  | S fuel' =>
      match s with
      | q :: s' =>
          if q =? 34 then
            match scanstring s' with
            | None => None
            | Some (key, rest) =>
                match skip_ws rest with
                | c :: rest' =>
                    if c =? 58 then
                      match scan_once fuel' (skip_ws rest') with
                      | None => None
                      | Some (v, rest2) =>
                          match skip_ws rest2 with
                          | d :: rest3 =>
                              if d =? 125 then Some ([(key, v)], rest3)
                              else if d =? 44 then
                                match parse_object fuel' (skip_ws rest3) with
                                | Some (kvs, rest4) => Some ((key, v) :: kvs, rest4)
                                | None => None
                                end
                              else None
                          | [] => None
                          end
                      end
                    else None
                | [] => None
                end
            end
          else None
      | [] => None
      end
  end.

(** [json.loads(s)]: [None] stands for [JSONDecodeError].  The fuel covers
    every text: a call that spends a unit is followed by a character read
    before the next but one. *)
Definition loads (s : text) : option value :=
  match scan_once (2 * List.length s + 2) (skip_ws s) with
  | Some (v, rest) =>
      match skip_ws rest with
      | [] => Some v
      | _ :: _ => None
      end
  | None => None
  end.

End json.

(* ===================================================================== *)
(** ** [difflib.unified_diff] *)
(* ===================================================================== *)

Module difflib.
Import Py.

Local Open Scope nat_scope.

(** [s.splitlines(keepends=True)]: the line boundaries of [str.splitlines];
    a carriage return followed by a line feed is one boundary. *)
Definition is_linebreak (c : char) : bool :=
  ((10 <=? c) && (c <=? 13))%N || ((28 <=? c) && (c <=? 30))%N
  || (c =? 133)%N || (c =? 8232)%N || (c =? 8233)%N.

Fixpoint splitlines_from (cur : text) (s : text) : list text :=
  match s with
  | [] => match cur with [] => [] | _ => [rev cur] end
  | c :: s' =>
      if (c =? 13)%N then
        match s' with
        | d :: s'' =>
            if (d =? 10)%N then rev (d :: c :: cur) :: splitlines_from [] s''
            else rev (c :: cur) :: splitlines_from [] s'
        | [] => [rev (c :: cur)]
        end
      else if is_linebreak c then rev (c :: cur) :: splitlines_from [] s'
      else splitlines_from (c :: cur) s'
  end.

Definition splitlines (s : text) : list text := splitlines_from [] s.

(** An opcode of [SequenceMatcher.get_opcodes]: [(tag, i1, i2, j1, j2)]. *)
Inductive tag := Equal | Replace | Delete | Insert.

Record opcode := Opcode { op_tag : tag; i1 : nat; i2 : nat; j1 : nat; j2 : nat }.

Definition is_equal (t : tag) : bool :=
  match t with Equal => true | _ => false end.

Section SequenceMatcher.

(** [SequenceMatcher(None, a, b)]: no junk, [autojunk=True]. *)
Variables a b : list text.

Definition count (x : text) (l : list text) : nat :=
  List.length (filter (text_eqb x) l).

(** [__chain_b]: with 200 lines or more in [b], a line that occurs more
    than [n // 100 + 1] times is popular and leaves [b2j]. *)
Definition popular (x : text) : bool :=
  let n := List.length b in
  (200 <=? n) && (n / 100 + 1 <? count x b).

(** One row of [find_longest_match]'s table: [newj2len] for the line [x] of
    [a], from the row [prev] before it over the lines [bs] of [b]; [diag]
    is [j2len.get(j-1, 0)].  A key the dictionary does not hold reads 0. *)
Fixpoint row (x : text) (bs : list text) (diag : nat) (prev : list nat)
  : list nat :=
  match bs, prev with
  | y :: bs', p :: prev' =>
      (if text_eqb x y && negb (popular y) then S diag else 0)
      :: row x bs' p prev'
  | _, _ => []
  end.

(** The [if k > bestsize] updates along one row, [j] ascending. *)
Fixpoint scan_row (i j : nat) (r : list nat) (best : nat * nat * nat)
  : nat * nat * nat :=
  match r with
  | [] => best
  | k :: r' =>
      scan_row i (S j) r'
        (if snd best <? k then (i + 1 - k, j + 1 - k, k) else best)
  end.

(** The loop [for i in range(alo, ahi)] over the lines [as_] of [a]. *)
Fixpoint scan_rows (as_ bs : list text) (i blo : nat) (prev : list nat)
  (best : nat * nat * nat) : nat * nat * nat :=
  match as_ with
  | [] => best
  | x :: as' =>
      let r := row x bs 0 prev in
      scan_rows as' bs (S i) blo r (scan_row i blo r best)
  end.

Definition slice {A : Type} (l : list A) (lo hi : nat) : list A :=
  firstn (hi - lo) (skipn lo l).

(** [while besti > alo and bestj > blo and not isbjunk(b[bestj-1]) and
    a[besti-1] == b[bestj-1]]; nothing is junk. *)
Fixpoint extend_back (fuel alo blo : nat) (best : nat * nat * nat)
  : nat * nat * nat :=
  match fuel with
  | 0 => best
  | S fuel' =>
      let '(besti, bestj, bestsize) := best in
      if (alo <? besti) && (blo <? bestj)
         && text_eqb (nth (besti - 1) a []) (nth (bestj - 1) b [])
      then extend_back fuel' alo blo (besti - 1, bestj - 1, bestsize + 1)
      else best
  end.

(** [while besti+bestsize < ahi and bestj+bestsize < bhi and not
    isbjunk(b[bestj+bestsize]) and a[besti+bestsize] == b[bestj+bestsize]]. *)
Fixpoint extend_forward (fuel ahi bhi : nat) (best : nat * nat * nat)
  : nat * nat * nat :=
  match fuel with
  | 0 => best
  | S fuel' =>
      let '(besti, bestj, bestsize) := best in
      if (besti + bestsize <? ahi) && (bestj + bestsize <? bhi)
         && text_eqb (nth (besti + bestsize) a []) (nth (bestj + bestsize) b [])
      then extend_forward fuel' ahi bhi (besti, bestj, bestsize + 1)
      else best
  end.

(** [find_longest_match(alo, ahi, blo, bhi)].  The two loops that extend
    the match over junk never run: [bjunk] is empty. *)
Definition find_longest_match (alo ahi blo bhi : nat) : nat * nat * nat :=
  let bs := slice b blo bhi in
  let best :=
    scan_rows (slice a alo ahi) bs alo blo (repeat 0 (List.length bs))
              (alo, blo, 0) in
  let best := extend_back (ahi - alo) alo blo best in
  extend_forward (ahi - alo) ahi bhi best.

(** The blocks [get_matching_blocks] collects from its queue, in the order
    [matching_blocks.sort()] gives them: the blocks left of a match, the
    match, the blocks right of it.  A range is at most [fuel] lines long. *)
Fixpoint blocks (fuel alo ahi blo bhi : nat) : list (nat * nat * nat) :=
  match fuel with
  | 0 => []
  | S fuel' =>
      let '(i, j, k) := find_longest_match alo ahi blo bhi in
      if k =? 0 then []
      else
        (if (alo <? i) && (blo <? j) then blocks fuel' alo i blo j else [])
        ++ [(i, j, k)]
        ++ (if (i + k <? ahi) && (j + k <? bhi)
            then blocks fuel' (i + k) ahi (j + k) bhi else [])
  end.

(** Adjacent blocks are merged: the loop over [matching_blocks] with the
    pending block [(i1, j1, k1)]. *)
Fixpoint collapse (pending : nat * nat * nat) (bl : list (nat * nat * nat))
  : list (nat * nat * nat) :=
  let '(i1, j1, k1) := pending in
  match bl with
  | [] => if k1 =? 0 then [] else [pending]
  | (i2, j2, k2) :: bl' =>
      if (i1 + k1 =? i2) && (j1 + k1 =? j2) then collapse (i1, j1, k1 + k2) bl'
      else (if k1 =? 0 then [] else [pending]) ++ collapse (i2, j2, k2) bl'
  end.

Definition get_matching_blocks : list (nat * nat * nat) :=
  let la := List.length a in
  let lb := List.length b in
  collapse (0, 0, 0) (blocks (S la) 0 la 0 lb) ++ [(la, lb, 0)].

(** [get_opcodes]: the loop over the matching blocks from [(i, j)]. *)
Fixpoint opcodes_from (i j : nat) (bl : list (nat * nat * nat)) : list opcode :=
  match bl with
  | [] => []
  | (ai, bj, size) :: bl' =>
      (if (i <? ai) && (j <? bj) then [Opcode Replace i ai j bj]
       else if i <? ai then [Opcode Delete i ai j bj]
       else if j <? bj then [Opcode Insert i ai j bj]
       else [])
      ++ (if size =? 0 then [] else [Opcode Equal ai (ai + size) bj (bj + size)])
      ++ opcodes_from (ai + size) (bj + size) bl'
  end.

Definition get_opcodes : list opcode := opcodes_from 0 0 get_matching_blocks.

(** [get_grouped_opcodes(n)]: the first and the last opcode trimmed to [n]
    lines of context, then the loop that closes a group at an equal range
    longer than [2n]. *)
Definition trim_first (n : nat) (codes : list opcode) : list opcode :=
  match codes with
  | Opcode Equal i1 i2 j1 j2 :: rest =>
      Opcode Equal (Nat.max i1 (i2 - n)) i2 (Nat.max j1 (j2 - n)) j2 :: rest
  | _ => codes
  end.

Fixpoint trim_last (n : nat) (codes : list opcode) : list opcode :=
  match codes with
  | [] => []
  | [Opcode Equal i1 i2 j1 j2] =>
      [Opcode Equal i1 (Nat.min i2 (i1 + n)) j1 (Nat.min j2 (j1 + n))]
  | c :: rest => c :: trim_last n rest
  end.

Fixpoint group_loop (n : nat) (group : list opcode) (codes : list opcode)
  : list (list opcode) :=
  match codes with
  | [] =>
      match group with
      | [] => []
      | [Opcode Equal _ _ _ _] => []
      | _ => [group]
      end
  | Opcode t i1 i2 j1 j2 :: rest =>
      if is_equal t && (n + n <? i2 - i1) then
        (group ++ [Opcode t i1 (Nat.min i2 (i1 + n)) j1 (Nat.min j2 (j1 + n))])
        :: group_loop n [Opcode t (Nat.max i1 (i2 - n)) i2 (Nat.max j1 (j2 - n)) j2]
             rest
      else group_loop n (group ++ [Opcode t i1 i2 j1 j2]) rest
  end.

Definition get_grouped_opcodes (n : nat) : list (list opcode) :=
  let codes := match get_opcodes with [] => [Opcode Equal 0 1 0 1] | c => c end in
  group_loop n [] (trim_last n (trim_first n codes)).

(** [_format_range_unified(start, stop)]. *)
Definition format_range_unified (start stop : nat) : text :=
  let beginning := start + 1 in
  let length := stop - start in
  if length =? 1 then str_of_nat beginning
  else
    str_of_nat (if length =? 0 then beginning - 1 else beginning)
    ++ [44%N] ++ str_of_nat length.

Definition hunk_lines (c : opcode) : list text :=
  match op_tag c with
  | Equal => map (fun l => 32%N :: l) (slice a (i1 c) (i2 c))
  | Replace =>
      map (fun l => 45%N :: l) (slice a (i1 c) (i2 c))
      ++ map (fun l => 43%N :: l) (slice b (j1 c) (j2 c))
  | Delete => map (fun l => 45%N :: l) (slice a (i1 c) (i2 c))
  | Insert => map (fun l => 43%N :: l) (slice b (j1 c) (j2 c))
  end.

(** The lines [unified_diff] yields for one group. *)
Definition hunk (lineterm : text) (group : list opcode) : list text :=
  let first := hd (Opcode Equal 0 0 0 0) group in
  let last := List.last group (Opcode Equal 0 0 0 0) in
  (str "@@ -" ++ format_range_unified (i1 first) (i2 last)
   ++ str " +" ++ format_range_unified (j1 first) (j2 last)
   ++ str " @@" ++ lineterm)
  :: flat_map hunk_lines group.

(** [unified_diff(a, b, fromfile, tofile, lineterm=lineterm)] with [n=3]
    and no file dates, as a list. *)
Definition unified_diff (fromfile tofile lineterm : text) : list text :=
  match get_grouped_opcodes 3 with
  | [] => []
  | groups =>
      (str "--- " ++ fromfile ++ lineterm)
      :: (str "+++ " ++ tofile ++ lineterm)
      :: flat_map (hunk lineterm) groups
  end.

End SequenceMatcher.

End difflib.

(* ===================================================================== *)
(** ** [scripts/update_context.py] *)
(* ===================================================================== *)

Module update_context.
Import Py.

(** The two files of the script: [CONTEXT_FILE] (the document store) and
    [CHANGELOG_FILE] (the audit log), each absent or holding a text. *)
Record files := Files { context_file : option text; changelog_file : option text }.

(** What [main] does, in program order. *)
Inductive event :=
| PrintErr (line : text)   (* print(line, file=sys.stderr) *)
| Print (line : text)      (* print(line) *)
| Mkdir                    (* CHANGELOG_FILE.parent.mkdir(parents=True, exist_ok=True) *)
| Append (s : text)        (* with open(CHANGELOG_FILE, 'a') as f: f.write(s) *)
| OpenWrite                (* open(CONTEXT_FILE, 'w') *)
| Write (s : text).        (* a write to the open CONTEXT_FILE *)

(** The events of a run and the status the process exits with. *)
Record outcome := Outcome { events : list event; exit_status : Z }.

Definition content (f : option text) : text :=
  match f with Some s => s | None => [] end.

Definition perform (fs : files) (e : event) : files :=
  match e with
  | Append s => Files (context_file fs) (Some (content (changelog_file fs) ++ s))
  | OpenWrite => Files (Some []) (changelog_file fs)
  | Write s => Files (Some (content (context_file fs) ++ s)) (changelog_file fs)
  | PrintErr _ | Print _ | Mkdir => fs
  end.

(** The files after the events [es], from [fs]. *)
Definition run (fs : files) (es : list event) : files := fold_left perform es fs.

Definition context_path (home : text) : text := home ++ str "/claude_context.json".
Definition changelog_path (home : text) : text :=
  home ++ str "/.claude/context_changelog.diff".

(** Lines 43-54: the current document, or an empty [dict] when the file is
    absent or does not parse (with a warning). *)
Definition read_old (fs : files) : json.value * list event :=
  match context_file fs with
  | Some old_content =>
      match json.loads old_content with
      | Some old_json => (old_json, [])
      | None =>
          (json.JDict [],
           [PrintErr (str "WARNING: Current context file is invalid JSON, will be overwritten")])
      end
  | None => (json.JDict [], [])
  end.

(** [json.dumps(v, indent=2, sort_keys=True) + "\n"]. *)
Definition formatted (v : json.value) : text := json.dumps true v ++ [10].

(** Lines 61-67. *)
Definition diff_lines (old_json new_json : json.value) : list text :=
  difflib.unified_diff
    (difflib.splitlines (formatted old_json))
    (difflib.splitlines (formatted new_json))
    (str "claude_context.json.old") (str "claude_context.json.new") [].

Definition separator : text := repeat 61 60.

(** Lines 74-78; [now] is [datetime.now().strftime("%Y-%m-%d %H:%M:%S")]. *)
Definition changelog_entry (now : text) (diff : list text) : text :=
  ([10] ++ separator ++ [10] ++ str "# " ++ now ++ [10] ++ separator ++ [10])
  ++ Py.concat diff
  ++ [10].

(** Lines 91-92. *)
Definition additions (diff : list text) : nat :=
  List.length
    (filter (fun line => startswith (str "+") line && negb (startswith (str "+++") line))
            diff).

Definition deletions (diff : list text) : nat :=
  List.length
    (filter (fun line => startswith (str "-") line && negb (startswith (str "---") line))
            diff).

(** [main()], run with the home directory [home], the clock reading [now],
    the text [stdin] on its input and the files [fs].  The message of the
    [JSONDecodeError], which line 40 prints behind its prefix, is left
    out. *)
Definition main (home now stdin : text) (fs : files) : outcome :=
  let new_content := strip stdin in
  match new_content with
  | [] => Outcome [PrintErr (str "ERROR: No content provided on stdin")] 1
  | _ :: _ =>
      match json.loads new_content with
      | None => Outcome [PrintErr (str "ERROR: Invalid JSON in new content: ")] 1
      | Some new_json =>
          let '(old_json, warning) := read_old fs in
          let diff := diff_lines old_json new_json in
          match diff with
          | [] => Outcome (warning ++ [Print (str "No changes detected")]) 0
          | _ :: _ =>
              Outcome
                (warning
                 ++ [Mkdir;
                     Append (changelog_entry now diff);
                     OpenWrite;
                     Write (json.dumps false new_json);
                     Write [10];
                     Print (str "Updated " ++ context_path home);
                     Print (str "  +" ++ str_of_nat (additions diff)
                            ++ str " -" ++ str_of_nat (deletions diff)
                            ++ str " lines");
                     Print (str "Diff appended to " ++ changelog_path home)])
                0
          end
      end
  end.

End update_context.

(* ===================================================================== *)
(** ** Exceptions and the built-ins the scanner calls *)
(* ===================================================================== *)

Module builtins.
Import Py.

(** The exception classes the scanner can meet. *)
Inductive exn :=
| Exception
| OSError | FileNotFoundError | PermissionError
| SubprocessError | TimeoutExpired | CalledProcessError
| ValueError | UnicodeDecodeError | JSONDecodeError
| LookupError | IndexError | KeyError
| TypeError | AttributeError
| ArithmeticError | OverflowError.

(** The base class of a class. *)
Definition base (e : exn) : option exn :=
  match e with
  | Exception => None
  | FileNotFoundError | PermissionError => Some OSError
  | TimeoutExpired | CalledProcessError => Some SubprocessError
  | UnicodeDecodeError | JSONDecodeError => Some ValueError
  | IndexError | KeyError => Some LookupError
  | OverflowError => Some ArithmeticError
  | OSError | SubprocessError | ValueError | LookupError | TypeError
  | AttributeError | ArithmeticError => Some Exception
  end.

Definition exn_eqb (e c : exn) : bool :=
  match e, c with
  | Exception, Exception | OSError, OSError
  | FileNotFoundError, FileNotFoundError | PermissionError, PermissionError
  | SubprocessError, SubprocessError | TimeoutExpired, TimeoutExpired
  | CalledProcessError, CalledProcessError | ValueError, ValueError
  | UnicodeDecodeError, UnicodeDecodeError | JSONDecodeError, JSONDecodeError
  | LookupError, LookupError | IndexError, IndexError | KeyError, KeyError
  | TypeError, TypeError | AttributeError, AttributeError
  | ArithmeticError, ArithmeticError | OverflowError, OverflowError => true
  | _, _ => false
  end.

(** [isinstance(e, c)]: [c] is the class of [e] or above it (the classes
    are at most two steps below [Exception]). *)
Definition isinstance (e c : exn) : bool :=
  exn_eqb e c
  || match base e with
     | Some b =>
         exn_eqb b c
         || match base b with
            | Some b' => exn_eqb b' c
            | None => false
            end
     | None => false
     end.

(** What a call gives: a value, or an exception on its way up. *)
Inductive result (A : Type) :=
| Ok (a : A)
| Raise (e : exn).
Arguments Ok {A} a.
Arguments Raise {A} e.

Definition bind {A B : Type} (r : result A) (k : A -> result B) : result B :=
  match r with
  | Ok a => k a
  | Raise e => Raise e
  end.

Notation "x <- r ;; k" := (bind r (fun x => k))
  (at level 61, r at next level, right associativity).

(** [except (classes): handler] around [body]. *)
Definition try_except {A : Type} (body : result A) (classes : list exn)
  (handler : result A) : result A :=
  match body with
  | Ok a => Ok a
  | Raise e => if existsb (isinstance e) classes then handler else Raise e
  end.

(** A [for] loop over [l] whose body can raise: the state after the last
    element, or the first exception. *)
Fixpoint for_each {S A : Type} (body : S -> A -> result S) (l : list A) (s : S)
  : result S :=
  match l with
  | [] => Ok s
  | x :: l' => s' <- body s x;; for_each body l' s'
  end.

(** The same loop inside a [try] whose handler goes on with what the loop
    has built: the state reached, and the exception that ended the loop,
    if one did.  (The bodies below change the state in their last
    statement only.) *)
Fixpoint for_each_until {S A : Type} (body : S -> A -> result S) (l : list A) (s : S)
  : S * option exn :=
  match l with
  | [] => (s, None)
  | x :: l' =>
      match body s x with
      | Ok s' => for_each_until body l' s'
      | Raise e => (s, Some e)
      end
  end.

(** [l[i]]. *)
Definition item {A : Type} (l : list A) (i : nat) : result A :=
  match nth_error l i with
  | Some x => Ok x
  | None => Raise IndexError
  end.

(** [l.index(x)] on a list of [str]. *)
Fixpoint index (x : text) (l : list text) : result nat :=
  match l with
  | [] => Raise ValueError
  | y :: l' => if text_eqb y x then Ok O else i <- index x l';; Ok (S i)
  end.

(** [s.split(sep)] for a separator of one character. *)
Fixpoint split (sep : char) (s : text) : list text :=
  match s with
  | [] => [[]]
  | c :: s' =>
      if c =? sep then [] :: split sep s'
      else
        match split sep s' with
        | h :: t => (c :: h) :: t
        | [] => [[c]]
        end
  end.

(** [s.split(sep, 1)]. *)
Fixpoint split_once (sep : char) (s : text) : list text :=
  match s with
  | [] => [[]]
  | c :: s' =>
      if c =? sep then [[]; s']
      else
        match split_once sep s' with
        | h :: t => (c :: h) :: t
        | [] => [[c]]
        end
  end.

(** [s.split()]: the runs of characters that are not whitespace; [word]
    is the run being read, last character first. *)
Fixpoint split_words (word : text) (s : text) : list text :=
  match s with
  | [] => match word with [] => [] | _ :: _ => [rev word] end
  | c :: s' =>
      if isspace c then
        match word with
        | [] => split_words [] s'
        | _ :: _ => rev word :: split_words [] s'
        end
      else split_words (c :: word) s'
  end.

Definition split_whitespace (s : text) : list text := split_words [] s.

(** [s.rstrip(chars)] for one character. *)
Definition rstrip_char (c : char) (s : text) : text :=
  rev ((fix drop (r : text) : text :=
          match r with
          | d :: r' => if d =? c then drop r' else r
          | [] => []
          end) (rev s)).

(** [s.lower()] on the letters [A-Z].  The scanner compares a lowered
    text with an ASCII word or looks for one in it, and no character
    outside [A-Z] lowers to a text in which such a word begins or goes on
    (U+0130 lowers to [i] with a combining dot behind it, U+212A to [k],
    which none of the words holds), so the tests come out the same. *)
Definition lower_char (c : char) : char :=
  if (65 <=? c) && (c <=? 90) then c + 32 else c.

Definition lower (s : text) : text := map lower_char s.

(** [s.isdigit()], on the ASCII digits (the digits of other scripts,
    which CPython takes too, are outside the model). *)
Definition is_digit (c : char) : bool := (48 <=? c) && (c <=? 57).

Definition isdigit (s : text) : bool :=
  match s with
  | [] => false
  | _ :: _ => forallb is_digit s
  end.

(** [s.replace(old, new)] for [old] not empty; [skip] counts the
    characters of a match still to drop. *)
Fixpoint replace_from (old new : text) (skip : nat) (s : text) : text :=
  match s with
  | [] => []
  | c :: s' =>
      match skip with
      | S k => replace_from old new k s'
      | O =>
          if startswith old s
          then new ++ replace_from old new (List.length old - 1) s'
          else c :: replace_from old new O s'
      end
  end.

Definition replace (old new s : text) : text := replace_from old new O s.

(** The digits of [int(s)]: ASCII digits, one underscore allowed between
    two digits.  [seen] says that the character before was a digit. *)
Fixpoint int_digits (acc : Z) (seen : bool) (s : text) : option Z :=
  match s with
  | [] => if seen then Some acc else None
  | c :: s' =>
      if is_digit c then int_digits (10 * acc + Z.of_N (c - 48)) true s'
      else if (c =? 95) && seen then
        match s' with
        | d :: _ => if is_digit d then int_digits acc false s' else None
        | [] => None
        end
      else None
  end.

(** [int(s)] for a [str]: whitespace around, a sign, digits; else a
    [ValueError].  (The limit on the number of digits that recent Pythons
    set is outside the model.) *)
Definition int (s : text) : result Z :=
  let digits (t : text) : option Z := int_digits 0 false t in
  let parsed :=
    match strip s with
    | c :: t =>
        if c =? 45 then option_map Z.opp (digits t)
        else if c =? 43 then digits t
        else digits (c :: t)
    | [] => None
    end in
  match parsed with
  | Some z => Ok z
  | None => Raise ValueError
  end.

(** A [float], as far as the scanner needs it: [m * 10 ** e] kept exact
    (the rounding to binary64 is outside the model), an infinity or a
    NaN. *)
Inductive pyfloat :=
| Finite (m e : Z)
| Infinity
| NaN.

(** The digits at the head of [s], as a number with their count, and the
    rest. *)
Fixpoint leading_digits (acc : Z) (n : nat) (s : text) : Z * nat * text :=
  match s with
  | c :: s' =>
      if is_digit c then leading_digits (10 * acc + Z.of_N (c - 48)) (S n) s'
      else (acc, n, s)
  | [] => (acc, n, [])
  end.

(** The exponent part behind the mantissa [m * 10 ** e]. *)
Definition float_exponent (m e : Z) (s : text) : option pyfloat :=
  match s with
  | [] => Some (Finite m e)
  | c :: s' =>
      if (c =? 101) || (c =? 69) then
        let '(negative, s'') :=
          match s' with
          | d :: t => if d =? 45 then (true, t) else if d =? 43 then (false, t)
                      else (false, s')
          | [] => (false, s')
          end in
        match leading_digits 0 O s'' with
        | (_, O, _) => None
        | (x, S _, []) => Some (Finite m (if negative then e - x else e + x))
        | (_, S _, _ :: _) => None
        end
      else None
  end.

(** [float(s)] for a [str]: a decimal literal, [inf], [infinity] or [nan]
    in any case, a sign in front, whitespace around (underscores between
    digits are outside the model).  The sign of an infinity is dropped:
    the scanner only converts the result to [int], which fails for both. *)
Definition float (s : text) : result pyfloat :=
  let unsigned (t : text) : option pyfloat :=
    let l := lower t in
    if text_eqb l (str "inf") || text_eqb l (str "infinity") then Some Infinity
    else if text_eqb l (str "nan") then Some NaN
    else
      let '(whole, n1, rest) := leading_digits 0 O t in
      match rest with
      | c :: rest' =>
          if c =? 46 then
            let '(all, n2, rest'') := leading_digits whole O rest' in
            match n1, n2 with
            | O, O => None
            | _, _ => float_exponent all (- Z.of_nat n2) rest''
            end
          else match n1 with O => None | S _ => float_exponent whole 0 rest end
      | [] => match n1 with O => None | S _ => Some (Finite whole 0) end
      end in
  let negate (f : pyfloat) : pyfloat :=
    match f with Finite m e => Finite (- m) e | _ => f end in
  let parsed :=
    match strip s with
    | c :: t =>
        if c =? 45 then option_map negate (unsigned t)
        else if c =? 43 then unsigned t
        else unsigned (c :: t)
    | [] => None
    end in
  match parsed with
  | Some f => Ok f
  | None => Raise ValueError
  end.

(** [int(x * k)] for a [float] [x] and an [int] [k > 0]: towards zero. *)
Definition int_of_scaled (x : pyfloat) (k : Z) : result Z :=
  match x with
  | Finite m e =>
      Ok (if (0 <=? e)%Z then m * 10 ^ e * k else Z.quot (m * k) (10 ^ (- e)))%Z
  | Infinity => Raise OverflowError
  | NaN => Raise ValueError
  end.

(** [round(n / d)] for [d > 0]: to the nearest [int], a tie to the even
    one.  The scanner divides by powers of two, which is exact in binary64
    for [n] below [2 ** 53]. *)
Definition round_div (n d : Z) : Z :=
  let q := (n / d)%Z in
  let r := (n mod d)%Z in
  if (2 * r <? d)%Z then q
  else if (d <? 2 * r)%Z then (q + 1)%Z
  else if Z.even q then q else (q + 1)%Z.

End builtins.

(* ===================================================================== *)
(** ** [scripts/scanner.py] *)
(* ===================================================================== *)

Module scanner.
Import Py json builtins.

(** *** What the scanner asks of the system *)

(** The first argument of [subprocess.run]: a list of words, or a line for
    the shell ([shell=True]). *)
Inductive command :=
| Argv (args : list text)
| Shell (line : text).

(** How [subprocess.run(cmd, capture_output=True, text=True, timeout=10)]
    ends: with a [CompletedProcess], of which the scanner reads [stdout],
    or with an exception. *)
Inductive process :=
| Completed (returncode : Z) (stdout : text)
| Failed (e : exn).

(** One result of [ssh_dir.glob("*.pub")]: [pub_key.stem], [str(pub_key)],
    whether [ssh_dir / key_name] exists, and what [pub_key.read_text()]
    gives. *)
Record pub_key := PubKey {
  stem : text;
  path : text;
  private_exists : bool;
  read_text : result text
}.

(** The machine a scan runs on. *)
Record world := World {
  system : text;                        (* platform.system() *)
  gethostname : text;                   (* socket.gethostname() *)
  which : text -> bool;                 (* shutil.which(name) is not None *)
  subprocess_run : command -> process;
  ssh_dir : option (list pub_key)       (* None: ~/.ssh does not exist *)
}.

(** *** Python values *)

(** [bool(s)] for a [str]. *)
Definition nonempty (s : text) : bool :=
  match s with [] => false | _ :: _ => true end.

Fixpoint lookup (key : text) (items : list (text * value)) : option value :=
  match items with
  | [] => None
  | (k, v) :: items' => if text_eqb k key then Some v else lookup key items'
  end.

(** [v.get(key, default)]. *)
Definition py_get (v : value) (key : text) (default : value) : result value :=
  match v with
  | JDict items =>
      Ok match lookup key items with Some x => x | None => default end
  | _ => Raise AttributeError
  end.

(** [v[key]] for a [str] [key]. *)
Definition py_getitem (v : value) (key : text) : result value :=
  match v with
  | JDict items =>
      match lookup key items with Some x => Ok x | None => Raise KeyError end
  | _ => Raise TypeError
  end.

(** [v.items()]. *)
Definition py_items (v : value) : result (list (text * value)) :=
  match v with
  | JDict items => Ok items
  | _ => Raise AttributeError
  end.

(** [iter(v)], as [enumerate] and [for] call it. *)
Definition py_iter (v : value) : result (list value) :=
  match v with
  | JList items => Ok items
  | JStr s => Ok (map (fun c => JStr [c]) s)
  | JDict items => Ok (map (fun kv => JStr (fst kv)) items)
  | _ => Raise TypeError
  end.

(** [v == s] for a [str] [s]. *)
Definition py_eq_str (v : value) (s : text) : bool :=
  match v with
  | JStr t => text_eqb t s
  | _ => false
  end.

(** [s in v] for a [str] [s]. *)
Definition py_in (s : text) (v : value) : result bool :=
  match v with
  | JStr t => Ok (contains s t)
  | JList items => Ok (existsb (fun x => py_eq_str x s) items)
  | JDict items => Ok (existsb (fun kv => text_eqb (fst kv) s) items)
  | _ => Raise TypeError
  end.

(** The receiver of a [str] method ([lower], [replace]). *)
Definition py_str (v : value) : result text :=
  match v with
  | JStr s => Ok s
  | _ => Raise AttributeError
  end.

(** [bool(v)]. *)
Definition py_bool (v : value) : bool :=
  match v with
  | JNull => false
  | JBool b => b
  | JInt z => negb (z =? 0)%Z
  | JFloat r =>
      match float r with
      | Ok (Finite m _) => negb (m =? 0)%Z
      | _ => true
      end
  | JStr s => nonempty s
  | JList items => match items with [] => false | _ :: _ => true end
  | JDict items => match items with [] => false | _ :: _ => true end
  end.

(** [int(v)]. *)
Definition py_int (v : value) : result Z :=
  match v with
  | JInt z => Ok z
  | JBool b => Ok (if b then 1 else 0)%Z
  | JStr s => int s
  | JFloat r => f <- float r;; int_of_scaled f 1
  | JNull | JList _ | JDict _ => Raise TypeError
  end.

(** A [for] loop in a [try] whose handler is [pass]. *)
Definition try_loop {S A : Type} (body : S -> A -> result S) (l : list A) (s : S)
  (classes : list exn) : result S :=
  match for_each_until body l s with
  | (s', None) => Ok s'
  | (s', Some e) => if existsb (isinstance e) classes then Ok s' else Raise e
  end.

(** [any(test(x) for x in l)]. *)
Fixpoint any {A : Type} (test : A -> result bool) (l : list A) : result bool :=
  match l with
  | [] => Ok false
  | x :: l' => b <- test x;; if b then Ok true else any test l'
  end.

(** *** [run_command] (lines 18-30) *)

Definition run_command (w : world) (cmd : command) : result text :=
  match subprocess_run w cmd with
  | Completed _ stdout => Ok (strip stdout)
  | Failed e =>
      if existsb (isinstance e) [TimeoutExpired; SubprocessError; FileNotFoundError]
      then Ok []
      else Raise e
  end.

(** *** [get_platform] (lines 33-38) *)

Definition get_platform (w : world) : text :=
  let system := lower (system w) in
  if text_eqb system (str "darwin") then str "macos" else system.

Definition on (w : world) (name : string) : bool :=
  text_eqb (get_platform w) (str name).

(** [[l for l in wmic.split("\n") if l.strip() and not l.startswith("Node")]]. *)
Definition wmic_lines (wmic : text) : list text :=
  filter (fun l => nonempty (strip l) && negb (startswith (str "Node") l))
         (split 10 wmic).

(** *** [scan_cpu] (lines 62-107) *)

Record cpu_state := CpuState {
  info : list (text * value);
  cores_per : option Z;
  sockets : option Z
}.

(** [line.split(":", 1)[1].strip()]. *)
Definition after_colon (line : text) : result text :=
  field <- item (split_once 58 line) 1;; Ok (strip field).

(** Lines 71-81: one line of [lscpu]. *)
Definition cpu_line (st : cpu_state) (line : text) : result cpu_state :=
  try_except
    (if startswith (str "Model name:") line then
       model <- after_colon line;;
       Ok (CpuState (dict_set (str "model") (JStr model) (info st))
                    (cores_per st) (sockets st))
     else if startswith (str "CPU(s):") line then
       field <- after_colon line;;
       threads <- int field;;
       Ok (CpuState (dict_set (str "threads") (JInt threads) (info st))
                    (cores_per st) (sockets st))
     else if startswith (str "Core(s) per socket:") line then
       field <- after_colon line;;
       n <- int field;;
       Ok (CpuState (info st) (Some n) (sockets st))
     else if startswith (str "Socket(s):") line then
       field <- after_colon line;;
       n <- int field;;
       Ok (CpuState (info st) (cores_per st) (Some n))
     else Ok st)
    [ValueError; IndexError]
    (Ok st).

(** Lines 87-95: the two assignments of the [try]. *)
Definition cpu_count (cpu_info : list (text * value)) (field : text * text)
  : result (list (text * value)) :=
  let '(key, output) := field in
  if nonempty output then
    n <- int output;; Ok (dict_set key (JInt n) cpu_info)
  else Ok cpu_info.

Definition scan_cpu (w : world) : result value :=
  let cpu_info :=
    [(str "model", JStr (str "Unknown")); (str "cores", JInt 0); (str "threads", JInt 0)] in
  if on w "linux" then
    lscpu <- run_command w (Argv [str "lscpu"]);;
    st <- for_each cpu_line (split 10 lscpu) (CpuState cpu_info None None);;
    match cores_per st, sockets st with
    | Some c, Some s =>
        if negb (c =? 0)%Z && negb (s =? 0)%Z
        then Ok (JDict (dict_set (str "cores") (JInt (c * s)) (info st)))
        else Ok (JDict (info st))
    | _, _ => Ok (JDict (info st))
    end
  else if on w "macos" then
    model <- run_command w (Argv [str "sysctl"; str "-n"; str "machdep.cpu.brand_string"]);;
    let cpu_info :=
      dict_set (str "model") (JStr (if nonempty model then model else str "Unknown"))
               cpu_info in
    cores <- run_command w (Argv [str "sysctl"; str "-n"; str "hw.physicalcpu"]);;
    threads <- run_command w (Argv [str "sysctl"; str "-n"; str "hw.logicalcpu"]);;
    cpu_info <- try_loop cpu_count [(str "cores", cores); (str "threads", threads)]
                         cpu_info [ValueError];;
    Ok (JDict cpu_info)
  else if on w "windows" then
    wmic <- run_command w
              (Shell (str "wmic cpu get name,numberofcores,numberoflogicalprocessors /format:csv"));;
    match wmic_lines wmic with
    | first :: _ =>
        let parts := split 44 first in
        if (4 <=? List.length parts)%nat then
          model <- item parts 1;;
          p2 <- item parts 2;;
          cores <- (if isdigit (strip p2) then int p2 else Ok 0%Z);;
          p3 <- item parts 3;;
          threads <- (if isdigit (strip p3) then int p3 else Ok 0%Z);;
          Ok (JDict [(str "model", JStr (strip model)); (str "cores", JInt cores);
                     (str "threads", JInt threads)])
        else Ok (JDict cpu_info)
    | [] => Ok (JDict cpu_info)
    end
  else Ok (JDict cpu_info).

(** *** [scan_memory] (lines 109-134) *)

Definition total_gb (n : Z) : value := JDict [(str "total_gb", JInt n)].

(** Lines 115-119: the loop over the lines of [/proc/meminfo], which ends
    at the first line that starts with [MemTotal:]. *)
Fixpoint meminfo_lines (lines : list text) : result value :=
  match lines with
  | [] => Ok (total_gb 0)
  | line :: lines' =>
      if startswith (str "MemTotal:") line then
        field <- item (split_whitespace line) 1;;
        kb <- int field;;
        Ok (total_gb (round_div kb (1024 * 1024)))
      else meminfo_lines lines'
  end.

Definition scan_memory (w : world) : result value :=
  if on w "linux" then
    meminfo <- run_command w (Argv [str "cat"; str "/proc/meminfo"]);;
    meminfo_lines (split 10 meminfo)
  else if on w "macos" then
    mem_bytes <- run_command w (Argv [str "sysctl"; str "-n"; str "hw.memsize"]);;
    if nonempty mem_bytes then
      n <- int mem_bytes;; Ok (total_gb (round_div n (1024 * 1024 * 1024)))
    else Ok (total_gb 0)
  else if on w "windows" then
    wmic <- run_command w
              (Shell (str "wmic computersystem get totalphysicalmemory /format:csv"));;
    match wmic_lines wmic with
    | first :: _ =>
        match split 44 first with
        | _ :: p1 :: _ =>
            if isdigit (strip p1) then
              n <- int p1;; Ok (total_gb (round_div n (1024 * 1024 * 1024)))
            else Ok (total_gb 0)
        | _ => Ok (total_gb 0)
        end
    | [] => Ok (total_gb 0)
    end
  else Ok (total_gb 0).

(** *** [scan_gpus] (lines 136-224) *)

(** Lines 147-160: one line of [nvidia-smi]. *)
Definition nvidia_line (gpus : list value) (line : text) : result (list value) :=
  if nonempty (strip line) then
    let parts := map strip (split 44 line) in
    if (5 <=? List.length parts)%nat then
      p0 <- item parts 0;;
      index <- int p0;;
      p1 <- item parts 1;;
      p2 <- item parts 2;;
      vram_mb <- (if isdigit p2 then int p2 else Ok 0%Z);;
      p3 <- item parts 3;;
      p4 <- item parts 4;;
      Ok (gpus ++ [JDict [(str "vendor", JStr (str "NVIDIA"));
                          (str "index", JInt index);
                          (str "model", JStr p1);
                          (str "vram_mb", JInt vram_mb);
                          (str "pcie_bus", JStr p3);
                          (str "uuid", JStr p4)]])
    else Ok gpus
  else Ok gpus.

Definition nvidia_smi (w : world) (gpus : list value) : result (list value) :=
  if which w (str "nvidia-smi") then
    output <- run_command w
                (Argv [str "nvidia-smi";
                       str "--query-gpu=index,name,memory.total,pci.bus_id,uuid";
                       str "--format=csv,noheader,nounits"]);;
    for_each nvidia_line (split 10 output) gpus
  else Ok gpus.

(** Lines 168-175: one item of the document of [rocm-smi]. *)
Definition rocm_card (gpus : list value) (card : text * value) : result (list value) :=
  let '(card_id, card_info) := card in
  if startswith (str "card") card_id then
    index <- int (replace (str "card") [] card_id);;
    model <- py_get card_info (str "Card series") (JStr (str "Unknown AMD GPU"));;
    vram <- py_get card_info (str "VRAM Total Memory (B)") (JInt 0);;
    vram <- py_int vram;;
    Ok (gpus ++ [JDict [(str "vendor", JStr (str "AMD"));
                        (str "index", JInt index);
                        (str "model", model);
                        (str "vram_mb", JInt (vram / (1024 * 1024)))]])
  else Ok gpus.

Definition rocm_smi (w : world) (gpus : list value) : result (list value) :=
  if which w (str "rocm-smi") then
    output <- run_command w
                (Argv [str "rocm-smi"; str "--showproductname"; str "--showmeminfo";
                       str "vram"; str "--json"]);;
    if nonempty output then
      match loads output with
      | None => Ok gpus
      | Some data =>
          items <- py_items data;;
          try_loop rocm_card items gpus [JSONDecodeError; KeyError; ValueError]
      end
    else Ok gpus
  else Ok gpus.

(** [re.search(r":\s*(.+?)\s*\[", line)]: [ws_bracket] says that a text
    starts with whitespace and a bracket; [lazy_group] is group 1 when it
    starts at the head of its argument (the shortest run of one character
    or more, none a line feed, with whitespace and a bracket behind);
    [after_sep] reads the whitespace behind the colon, the longest run
    first; [search_model] tries the colons from the left. *)
Fixpoint ws_bracket (s : text) : bool :=
  match s with
  | [] => false
  | c :: s' => (c =? 91) || (isspace c && ws_bracket s')
  end.

Fixpoint lazy_group (s : text) : option text :=
  match s with
  | [] => None
  | c :: s' =>
      if (c =? 10) then None
      else if ws_bracket s' then Some [c]
      else option_map (cons c) (lazy_group s')
  end.

Fixpoint after_sep (s : text) : option text :=
  match s with
  | [] => None
  | c :: s' =>
      if isspace c then
        match after_sep s' with
        | Some group => Some group
        | None => lazy_group s
        end
      else lazy_group s
  end.

Fixpoint search_model (line : text) : option text :=
  match line with
  | [] => None
  | c :: s' =>
      if (c =? 58) then
        match after_sep s' with
        | Some group => Some group
        | None => search_model s'
        end
      else search_model s'
  end.

Definition lspci_record (vendor : string) (model : text) : value :=
  JDict [(str "vendor", JStr (str vendor));
         (str "model", JStr model);
         (str "source", JStr (str "lspci"))].

(** Line 188: ["AMD" in g.get("vendor", "") and model in g.get("model", "")]. *)
Definition amd_with_model (model : text) (g : value) : result bool :=
  vendor <- py_get g (str "vendor") (JStr []);;
  amd <- py_in (str "AMD") vendor;;
  if amd then
    known <- py_get g (str "model") (JStr []);;
    py_in model known
  else Ok false.

(** Lines 182-201: one line of [lspci -nn]. *)
Definition lspci_line (gpus : list value) (line : text) : result (list value) :=
  if contains (str "VGA") line || contains (str "3D controller") line then
    if contains (str "AMD") line || contains (str "ATI") line
       || contains (str "Radeon") line then
      let model :=
        match search_model line with Some m => m | None => str "AMD GPU" end in
      known <- any (amd_with_model model) gpus;;
      if known then Ok gpus else Ok (gpus ++ [lspci_record "AMD" model])
    else if contains (str "Intel") line then
      let model :=
        match search_model line with Some m => m | None => str "Intel GPU" end in
      Ok (gpus ++ [lspci_record "Intel" model])
    else Ok gpus
  else Ok gpus.

(** Line 179: [any(g["vendor"] == "AMD" for g in gpus)]. *)
Definition has_amd (gpus : list value) : result bool :=
  any (fun g => vendor <- py_getitem g (str "vendor");; Ok (py_eq_str vendor (str "AMD")))
      gpus.

Definition lspci (w : world) (gpus : list value) : result (list value) :=
  if on w "linux" then
    amd <- has_amd gpus;;
    if amd then Ok gpus
    else
      output <- run_command w (Argv [str "lspci"; str "-nn"]);;
      for_each lspci_line (split 10 output) gpus
  else Ok gpus.

(** Lines 211-224: one display of [system_profiler], with its index. *)
Definition macos_display (gpus : list value) (display : nat * value)
  : result (list value) :=
  let '(i, gpu) := display in
  vendor <- py_get gpu (str "sppci_vendor") (JStr []);;
  vendor <- py_str vendor;;
  vendor <- (if contains (str "apple") (lower vendor) then Ok (JStr (str "Apple"))
             else py_get gpu (str "sppci_vendor") (JStr (str "Unknown")));;
  model <- py_get gpu (str "sppci_model") (JStr (str "Unknown"));;
  let gpu_info :=
    [(str "vendor", vendor); (str "index", JInt (Z.of_nat i)); (str "model", model)] in
  vram <- py_get gpu (str "spdisplays_vram") (JStr []);;
  mb <- (if py_bool vram then py_in (str "MB") vram else Ok false);;
  if mb then
    s <- py_str vram;;
    n <- int (strip (replace (str "MB") [] s));;
    Ok (gpus ++ [JDict (dict_set (str "vram_mb") (JInt n) gpu_info)])
  else
    gb <- (if py_bool vram then py_in (str "GB") vram else Ok false);;
    if gb then
      s <- py_str vram;;
      x <- float (strip (replace (str "GB") [] s));;
      n <- int_of_scaled x 1024;;
      Ok (gpus ++ [JDict (dict_set (str "vram_mb") (JInt n) gpu_info)])
    else Ok (gpus ++ [JDict gpu_info]).

Definition enumerate {A : Type} (l : list A) : list (nat * A) :=
  combine (seq 0 (List.length l)) l.

Definition system_profiler (w : world) (gpus : list value) : result (list value) :=
  if on w "macos" then
    sp_output <- run_command w
                   (Argv [str "system_profiler"; str "SPDisplaysDataType"; str "-json"]);;
    if nonempty sp_output then
      match loads sp_output with
      | None => Ok gpus
      | Some data =>
          displays <- py_get data (str "SPDisplaysDataType") (JList []);;
          displays <- py_iter displays;;
          try_loop macos_display (enumerate displays) gpus
                   [JSONDecodeError; KeyError; ValueError]
      end
    else Ok gpus
  else Ok gpus.

(** Lines 230-242: one line of [wmic], with its index. *)
Definition wmic_gpu (gpus : list value) (entry : nat * text) : result (list value) :=
  let '(i, line) := entry in
  match split 44 line with
  | _ :: p1 :: p2 :: _ =>
      vram_bytes <- (if isdigit (strip p1) then int p1 else Ok 0%Z);;
      let model := strip p2 in
      let low := lower model in
      let vendor :=
        if contains (str "nvidia") low then str "NVIDIA"
        else if contains (str "amd") low || contains (str "radeon") low then str "AMD"
        else if contains (str "intel") low then str "Intel"
        else str "Unknown" in
      Ok (gpus ++ [JDict [(str "vendor", JStr vendor);
                          (str "index", JInt (Z.of_nat i));
                          (str "model", JStr model);
                          (str "vram_mb", JInt (vram_bytes / (1024 * 1024)))]])
  | _ => Ok gpus
  end.

Definition wmic_video (w : world) (gpus : list value) : result (list value) :=
  if on w "windows" && match gpus with [] => true | _ :: _ => false end then
    wmic <- run_command w
              (Shell (str "wmic path win32_videocontroller get name,adapterram /format:csv"));;
    for_each wmic_gpu (enumerate (wmic_lines wmic)) gpus
  else Ok gpus.

Definition scan_gpus (w : world) : result (list value) :=
  gpus <- nvidia_smi w [];;
  gpus <- rocm_smi w gpus;;
  gpus <- lspci w gpus;;
  gpus <- system_profiler w gpus;;
  wmic_video w gpus.

(** *** [scan_storage] (lines 226-268) *)

Definition disk (device size model : text) : value :=
  JDict [(str "device", JStr device); (str "size", JStr size); (str "model", JStr model)].

Definition lsblk_line (storage : list value) (line : text) : list value :=
  match split_whitespace line with
  | name :: size :: type :: model =>
      if text_eqb type (str "disk") then
        storage ++ [disk (str "/dev/" ++ name) size
                         (match model with
                          | [] => str "Unknown"
                          | _ :: _ => join (str " ") model
                          end)]
      else storage
  | _ => storage
  end.

Definition diskutil_line (storage : list value) (line : text) : result (list value) :=
  if startswith (str "/dev/disk") line && contains (str "physical") (lower line) then
    device <- item (split_whitespace line) 0;;
    Ok (storage ++ [disk (rstrip_char 58 device) (str "Unknown") (str "Unknown")])
  else Ok storage.

Definition wmic_disk (storage : list value) (line : text) : result (list value) :=
  match split 44 line with
  | _ :: p1 :: p2 :: _ =>
      size_bytes <- (if isdigit (strip p2) then int p2 else Ok 0%Z);;
      let size_gb := round_div size_bytes (1024 * 1024 * 1024) in
      Ok (storage ++ [disk (str "N/A") (str_of_Z size_gb ++ str "G") (strip p1)])
  | _ => Ok storage
  end.

Definition scan_storage (w : world) : result (list value) :=
  if on w "linux" then
    lsblk <- run_command w
               (Argv [str "lsblk"; str "-d"; str "-o"; str "NAME,SIZE,TYPE,MODEL"; str "-n"]);;
    Ok (fold_left lsblk_line (split 10 lsblk) [])
  else if on w "macos" then
    _ <- run_command w (Argv [str "diskutil"; str "list"; str "-plist"]);;
    output <- run_command w (Argv [str "diskutil"; str "list"]);;
    for_each diskutil_line (split 10 output) []
  else if on w "windows" then
    wmic <- run_command w (Shell (str "wmic diskdrive get model,size /format:csv"));;
    for_each wmic_disk (wmic_lines wmic) []
  else Ok [].

(** *** [scan_network] (lines 270-330) *)

(** A value of the [interfaces] dict. *)
Record interface := Interface { name : text; ipv4 : list text; ipv6 : list text }.

Definition interfaces := list (text * interface).

(** [interfaces[key] = x]. *)
Fixpoint set_interface (key : text) (x : interface) (d : interfaces) : interfaces :=
  match d with
  | [] => [(key, x)]
  | kv :: d' =>
      if text_eqb key (fst kv) then (key, x) :: d' else kv :: set_interface key x d'
  end.

(** [interfaces[key]["ipv4"].append(addr)] and the same for ["ipv6"]. *)
Fixpoint add_address (key : text) (v6 : bool) (addr : text) (d : interfaces)
  : result interfaces :=
  match d with
  | [] => Raise KeyError
  | (k, x) :: d' =>
      if text_eqb k key then
        Ok ((k, if v6 then Interface (name x) (ipv4 x) (ipv6 x ++ [addr])
                else Interface (name x) (ipv4 x ++ [addr]) (ipv6 x)) :: d')
      else d'' <- add_address key v6 addr d';; Ok ((k, x) :: d'')
  end.

Definition has_interface (key : text) (d : interfaces) : bool :=
  existsb (fun kv => text_eqb (fst kv) key) d.

Definition interface_value (x : interface) : value :=
  JDict [(str "name", JStr (name x));
         (str "ipv4", JList (map JStr (ipv4 x)));
         (str "ipv6", JList (map JStr (ipv6 x)))].

Definition network (l : list interface) : value :=
  JDict [(str "interfaces", JList (map interface_value l))].

(** Lines 279-288: one line of [ip -o addr show]. *)
Definition ip_line (d : interfaces) (line : text) : result interfaces :=
  match split_whitespace line with
  | _ :: iface :: family :: address :: _ =>
      if text_eqb family (str "inet") || text_eqb family (str "inet6") then
        addr <- item (split 47 address) 0;;
        let d := if has_interface iface d then d
                 else set_interface iface (Interface iface [] []) d in
        add_address iface (negb (text_eqb family (str "inet"))) addr d
      else Ok d
  | _ => Ok d
  end.

(** The state of the loops over [ifconfig] and [ipconfig]. *)
Record net_state := NetState { current_iface : option text; table : interfaces }.

Definition current (st : net_state) : option text :=
  match current_iface st with
  | Some iface => if nonempty iface then Some iface else None
  | None => None
  end.

(** Lines 296-309: one line of [ifconfig]. *)
Definition ifconfig_line (st : net_state) (line : text) : result net_state :=
  if nonempty line && negb (startswith [9] line) && contains (str ":") line then
    iface <- item (split 58 line) 0;;
    Ok (NetState (Some iface) (set_interface iface (Interface iface [] []) (table st)))
  else
    match current st with
    | Some iface =>
        if contains (str "inet ") line then
          let parts := split_whitespace line in
          i <- index (str "inet") parts;;
          match nth_error parts (S i) with
          | Some addr =>
              d <- add_address iface false addr (table st);;
              Ok (NetState (current_iface st) d)
          | None => Ok st
          end
        else if contains (str "inet6 ") line then
          let parts := split_whitespace line in
          i <- index (str "inet6") parts;;
          match nth_error parts (S i) with
          | Some addr =>
              addr <- item (split 37 addr) 0;;
              d <- add_address iface true addr (table st);;
              Ok (NetState (current_iface st) d)
          | None => Ok st
          end
        else Ok st
    | None => Ok st
    end.

(** Lines 317-328: one line of [ipconfig]. *)
Definition ipconfig_line (st : net_state) (line : text) : result net_state :=
  if contains (str "adapter") (lower line) && contains (str ":") line then
    iface <- item (split 58 line) 0;;
    let iface := strip iface in
    Ok (NetState (Some iface) (set_interface iface (Interface iface [] []) (table st)))
  else
    match current st with
    | Some iface =>
        if contains (str "ipv4") (lower line) then
          match split 58 line with
          | _ :: p1 :: _ =>
              d <- add_address iface false (strip p1) (table st);;
              Ok (NetState (current_iface st) d)
          | _ => Ok st
          end
        else if contains (str "ipv6") (lower line) then
          match split 58 line with
          | _ :: p1 :: rest =>
              d <- add_address iface true (strip (join (str ":") (p1 :: rest))) (table st);;
              Ok (NetState (current_iface st) d)
          | _ => Ok st
          end
        else Ok st
    | None => Ok st
    end.

Definition scan_network (w : world) : result value :=
  if on w "linux" then
    ip_output <- run_command w (Argv [str "ip"; str "-o"; str "addr"; str "show"]);;
    d <- for_each ip_line (split 10 ip_output) [];;
    Ok (network (map snd d))
  else if on w "macos" then
    ifconfig <- run_command w (Argv [str "ifconfig"]);;
    st <- for_each ifconfig_line (split 10 ifconfig) (NetState None []);;
    Ok (network (filter (fun x => match ipv4 x, ipv6 x with [], [] => false | _, _ => true end)
                        (map snd (table st))))
  else if on w "windows" then
    ipconfig <- run_command w (Shell (str "ipconfig"));;
    st <- for_each ipconfig_line (split 10 ipconfig) (NetState None []);;
    Ok (network (filter (fun x => match ipv4 x with [] => false | _ :: _ => true end)
                        (map snd (table st))))
  else Ok (network []).

(** *** [scan_ssh_keys] (lines 332-358) *)

Definition ssh_key (ssh_keys : list value) (key : pub_key) : result (list value) :=
  let key_info :=
    [(str "name", JStr (stem key));
     (str "public_key", JStr (path key));
     (str "has_private", JBool (private_exists key))] in
  content <- read_text key;;
  let content := strip content in
  if startswith (str "ssh-") content then
    type <- item (split_whitespace content) 0;;
    Ok (ssh_keys ++ [JDict (dict_set (str "type") (JStr type) key_info)])
  else Ok (ssh_keys ++ [JDict key_info]).

Definition scan_ssh_keys (w : world) : result (list value) :=
  match ssh_dir w with
  | None => Ok []
  | Some keys => for_each ssh_key keys []
  end.

(** *** [scan_all] (lines 48-60) *)

Definition scan_all (w : world) : result value :=
  cpu <- scan_cpu w;;
  memory <- scan_memory w;;
  gpus <- scan_gpus w;;
  storage <- scan_storage w;;
  network <- scan_network w;;
  ssh_keys <- scan_ssh_keys w;;
  Ok (JDict [(str "platform", JStr (get_platform w));
             (str "hostname", JStr (gethostname w));
             (str "cpu", cpu);
             (str "memory", memory);
             (str "gpus", JList gpus);
             (str "storage", JList storage);
             (str "network", network);
             (str "ssh_keys", JList ssh_keys)]).

(** [main] (lines 361-365): what it prints. *)
Definition main (w : world) : result text :=
  data <- scan_all w;; Ok (dumps false data).

End scanner.

(* ===================================================================== *)
(** ** [setup.py]: the functions that read a scan and the settings *)
(* ===================================================================== *)

Module setup.
Import Py json builtins scanner update_context.

(** *** [get_primary_ip] (lines 25-32) *)

(** The inner loop: the first address that is neither loopback nor
    link-local. *)
Fixpoint first_address (ips : list value) : result (option text) :=
  match ips with
  | [] => Ok None
  | ip :: ips' =>
      ip <- py_str ip;;
      if negb (startswith (str "127.") ip) && negb (startswith (str "169.254.") ip)
      then Ok (Some ip)
      else first_address ips'
  end.

Fixpoint first_interface (ifaces : list value) : result (option text) :=
  match ifaces with
  | [] => Ok None
  | iface :: ifaces' =>
      ipv4 <- py_get iface (str "ipv4") (JList []);;
      ips <- py_iter ipv4;;
      found <- first_address ips;;
      match found with
      | Some ip => Ok (Some ip)
      | None => first_interface ifaces'
      end
  end.

Definition get_primary_ip (network_data : value) : result text :=
  interfaces <- py_get network_data (str "interfaces") (JList []);;
  ifaces <- py_iter interfaces;;
  found <- first_interface ifaces;;
  Ok match found with Some ip => ip | None => str "Unknown" end.

(** *** [format_storage] (lines 65-80) *)

(** Lines 73-79: one disk, with its index. *)
Definition storage_entry (storage : list (text * value)) (entry : nat * value)
  : result (list (text * value)) :=
  let '(i, disk) := entry in
  model <- py_get disk (str "model") (JStr []);;
  model <- py_str model;;
  let model := firstn 20 (replace (str " ") (str "_") model) in
  let key :=
    if nonempty model && negb (text_eqb model (str "Unknown")) then model
    else str "disk" ++ str_of_nat i in
  device <- py_getitem disk (str "device");;
  size <- py_getitem disk (str "size");;
  model <- py_getitem disk (str "model");;
  Ok (dict_set key
               (JDict [(str "device", device); (str "size", size); (str "model", model)])
               storage).

Definition format_storage (storage_list : value) : result value :=
  if py_bool storage_list then
    disks <- py_iter storage_list;;
    storage <- for_each storage_entry (enumerate disks) [];;
    Ok (JDict storage)
  else Ok (JDict [(str "note", JStr (str "No storage devices detected"))]).

(** *** [install_hook] (lines 179-238) *)

(** Lines 186-197: the text of [load_context.sh]. *)
Definition hook_content (context_path : text) : text :=
  join [10]
    [str "#!/bin/bash";
     str "# Claude Persistent Context - SessionStart Hook";
     str "# Loads context JSON at session start";
     [];
     jstr "CONTEXT_FILE='" ++ context_path ++ jstr "'";
     [];
     jstr "if [ -f '$CONTEXT_FILE' ]; then";
     jstr "    cat '$CONTEXT_FILE'";
     str "else";
     jstr "    echo 'Context file not found: $CONTEXT_FILE' >&2";
     str "fi";
     []].

(** Lines 221-224: [any(h.get("command") == our_hook_command for h in
    entry.get("hooks", []))]. *)
Definition entry_has (our_hook_command : text) (entry : value) : result bool :=
  hooks <- py_get entry (str "hooks") (JList []);;
  hooks <- py_iter hooks;;
  any (fun h => command <- py_get h (str "command") JNull;;
                Ok (py_eq_str command our_hook_command))
      hooks.

(** The entry lines 227-233 append. *)
Definition our_entry (our_hook_command : text) : value :=
  JDict [(str "matcher", JStr []);
         (str "hooks",
          JList [JDict [(str "type", JStr (str "command"));
                        (str "command", JStr our_hook_command)]])].

(** [v[key] = x] for a [str] [key]. *)
Definition py_setitem (v : value) (key : text) (x : value) : result value :=
  match v with
  | JDict items => Ok (JDict (dict_set key x items))
  | _ => Raise TypeError
  end.

(** [v.append(x)]. *)
Definition py_append (v : value) (x : value) : result value :=
  match v with
  | JList items => Ok (JList (items ++ [x]))
  | _ => Raise AttributeError
  end.

(** Lines 204-238: the new text of [settings.json] and the lines printed,
    from the text the file holds ([None]: the file does not exist) and
    [str(hook_script)], [str(settings_file)]. *)
Definition update_settings (our_hook_command settings_path : text)
  (settings_file : option text) : result (text * list text) :=
  let settings :=
    match settings_file with
    | Some content =>
        match loads content with
        | Some settings => settings
        | None => JDict []
        end
    | None => JDict []
    end in
  has_hooks <- py_in (str "hooks") settings;;
  settings <- (if has_hooks then Ok settings
               else py_setitem settings (str "hooks") (JDict []));;
  hooks <- py_getitem settings (str "hooks");;
  existing_session_hooks <- py_get hooks (str "SessionStart") (JList []);;
  entries <- py_iter existing_session_hooks;;
  already_installed <- any (entry_has our_hook_command) entries;;
  if already_installed then
    Ok (dumps false settings ++ [10],
        [str "  Hook already installed, skipping";
         str "  Updated settings: " ++ settings_path])
  else
    existing_session_hooks <- py_append existing_session_hooks (our_entry our_hook_command);;
    hooks <- py_setitem hooks (str "SessionStart") existing_session_hooks;;
    settings <- py_setitem settings (str "hooks") hooks;;
    Ok (dumps false settings ++ [10], [str "  Updated settings: " ++ settings_path]).

(** What [install_hook] leaves: the hook script it writes first, the line
    it prints for it, and then the settings, or the exception that ends
    it. *)
Record hook_installation := HookInstallation {
  hook_script_text : text;
  printed : text;
  settings : result (text * list text)
}.

Definition install_hook (hook_script settings_path context_path : text)
  (settings_file : option text) : hook_installation :=
  HookInstallation (hook_content context_path)
                   (str "  Installed hook script: " ++ hook_script)
                   (update_settings hook_script settings_path settings_file).

(** *** [initialize_changelog] (lines 241-260) *)


(** *** [main] (lines 313-323) *)


End setup.

(* ===================================================================== *)
(** ** Facts about texts *)
(* ===================================================================== *)

Module Py_facts.
Import Py.

Lemma text_eqb_refl (s : text) : text_eqb s s = true.
Proof.
  induction s as [|c s IH]; simpl; [reflexivity|].
  now rewrite N.eqb_refl, IH.
Qed.

Lemma text_eqb_eq (s t : text) : text_eqb s t = true <-> s = t.
Proof.
  split.
  - revert t; induction s as [|c s IH]; intros [|d t] H; simpl in H;
      try discriminate; [reflexivity|].
    apply andb_true_iff in H as [Hc Hs].
    apply N.eqb_eq in Hc. apply IH in Hs. now subst.
  - intros ->. apply text_eqb_refl.
Qed.

Lemma lstrip_app_space (w s : text) :
  forallb isspace w = true -> lstrip (w ++ s) = lstrip s.
Proof.
  induction w as [|c w IH]; simpl; intros H; [reflexivity|].
  apply andb_true_iff in H as [Hc Hw]. rewrite Hc. now apply IH.
Qed.

Lemma lstrip_space (w : text) : forallb isspace w = true -> lstrip w = [].
Proof.
  intros H. rewrite <- (app_nil_r w). now rewrite lstrip_app_space.
Qed.





Lemma strip_space (w : text) : forallb isspace w = true -> strip w = [].
Proof.
  intros H. unfold strip, rstrip. now rewrite (lstrip_space w H).
Qed.

End Py_facts.

(* ===================================================================== *)
(** ** [unified_diff] of a text with itself *)
(* ===================================================================== *)

Module difflib_facts.
Import Py difflib Py_facts.

Local Open Scope nat_scope.

Section Same.

(** Both sides of the comparison are the lines [l]. *)
Variable l : list text.

(** The length of the run two reversed prefixes have in common at their start: what
    the table of [find_longest_match] holds. *)
Fixpoint common_run (xs ys : list text) : nat :=
  match xs, ys with
  | x :: xs', y :: ys' =>
      if text_eqb x y && negb (popular l y) then S (common_run xs' ys') else 0
  | _, _ => 0
  end.

Fixpoint spec_row (ra pre bs : list text) : list nat :=
  match bs with
  | [] => []
  | y :: bs' => common_run ra (y :: pre) :: spec_row ra (y :: pre) bs'
  end.

Lemma run_nil_r xs : common_run xs [] = 0.
Proof. now destruct xs. Qed.

Lemma spec_row_nil pre bs : spec_row [] pre bs = repeat 0 (List.length bs).
Proof.
  revert pre; induction bs as [|y bs IH]; intros pre; simpl; [reflexivity|].
  now rewrite IH.
Qed.

Lemma row_spec x ra bs : forall pre,
  row l x bs (common_run ra pre) (spec_row ra pre bs) = spec_row (x :: ra) pre bs.
Proof.
  induction bs as [|y bs IH]; intros pre; simpl; [reflexivity|].
  f_equal. apply IH.
Qed.

Lemma run_le_length xs ys : common_run xs ys <= List.length xs.
Proof.
  revert ys; induction xs as [|x xs IH]; intros [|y ys]; simpl; try lia.
  destruct (text_eqb x y && negb (popular l y)); [|lia].
  specialize (IH ys). lia.
Qed.

Lemma run_le_self_r xs ys : common_run xs ys <= common_run ys ys.
Proof.
  revert ys; induction xs as [|x xs IH]; intros [|y ys]; simpl; try lia.
  rewrite text_eqb_refl. simpl.
  destruct (text_eqb x y); simpl; [|lia].
  destruct (popular l y); simpl; [lia|].
  specialize (IH ys). lia.
Qed.

Lemma run_le_self_l xs ys : common_run xs ys <= common_run xs xs.
Proof.
  revert ys; induction xs as [|x xs IH]; intros [|y ys]; simpl; try lia.
  rewrite text_eqb_refl. simpl.
  destruct (text_eqb x y) eqn:E; simpl; [|lia].
  apply text_eqb_eq in E. subst y.
  destruct (popular l x); simpl; [lia|].
  specialize (IH ys). lia.
Qed.

(** Two reversed prefixes of one list: the shorter is a suffix of the
    longer. *)
Lemma rev_prefix_suffix {A : Type} (p q r s : list A) :
  rev p ++ q = rev r ++ s -> List.length p <= List.length r ->
  exists u, r = u ++ p.
Proof.
  intros E Hlen.
  assert (Hp : rev p = firstn (List.length p) (rev r)).
  { assert (H1 : firstn (List.length p) (rev p ++ q) = rev p).
    { rewrite firstn_app, length_rev, Nat.sub_diag. simpl.
      rewrite app_nil_r. apply firstn_all2. rewrite length_rev. lia. }
    rewrite E in H1. rewrite firstn_app in H1.
    replace (List.length p - List.length (rev r)) with 0 in H1
      by (rewrite length_rev; lia).
    simpl in H1. rewrite app_nil_r in H1. now symmetry. }
  exists (rev (skipn (List.length p) (rev r))).
  rewrite <- (rev_involutive p) at 2. rewrite Hp, <- rev_app_distr.
  rewrite firstn_skipn. now rewrite rev_involutive.
Qed.

Lemma rev_prefix_eq {A : Type} (p q r s : list A) :
  rev p ++ q = rev r ++ s -> List.length p = List.length r -> p = r.
Proof.
  intros E Hlen.
  destruct (rev_prefix_suffix p q r s E) as [u Hu]; [lia|].
  assert (List.length u = 0).
  { apply (f_equal (@List.length A)) in Hu. rewrite length_app in Hu. lia. }
  destruct u; [|discriminate]. now subst.
Qed.

(** The state of the scan: the best match lies on the diagonal, ends at
    or before row [i], and is no shorter than the common_run of any earlier
    row. *)
Definition scan_inv (ra : list text) (i : nat) (best : nat * nat * nat) : Prop :=
  exists m s, best = (m, m, s) /\ m + s <= i /\
              forall u t, ra = u ++ t -> common_run t t <= s.

Lemma scan_row_same x ra as' : l = rev ra ++ x :: as' ->
  forall bs pre best,
    rev pre ++ bs = l ->
    scan_inv ra (S (List.length ra)) best ->
    (List.length ra < List.length pre -> common_run (x :: ra) (x :: ra) <= snd best) ->
    let best' :=
      scan_row (List.length ra) (List.length pre) (spec_row (x :: ra) pre bs) best in
    scan_inv ra (S (List.length ra)) best' /\
    (List.length ra < List.length l -> common_run (x :: ra) (x :: ra) <= snd best').
Proof.
  intros Hl. induction bs as [|y bs IH]; intros pre best Hpre Hinv Hdone; simpl.
  - split.
    + destruct Hinv as (m & s & -> & Hms & HA). exists m, s. repeat split; auto.
    + intros Hlt. apply Hdone. rewrite <- Hpre, app_nil_r, length_rev in Hlt.
      simpl in Hlt. lia.
  - destruct Hinv as (m & s & -> & Hms & HA). simpl in Hdone |- *.
    assert (Hpre' : rev (y :: pre) ++ bs = l).
    { simpl. rewrite <- app_assoc. exact Hpre. }
    set (k := if text_eqb x y && negb (popular l y) then S (common_run ra pre) else 0).
    assert (Hk : k = common_run (x :: ra) (y :: pre)) by reflexivity.
    destruct (Nat.lt_trichotomy (List.length pre) (List.length ra)) as [Hlt|[Heq|Hgt]].
    + (* left of the diagonal *)
      destruct (rev_prefix_suffix (y :: pre) bs ra (x :: as')) as [u Hu].
      { rewrite Hpre'. exact Hl. } { simpl. lia. }
      assert (Hle : k <= s).
      { rewrite Hk. etransitivity; [apply run_le_self_r|]. now apply (HA u). }
      apply Nat.ltb_ge in Hle. rewrite Hle.
      apply (IH (y :: pre));
        [exact Hpre' | exists m, s; repeat split; auto | simpl; lia].
    + (* on the diagonal *)
      assert (Hsame : y :: pre = x :: ra).
      { apply (rev_prefix_eq (y :: pre) bs (x :: ra) as').
        - rewrite Hpre'. rewrite Hl. simpl. now rewrite <- app_assoc.
        - simpl. lia. }
      assert (Hbound : k <= S (List.length ra)).
      { rewrite Hk. etransitivity; [apply run_le_length|]. simpl. lia. }
      destruct (s <? k) eqn:Hupd.
      * apply Nat.ltb_lt in Hupd.
        apply (IH (y :: pre)); [exact Hpre' | | ].
        -- exists (List.length ra + 1 - k), k. rewrite Heq.
           repeat split; [lia|].
           intros u t Hut. specialize (HA u t Hut). lia.
        -- intros _. cbn [snd]. rewrite Hk, Hsame. apply Nat.le_refl.
      * apply Nat.ltb_ge in Hupd.
        apply (IH (y :: pre)); [exact Hpre' | | ].
        -- exists m, s. repeat split; auto.
        -- intros _. cbn [snd]. rewrite Hk, Hsame in Hupd. exact Hupd.
    + (* right of the diagonal *)
      assert (Hle : k <= s).
      { rewrite Hk. etransitivity; [apply run_le_self_l|]. apply Hdone. exact Hgt. }
      apply Nat.ltb_ge in Hle. rewrite Hle.
      apply (IH (y :: pre));
        [exact Hpre' | exists m, s; repeat split; auto
        | intros _; apply Hdone; exact Hgt].
Qed.

Lemma scan_rows_same : forall as_ ra best,
  l = rev ra ++ as_ ->
  scan_inv ra (List.length ra) best ->
  scan_inv (rev l) (List.length l)
    (scan_rows l as_ l (List.length ra) 0 (spec_row ra [] l) best).
Proof.
  induction as_ as [|x as' IH]; intros ra best Hl Hinv; cbn [scan_rows].
  - rewrite app_nil_r in Hl.
    assert (E1 : rev l = ra) by (rewrite Hl; apply rev_involutive).
    assert (E2 : List.length l = List.length ra) by (rewrite <- E1; symmetry; apply length_rev).
    rewrite E1, E2. exact Hinv.
  - replace (row l x l 0 (spec_row ra [] l)) with (spec_row (x :: ra) [] l)
      by (rewrite <- row_spec, run_nil_r; reflexivity).
    destruct (scan_row_same x ra as' Hl l [] best) as [H1 H2]; auto.
    { destruct Hinv as (m & s & E & Hms & HA). exists m, s. repeat split; auto. }
    { simpl. lia. }
    simpl in H1, H2.
    set (best' := scan_row (List.length ra) 0 (spec_row (x :: ra) [] l) best) in *.
    assert (Hlen : List.length ra < List.length l).
    { rewrite Hl, length_app, length_rev. simpl. lia. }
    specialize (H2 Hlen).
    apply (IH (x :: ra) best').
    + simpl. now rewrite <- app_assoc.
    + destruct H1 as (m & s & E & Hms & HA). exists m, s.
      repeat split; auto. simpl. rewrite E in H2. simpl in H2.
      intros [|c u] t Hut; simpl in Hut.
      * subst t. exact H2.
      * injection Hut as _ Hut. now apply (HA u).
Qed.

Lemma extend_back_same : forall fuel m s,
  m <= fuel -> extend_back l l fuel 0 0 (m, m, s) = (0, 0, s + m).
Proof.
  induction fuel as [|fuel IH]; intros m s Hm; simpl.
  - replace m with 0 by lia. now rewrite Nat.add_0_r.
  - destruct m as [|m]; simpl.
    + now rewrite Nat.add_0_r.
    + rewrite text_eqb_refl. rewrite Nat.sub_0_r.
      rewrite IH by lia. f_equal. lia.
Qed.

Lemma extend_forward_same : forall fuel s,
  s <= List.length l -> List.length l - s <= fuel ->
  extend_forward l l fuel (List.length l) (List.length l) (0, 0, s)
  = (0, 0, List.length l).
Proof.
  induction fuel as [|fuel IH]; intros s Hs Hf; simpl.
  - f_equal. lia.
  - destruct (s <? List.length l) eqn:E; simpl.
    + apply Nat.ltb_lt in E. rewrite text_eqb_refl.
      apply IH; lia.
    + apply Nat.ltb_ge in E. f_equal. lia.
Qed.

(** A text matches itself in one block. *)
Lemma find_longest_match_same :
  find_longest_match l l 0 (List.length l) 0 (List.length l)
  = (0, 0, List.length l).
Proof.
  unfold find_longest_match, slice.
  rewrite Nat.sub_0_r. simpl skipn. rewrite firstn_all.
  rewrite <- (spec_row_nil []).
  pose proof (scan_rows_same l [] (0, 0, 0)) as H. simpl in H.
  destruct H as (m & s & E & Hms & _); [reflexivity| |].
  { exists 0, 0. repeat split; auto.
    intros u t Hut. destruct u; destruct t; try discriminate. simpl. lia. }
  rewrite E. rewrite extend_back_same by lia.
  apply extend_forward_same; lia.
Qed.

Lemma get_opcodes_same :
  get_opcodes l l
  = match l with [] => [] | _ => [Opcode Equal 0 (List.length l) 0 (List.length l)] end.
Proof.
  unfold get_opcodes, get_matching_blocks. cbn [blocks].
  rewrite find_longest_match_same.
  destruct l as [|x l']; [reflexivity|].
  set (n := List.length (x :: l')).
  assert (Hn : n = S (List.length l')) by reflexivity.
  replace (n =? 0) with false by (symmetry; apply Nat.eqb_neq; lia).
  simpl Nat.ltb. simpl andb.
  replace (0 + n <? n) with false by (symmetry; apply Nat.ltb_ge; lia).
  simpl. replace (n =? 0) with false by (symmetry; apply Nat.eqb_neq; lia).
  simpl. rewrite Nat.ltb_irrefl.
  replace (n =? 0) with false by (symmetry; apply Nat.eqb_neq; lia).
  simpl. rewrite Nat.ltb_irrefl. reflexivity.
Qed.

(** The diff of a text with itself is empty. *)
Lemma unified_diff_same (fromfile tofile lineterm : text) :
  unified_diff l l fromfile tofile lineterm = [].
Proof.
  unfold unified_diff, get_grouped_opcodes. rewrite get_opcodes_same.
  destruct l as [|x l']; [reflexivity|].
  set (n := List.length (x :: l')).
  cbn [trim_first trim_last group_loop is_equal andb].
  replace (3 + 3 <? Nat.min n (Nat.max 0 (n - 3) + 3) - Nat.max 0 (n - 3))
    with false by (symmetry; apply Nat.ltb_ge; lia).
  reflexivity.
Qed.

End Same.

(** A diff that is not empty starts with the two file headers. *)
Lemma unified_diff_headers (a b : list text) (fromfile tofile lineterm : text) :
  unified_diff a b fromfile tofile lineterm <> [] ->
  exists group groups,
    get_grouped_opcodes a b 3 = group :: groups /\
    unified_diff a b fromfile tofile lineterm
    = (str "--- " ++ fromfile ++ lineterm)
      :: (str "+++ " ++ tofile ++ lineterm)
      :: hunk a b lineterm group ++ flat_map (hunk a b lineterm) groups.
Proof.
  unfold unified_diff. destruct (get_grouped_opcodes a b 3) as [|g gs].
  - congruence.
  - intros _. exists g, gs. split; reflexivity.
Qed.

End difflib_facts.

(* ===================================================================== *)
(** ** [difflib]: an empty diff means equal sequences *)
(* ===================================================================== *)

Module difflib_sound.
Import Py difflib Py_facts.

Local Open Scope nat_scope.

Section Blocks.

Variables a b : list text.

(** The [k] lines of [a] from [i] on are the [k] lines of [b] from [j]
    on. *)
Definition match_at (i j k : nat) : Prop :=
  forall d, d < k ->
    exists x, nth_error a (i + d) = Some x /\ nth_error b (j + d) = Some x.


(** A block that names equal lines inside the two sequences. *)
Definition valid (block : nat * nat * nat) : Prop :=
  let '(i, j, k) := block in
  match_at i j k /\ i <= List.length a /\ j <= List.length b.





















(** *** From the groups back to the opcodes *)








End Blocks.

(** *** Lines and texts *)




End difflib_sound.

(* ===================================================================== *)
(** ** Facts about [json]: sorted keys *)
(* ===================================================================== *)

Module json_facts.
Import Py json Py_facts.

(** Induction on a document, with the hypothesis for every element of a
    list and every value of a [dict]. *)
Lemma value_induction (P : value -> Prop) :
  P JNull -> (forall b, P (JBool b)) -> (forall z, P (JInt z)) ->
  (forall r, P (JFloat r)) -> (forall s, P (JStr s)) ->
  (forall items, Forall P items -> P (JList items)) ->
  (forall items, Forall (fun kv => P (snd kv)) items -> P (JDict items)) ->
  forall v, P v.
Proof.
  intros Hnull Hbool Hint Hfloat Hstr Hlist Hdict.
  fix IH 1. intros [ | b | z | r | s | items | items].
  - exact Hnull.
  - apply Hbool.
  - apply Hint.
  - apply Hfloat.
  - apply Hstr.
  - apply Hlist. induction items as [|x items IHitems]; constructor.
    + apply IH.
    + exact IHitems.
  - apply Hdict. induction items as [|[k x] items IHitems]; constructor.
    + apply IH.
    + exact IHitems.
Qed.

(** *** The order of the keys *)




Section Sorted.

Variable A : Type.








End Sorted.

(** *** Documents with the same content *)

(** The character is a Unicode scalar value: what decoding UTF-8 yields. *)
Definition is_scalar (c : char) : bool :=
  (c <? 55296) || ((57344 <=? c) && (c <? 1114112)).

(** The characters of a [str] are code points, and no high surrogate
    stands before a low one (the escapes of such a pair would read back as
    one character). *)
Fixpoint no_surrogate_pair (s : text) : bool :=
  match s with
  | [] => true
  | c :: s' =>
      match s' with
      | d :: _ => negb (is_high_surrogate c && is_low_surrogate d)
      | [] => true
      end && no_surrogate_pair s'
  end.

Definition wf_string (s : text) : Prop :=
  forallb (fun c => c <? 1114112) s = true /\ no_surrogate_pair s = true.

(** What may follow a value in a text that [encode] writes: nothing, a
    line feed or a comma. *)
Definition delimited (rest : text) : Prop :=
  match rest with
  | [] => True
  | c :: _ => c = 10 \/ c = 44
  end.

(** The float reads back as itself. *)
Definition wf_float (r : text) : Prop :=
  forall fuel rest, delimited rest ->
    scan_once (S fuel) (r ++ rest) = Some (JFloat r, rest).

(** The invariant of the values [loads] builds: the keys of a [dict]
    differ, strings are as [wf_string] says, floats as [wf_float]. *)
Fixpoint wf (v : value) : Prop :=
  match v with
  | JNull | JBool _ | JInt _ => True
  | JFloat r => wf_float r
  | JStr s => wf_string s
  | JList items =>
      (fix all (l : list value) : Prop :=
         match l with
         | [] => True
         | x :: l' => wf x /\ all l'
         end) items
  | JDict items =>
      NoDup (map fst items) /\
      (fix all (l : list (text * value)) : Prop :=
         match l with
         | [] => True
         | kv :: l' => (wf_string (fst kv) /\ wf (snd kv)) /\ all l'
         end) items
  end.

Lemma wf_list (items : list value) : wf (JList items) <-> Forall wf items.
Proof.
  induction items as [|x items IH]; simpl.
  - split; auto.
  - split.
    + intros [Hx Hrest]. constructor; [exact Hx|]. now apply IH.
    + intros H. inversion H; subst. split; [assumption|]. now apply IH.
Qed.

Lemma wf_dict (items : list (text * value)) :
  wf (JDict items)
  <-> NoDup (map fst items)
      /\ Forall (fun kv => wf_string (fst kv) /\ wf (snd kv)) items.
Proof.
  simpl. apply and_iff_compat_l.
  induction items as [|x items IH]; simpl.
  - split; auto.
  - split.
    + intros [Hx Hrest]. constructor; [exact Hx|]. now apply IH.
    + intros H. inversion H; subst. split; [assumption|]. now apply IH.
Qed.


Lemma encode_list_cons (sort_keys : bool) (level : nat) (x : value) (items : list value) :
  encode sort_keys level (JList (x :: items))
  = [91] ++ newline_indent (S level)
    ++ join (44 :: newline_indent (S level))
            (map (encode sort_keys (S level)) (x :: items))
    ++ newline_indent level ++ [93].
Proof. reflexivity. Qed.

Lemma encode_dict_cons (sort_keys : bool) (level : nat) (kv : text * value)
  (items : list (text * value)) :
  encode sort_keys level (JDict (kv :: items))
  = let encoded :=
      map (fun kv => (fst kv, encode sort_keys (S level) (snd kv))) (kv :: items) in
    [123] ++ newline_indent (S level)
    ++ join (44 :: newline_indent (S level))
            (map encode_item (if sort_keys then sorted encoded else encoded))
    ++ newline_indent level ++ [125].
Proof. reflexivity. Qed.


End json_facts.

(* ===================================================================== *)
(** ** Facts about [json]: what [encode] writes, [scan_once] reads back *)
(* ===================================================================== *)

Module json_roundtrip.
Import Py json Py_facts json_facts.

Local Ltac Zify.zify_post_hook ::= Z.to_euclidean_division_equations.

(** *** Hexadecimal escapes *)

Lemma hex_value_digit (n : N) : n < 16 -> hex_value (hex_digit n) = Some n.
Proof.
  intros H.
  assert (E : In n [0; 1; 2; 3; 4; 5; 6; 7; 8; 9; 10; 11; 12; 13; 14; 15])
    by (cbn [In]; lia).
  cbn [In] in E. repeat (destruct E as [<-|E]; [reflexivity|]). destruct E.
Qed.

Lemma hex4_value_hex4 (n : N) : n < 65536 ->
  hex4_value (hex_digit ((n / 4096) mod 16)) (hex_digit ((n / 256) mod 16))
             (hex_digit ((n / 16) mod 16)) (hex_digit (n mod 16)) = Some n.
Proof.
  intros H. unfold hex4_value.
  rewrite !hex_value_digit by (apply N.mod_lt; discriminate).
  f_equal. lia.
Qed.

Lemma land_shift_small (a b : N) : b < 1024 -> N.land (a * 1024) b = 0.
Proof.
  intros Hb. apply N.bits_inj. intros i. rewrite N.land_spec, N.bits_0.
  destruct (N.lt_ge_cases i 10) as [Hi|Hi].
  - change 1024 with (2 ^ 10). rewrite N.mul_pow2_bits_low by exact Hi. reflexivity.
  - replace (N.testbit b i) with false; [apply andb_false_r|].
    symmetry. destruct (N.eq_dec b 0) as [->|Hnz]; [apply N.bits_0|].
    apply N.bits_above_log2.
    apply N.lt_le_trans with 10; [|exact Hi].
    apply N.log2_lt_pow2; [lia|exact Hb].
Qed.

Lemma lor_shift_small (a b : N) : b < 1024 -> N.lor (a * 1024) b = a * 1024 + b.
Proof.
  intros Hb. pose proof (land_shift_small a b Hb) as H0.
  rewrite <- N.lxor_lor by exact H0. symmetry. now apply N.add_nocarry_lxor.
Qed.

Lemma land_1023 (n : N) : N.land n 1023 = n mod 1024.
Proof. change 1023 with (N.ones 10). apply N.land_ones. Qed.

Section Surrogates.

Variable c : char.
Hypothesis Hlo : 65536 <= c.
Hypothesis Hhi : c < 1114112.

Let n := c - 65536.
Let s1 := N.lor 55296 (N.land (N.shiftr n 10) 1023).
Let s2 := N.lor 56320 (N.land n 1023).

Lemma high_of_pair : s1 = 55296 + n / 1024.
Proof.
  unfold s1. rewrite land_1023, N.shiftr_div_pow2. change (2 ^ 10) with 1024.
  change 55296 with (54 * 1024) at 1.
  rewrite lor_shift_small by (apply N.mod_lt; discriminate).
  unfold n. lia.
Qed.

Lemma low_of_pair : s2 = 56320 + n mod 1024.
Proof.
  unfold s2. rewrite land_1023. change 56320 with (55 * 1024) at 1.
  rewrite lor_shift_small by (apply N.mod_lt; discriminate). reflexivity.
Qed.

Lemma pair_high : is_high_surrogate s1 = true /\ s1 < 65536.
Proof.
  rewrite high_of_pair. unfold is_high_surrogate, n.
  split; [apply andb_true_iff; split; apply N.leb_le|]; lia.
Qed.

Lemma pair_low : is_low_surrogate s2 = true /\ s2 < 65536.
Proof.
  rewrite low_of_pair. unfold is_low_surrogate, n.
  split; [apply andb_true_iff; split; apply N.leb_le|]; lia.
Qed.

Lemma pair_combine : combine_surrogates s1 s2 = c.
Proof.
  unfold combine_surrogates. rewrite high_of_pair, low_of_pair.
  rewrite N.shiftl_mul_pow2. change (2 ^ 10) with 1024.
  replace (55296 + n / 1024 - 55296) with (n / 1024) by lia.
  replace (56320 + n mod 1024 - 56320) with (n mod 1024) by lia.
  rewrite lor_shift_small by (apply N.mod_lt; discriminate).
  unfold n. lia.
Qed.

End Surrogates.

(** *** Strings *)

Lemma scanstring_u (h1 h2 h3 h4 : char) (tail : text) (u : N) :
  hex4_value h1 h2 h3 h4 = Some u ->
  scanstring (92 :: 117 :: h1 :: h2 :: h3 :: h4 :: tail)
  = if is_high_surrogate u then
      match tail with
      | b1 :: b2 :: s4 =>
          if (b1 =? 92) && (b2 =? 117) then
            match s4 with
            | g1 :: g2 :: g3 :: g4 :: s5 =>
                match hex4_value g1 g2 g3 g4 with
                | None => None
                | Some u2 =>
                    if is_low_surrogate u2
                    then cons_char (combine_surrogates u u2) (scanstring s5)
                    else cons_char u (scanstring tail)
                end
            | _ => None
            end
          else cons_char u (scanstring tail)
      | _ => cons_char u (scanstring tail)
      end
    else cons_char u (scanstring tail).
Proof.
  intros H. cbn [scanstring]. change (92 =? 34) with false.
  change (92 =? 92) with true. change (117 =? 117) with true. cbv iota.
  rewrite H. reflexivity.
Qed.

(** The text does not start with the escape of a low surrogate. *)
Definition no_low_escape (tail : text) : Prop :=
  match tail with
  | b1 :: b2 :: s4 =>
      (b1 =? 92) && (b2 =? 117) = true ->
      exists g1 g2 g3 g4 s5 u2,
        s4 = g1 :: g2 :: g3 :: g4 :: s5 /\
        hex4_value g1 g2 g3 g4 = Some u2 /\ is_low_surrogate u2 = false
  | _ => True
  end.

Lemma scanstring_escape_u (c : char) (tail : text) :
  c < 65536 -> (is_high_surrogate c = true -> no_low_escape tail) ->
  scanstring (92 :: 117 :: hex4 c ++ tail) = cons_char c (scanstring tail).
Proof.
  intros Hc Htail. unfold hex4. cbn [app].
  rewrite (scanstring_u _ _ _ _ tail c (hex4_value_hex4 c Hc)).
  destruct (is_high_surrogate c); [|reflexivity].
  specialize (Htail eq_refl).
  destruct tail as [|b1 [|b2 s4]]; try reflexivity.
  cbn [no_low_escape] in Htail.
  destruct ((b1 =? 92) && (b2 =? 117)); [|reflexivity].
  destruct (Htail eq_refl) as (g1 & g2 & g3 & g4 & s5 & u2 & -> & Hu2 & Hlow).
  now rewrite Hu2, Hlow.
Qed.

Lemma scanstring_escape_pair (c : char) (tail : text) :
  65536 <= c -> c < 1114112 ->
  scanstring (escape_char c ++ tail) = cons_char c (scanstring tail).
Proof.
  intros Hlo Hhi. unfold escape_char.
  replace (c =? 92) with false by (symmetry; apply N.eqb_neq; lia).
  replace (c =? 34) with false by (symmetry; apply N.eqb_neq; lia).
  replace (c =? 8) with false by (symmetry; apply N.eqb_neq; lia).
  replace (c =? 12) with false by (symmetry; apply N.eqb_neq; lia).
  replace (c =? 10) with false by (symmetry; apply N.eqb_neq; lia).
  replace (c =? 13) with false by (symmetry; apply N.eqb_neq; lia).
  replace (c =? 9) with false by (symmetry; apply N.eqb_neq; lia).
  replace (c <=? 126) with false by (symmetry; apply N.leb_gt; lia).
  rewrite andb_false_r.
  replace (c <? 65536) with false by (symmetry; apply N.ltb_ge; lia).
  cbv zeta.
  destruct (pair_high c Hlo Hhi) as [Hh Hh'].
  destruct (pair_low c Hlo Hhi) as [Hl Hl'].
  pose proof (pair_combine c Hlo Hhi) as Hc.
  set (s1 := N.lor 55296 (N.land (N.shiftr (c - 65536) 10) 1023)) in *.
  set (s2 := N.lor 56320 (N.land (c - 65536) 1023)) in *.
  unfold hex4. cbn [app].
  rewrite (scanstring_u _ _ _ _ _ s1 (hex4_value_hex4 s1 Hh')).
  rewrite Hh. change ((92 =? 92) && (117 =? 117)) with true. cbv iota.
  rewrite (hex4_value_hex4 s2 Hl'), Hl, Hc. reflexivity.
Qed.

(** What one character is written as, when it is below [0x10000]. *)
Lemma escape_char_cases (c : char) : c < 65536 ->
  (exists e, escape_char c = [92; e] /\ e <> 117 /\ unescape e = Some c)
  \/ (escape_char c = [c] /\ c <> 34 /\ c <> 92 /\ 32 <= c)
  \/ escape_char c = 92 :: 117 :: hex4 c.
Proof.
  intros Hc. unfold escape_char.
  destruct (c =? 92) eqn:E1; [apply N.eqb_eq in E1; subst; left; exists 92; now repeat split|].
  destruct (c =? 34) eqn:E2; [apply N.eqb_eq in E2; subst; left; exists 34; now repeat split|].
  destruct (c =? 8) eqn:E3; [apply N.eqb_eq in E3; subst; left; exists 98; now repeat split|].
  destruct (c =? 12) eqn:E4; [apply N.eqb_eq in E4; subst; left; exists 102; now repeat split|].
  destruct (c =? 10) eqn:E5; [apply N.eqb_eq in E5; subst; left; exists 110; now repeat split|].
  destruct (c =? 13) eqn:E6; [apply N.eqb_eq in E6; subst; left; exists 114; now repeat split|].
  destruct (c =? 9) eqn:E7; [apply N.eqb_eq in E7; subst; left; exists 116; now repeat split|].
  destruct ((32 <=? c) && (c <=? 126)) eqn:E8.
  - right; left. apply andb_true_iff in E8 as [E8 _]. apply N.leb_le in E8.
    apply N.eqb_neq in E1, E2. now repeat split.
  - right; right. apply N.ltb_lt in Hc. now rewrite Hc.
Qed.

Lemma scanstring_simple_escape (e c : char) (tail : text) :
  e <> 117 -> unescape e = Some c ->
  scanstring (92 :: e :: tail) = cons_char c (scanstring tail).
Proof.
  intros He Hu. cbn [scanstring]. change (92 =? 34) with false.
  change (92 =? 92) with true. cbv iota.
  apply N.eqb_neq in He. now rewrite He, Hu.
Qed.

Lemma scanstring_plain (c : char) (tail : text) :
  c <> 34 -> c <> 92 -> 32 <= c ->
  scanstring (c :: tail) = cons_char c (scanstring tail).
Proof.
  intros H1 H2 H3. cbn [scanstring].
  apply N.eqb_neq in H1, H2. apply N.ltb_ge in H3. now rewrite H1, H2, H3.
Qed.

(** The escapes of a text that does not start with a low surrogate do
    not start with the escape of one. *)
Lemma no_low_escape_escaped (s rest : text) :
  forallb (fun c => c <? 1114112) s = true ->
  match s with c :: _ => is_low_surrogate c = false | [] => True end ->
  no_low_escape (flat_map escape_char s ++ 34 :: rest).
Proof.
  destruct s as [|c s]; intros Hcp Hlow.
  - unfold no_low_escape. cbn [flat_map app]. destruct rest; [exact I|].
    intros H. apply andb_true_iff in H as [H _]. discriminate.
  - cbn [flat_map]. rewrite <- app_assoc.
    set (tail := flat_map escape_char s ++ 34 :: rest).
    cbn [forallb] in Hcp. apply andb_true_iff in Hcp as [Hc _].
    apply N.ltb_lt in Hc.
    destruct (N.lt_ge_cases c 65536) as [Hsmall|Hbig].
    + destruct (escape_char_cases c Hsmall)
        as [(e & -> & He & _)|[(-> & _ & H92 & _)| ->]].
      * unfold no_low_escape. cbn [app]. intros H.
        apply andb_true_iff in H as [_ H]. apply N.eqb_eq in H. contradiction.
      * unfold no_low_escape. cbn [app]. destruct tail; [exact I|]. intros H.
        apply andb_true_iff in H as [H _]. apply N.eqb_eq in H. contradiction.
      * unfold hex4, no_low_escape. cbn [app]. intros _.
        do 4 eexists. exists tail, c. split; [reflexivity|].
        split; [now apply hex4_value_hex4|exact Hlow].
    + unfold escape_char.
      replace (c =? 92) with false by (symmetry; apply N.eqb_neq; lia).
      replace (c =? 34) with false by (symmetry; apply N.eqb_neq; lia).
      replace (c =? 8) with false by (symmetry; apply N.eqb_neq; lia).
      replace (c =? 12) with false by (symmetry; apply N.eqb_neq; lia).
      replace (c =? 10) with false by (symmetry; apply N.eqb_neq; lia).
      replace (c =? 13) with false by (symmetry; apply N.eqb_neq; lia).
      replace (c =? 9) with false by (symmetry; apply N.eqb_neq; lia).
      replace (c <=? 126) with false by (symmetry; apply N.leb_gt; lia).
      rewrite andb_false_r.
      replace (c <? 65536) with false by (symmetry; apply N.ltb_ge; lia).
      cbv zeta.
      destruct (pair_high c Hbig Hc) as [Hh Hh'].
      set (s1 := N.lor 55296 (N.land (N.shiftr (c - 65536) 10) 1023)) in *.
      unfold hex4, no_low_escape. cbn [app]. intros _.
      do 4 eexists. eexists. exists s1. split; [reflexivity|].
      split; [now apply hex4_value_hex4|].
      unfold is_high_surrogate in Hh. unfold is_low_surrogate.
      apply andb_true_iff in Hh as [_ Hh]. apply N.leb_le in Hh.
      apply andb_false_iff. left. apply N.leb_gt. lia.
Qed.

(** A string reads back from its escapes. *)
Lemma scanstring_escaped (s rest : text) :
  wf_string s ->
  scanstring (flat_map escape_char s ++ 34 :: rest) = Some (s, rest).
Proof.
  intros [Hcp Hpair]. induction s as [|c s IH].
  - reflexivity.
  - cbn [flat_map]. rewrite <- app_assoc.
    cbn [forallb] in Hcp. apply andb_true_iff in Hcp as [Hc Hcp].
    cbn [no_surrogate_pair] in Hpair. apply andb_true_iff in Hpair as [Hhead Hpair].
    specialize (IH Hcp Hpair).
    apply N.ltb_lt in Hc.
    assert (Hgoal : scanstring (escape_char c ++ flat_map escape_char s ++ 34 :: rest)
                    = cons_char c (scanstring (flat_map escape_char s ++ 34 :: rest))).
    { destruct (N.lt_ge_cases c 65536) as [Hsmall|Hbig].
      - destruct (escape_char_cases c Hsmall)
          as [(e & -> & He & Hu)|[(-> & H34 & H92 & H32)| ->]].
        + now apply scanstring_simple_escape.
        + now apply scanstring_plain.
        + apply (scanstring_escape_u c _ Hsmall).
          intros Hhigh. apply no_low_escape_escaped; [exact Hcp|].
          destruct s as [|d s']; [exact I|].
          rewrite Hhigh in Hhead. simpl in Hhead.
          now apply negb_true_iff in Hhead.
      - now apply scanstring_escape_pair. }
    rewrite Hgoal, IH. reflexivity.
Qed.

End json_roundtrip.

(* ===================================================================== *)
(** ** Facts about [json]: numbers *)
(* ===================================================================== *)

Module json_numbers.
Import Py json Py_facts json_facts.

(** The text does not go on with a digit. *)
Definition no_digit_next (rest : text) : Prop :=
  match rest with
  | [] => True
  | c :: _ => is_digit c = false
  end.

Lemma span_digits_app (ds rest : text) :
  forallb is_digit ds = true -> no_digit_next rest ->
  span_digits (ds ++ rest) = (ds, rest).
Proof.
  intros Hds Hrest. induction ds as [|c ds IH]; cbn [app].
  - destruct rest as [|c rest]; [reflexivity|].
    cbn [span_digits]. cbn in Hrest. now rewrite Hrest.
  - cbn [forallb] in Hds. apply andb_true_iff in Hds as [Hc Hds].
    cbn [span_digits]. rewrite Hc, (IH Hds). reflexivity.
Qed.

Lemma span_digits_spec (s ds rest : text) :
  span_digits s = (ds, rest) ->
  s = ds ++ rest /\ forallb is_digit ds = true /\ no_digit_next rest.
Proof.
  revert ds rest; induction s as [|c s IH]; intros ds rest H; cbn [span_digits] in H.
  - injection H as <- <-. repeat split.
  - destruct (is_digit c) eqn:Ec.
    + destruct (span_digits s) as [ds' rest'] eqn:Es.
      injection H as <- <-.
      destruct (IH ds' rest' eq_refl) as (-> & Hds & Hrest).
      repeat split; [|exact Hrest]. cbn [forallb]. now rewrite Ec, Hds.
    + injection H as <- <-. repeat split. exact Ec.
Qed.

Lemma digits_of_uint_digits (d : Decimal.uint) :
  forallb is_digit (digits_of_uint d) = true.
Proof. induction d; cbn [digits_of_uint forallb]; try rewrite IHd; reflexivity. Qed.

Lemma uint_of_digits_of_uint (d : Decimal.uint) : uint_of_digits (digits_of_uint d) = d.
Proof. induction d; cbn [digits_of_uint uint_of_digits]; try rewrite IHd; reflexivity. Qed.

Lemma N_of_digits_str (n : N) : N_of_digits (str_of_N n) = n.
Proof.
  unfold N_of_digits, str_of_N. rewrite uint_of_digits_of_uint.
  apply DecimalN.Unsigned.of_to.
Qed.

Lemma nzhead_head (d : Decimal.uint) :
  match Decimal.nzhead d with Decimal.D0 _ => False | _ => True end.
Proof. induction d; cbn [Decimal.nzhead]; auto. Qed.

(** The digits of a number: a single zero, or a digit from 1 to 9 and the
    digits behind it. *)
Lemma str_of_N_shape (n : N) :
  str_of_N n = [48]
  \/ exists c ds, str_of_N n = c :: ds /\ c <> 48 /\ is_digit c = true
                  /\ forallb is_digit ds = true.
Proof.
  unfold str_of_N.
  assert (E : N.to_uint n = Decimal.unorm (N.to_uint n)).
  { rewrite <- DecimalN.Unsigned.to_of. now rewrite DecimalN.Unsigned.of_to. }
  rewrite E. unfold Decimal.unorm.
  pose proof (nzhead_head (N.to_uint n)) as Hh.
  pose proof (digits_of_uint_digits (Decimal.nzhead (N.to_uint n))) as Hd.
  destruct (Decimal.nzhead (N.to_uint n)) as [|d|d|d|d|d|d|d|d|d|d];
    [left; reflexivity|contradiction|..];
    right; cbn [digits_of_uint] in *; eexists; eexists;
    (split; [reflexivity|]); repeat split; try discriminate; exact Hd.
Qed.

Lemma match_integer_str (n : N) (rest : text) :
  no_digit_next rest -> match_integer (str_of_N n ++ rest) = Some (str_of_N n, rest).
Proof.
  intros Hrest.
  destruct (str_of_N_shape n) as [->|(c & ds & -> & Hc & Hd & Hds)].
  - reflexivity.
  - cbn [app match_integer]. apply N.eqb_neq in Hc. rewrite Hc, Hd.
    now rewrite span_digits_app.
Qed.

Lemma delimited_no_digit (rest : text) : delimited rest -> no_digit_next rest.
Proof. destruct rest as [|c rest]; [auto|]. intros [->| ->]; reflexivity. Qed.

Lemma match_frac_delimited (rest : text) : delimited rest -> match_frac rest = ([], rest).
Proof. destruct rest as [|c rest]; [auto|]. intros [->| ->]; reflexivity. Qed.

Lemma match_exp_delimited (rest : text) : delimited rest -> match_exp rest = ([], rest).
Proof. destruct rest as [|c rest]; [auto|]. intros [->| ->]; reflexivity. Qed.

(** [scan_number] behind the sign. *)
Definition scan_unsigned (neg : bool) (s0 : text) : option (value * text) :=
  match match_integer s0 with
  | None => None
  | Some (int_part, s1) =>
      let '(frac, s2) := match_frac s1 in
      let '(exp, s3) := match_exp s2 in
      match frac, exp with
      | [], [] =>
          let n := Z.of_N (N_of_digits int_part) in
          Some (JInt (if neg then Z.opp n else n), s3)
      | _, _ =>
          Some (JFloat ((if neg then [45] else []) ++ int_part ++ frac ++ exp), s3)
      end
  end.

Lemma scan_number_plain (c : char) (s : text) :
  c <> 45 -> scan_number (c :: s) = scan_unsigned false (c :: s).
Proof.
  intros H. unfold scan_number, scan_unsigned.
  apply N.eqb_neq in H. rewrite H. reflexivity.
Qed.

Lemma scan_number_minus (s : text) : scan_number (45 :: s) = scan_unsigned true s.
Proof. reflexivity. Qed.

Lemma scan_number_nil : scan_number [] = None.
Proof. reflexivity. Qed.

Lemma scan_unsigned_N (neg : bool) (n : N) (rest : text) :
  delimited rest ->
  scan_unsigned neg (str_of_N n ++ rest)
  = Some (JInt (if neg then Z.opp (Z.of_N n) else Z.of_N n), rest).
Proof.
  intros Hrest. unfold scan_unsigned.
  rewrite match_integer_str by now apply delimited_no_digit.
  rewrite match_frac_delimited, match_exp_delimited by assumption.
  now rewrite N_of_digits_str.
Qed.

Lemma str_of_N_head (n : N) :
  exists c t, str_of_N n = c :: t /\ is_digit c = true.
Proof.
  destruct (str_of_N_shape n) as [->|(c & ds & -> & Hc & Hd & Hds)].
  - exists 48, []. now split.
  - exists c, ds. now split.
Qed.

Lemma scan_number_N (n : N) (rest : text) :
  delimited rest ->
  scan_number (str_of_N n ++ rest) = Some (JInt (Z.of_N n), rest).
Proof.
  intros Hrest. pose proof (scan_unsigned_N false n rest Hrest) as H.
  destruct (str_of_N_head n) as (c & t & E & Hc). rewrite E in *. cbn [app] in *.
  rewrite scan_number_plain; [exact H|]. intros ->. discriminate.
Qed.

(** An [int] reads back from its digits. *)
Lemma scan_number_int (z : Z) (rest : text) :
  delimited rest -> scan_number (str_of_Z z ++ rest) = Some (JInt z, rest).
Proof.
  intros Hrest. destruct z as [|p|p].
  - exact (scan_number_N 0 rest Hrest).
  - exact (scan_number_N (Npos p) rest Hrest).
  - unfold str_of_Z. cbn [app]. rewrite scan_number_minus.
    now rewrite scan_unsigned_N.
Qed.

Lemma str_of_Z_head (z : Z) :
  exists c t, str_of_Z z = c :: t /\ (is_digit c = true \/ c = 45).
Proof.
  destruct z as [|p|p].
  - exists 48, []. split; [reflexivity|now left].
  - unfold str_of_Z, Z.to_N.
    destruct (str_of_N_head (Npos p)) as (c & t & -> & Hc).
    exists c, t. split; [reflexivity|now left].
  - eexists; eexists. split; [reflexivity|now right].
Qed.

(** [_scan_once] on a text that starts like a number. *)
Lemma scan_once_number (fuel : nat) (c : char) (s : text) (r : value * text) :
  is_digit c = true \/ c = 45 ->
  scan_number (c :: s) = Some r -> scan_once (S fuel) (c :: s) = Some r.
Proof.
  intros Hc Hr. cbn [scan_once].
  assert (H : c <> 34 /\ c <> 123 /\ c <> 91 /\ c <> 110 /\ c <> 116 /\ c <> 102).
  { destruct Hc as [Hc| ->]; [|repeat split; discriminate].
    unfold is_digit in Hc. apply andb_true_iff in Hc as [H1 H2].
    apply N.leb_le in H1, H2. repeat split; lia. }
  destruct H as (H1 & H2 & H3 & H4 & H5 & H6).
  apply N.eqb_neq in H1, H2, H3. rewrite H1, H2, H3.
  change (str "null") with [110; 117; 108; 108].
  change (str "true") with [116; 114; 117; 101].
  change (str "false") with [102; 97; 108; 115; 101].
  cbn [startswith].
  replace (110 =? c) with false by (symmetry; apply N.eqb_neq; congruence).
  replace (116 =? c) with false by (symmetry; apply N.eqb_neq; congruence).
  replace (102 =? c) with false by (symmetry; apply N.eqb_neq; congruence).
  cbn [andb]. now rewrite Hr.
Qed.

Lemma scan_once_int (fuel : nat) (z : Z) (rest : text) :
  delimited rest -> scan_once (S fuel) (str_of_Z z ++ rest) = Some (JInt z, rest).
Proof.
  intros Hrest. pose proof (scan_number_int z rest Hrest) as H.
  destruct (str_of_Z_head z) as (c & t & E & Hc). rewrite E in *.
  cbn [app] in *. now apply scan_once_number.
Qed.

End json_numbers.

(* ===================================================================== *)
(** ** Facts about [json]: a document reads back from what [dumps] writes *)
(* ===================================================================== *)

Module json_values.
Import Py json Py_facts json_facts json_roundtrip json_numbers.

Local Open Scope nat_scope.

(** *** Whitespace and the start of a value *)

Lemma skip_ws_head (c : char) (t : text) : is_ws c = false -> skip_ws (c :: t) = c :: t.
Proof. intros H. cbn [skip_ws]. now rewrite H. Qed.

Lemma skip_ws_spaces (n : nat) (s : text) : skip_ws (repeat 32%N n ++ s) = skip_ws s.
Proof. induction n as [|n IH]; [reflexivity|exact IH]. Qed.

Lemma skip_ws_newline_indent (level : nat) (s : text) :
  skip_ws (newline_indent level ++ s) = skip_ws s.
Proof. unfold newline_indent. cbn [app skip_ws]. apply skip_ws_spaces. Qed.

(** The head of a value's text: no whitespace, no closing bracket. *)
Definition value_head (c : char) : Prop :=
  is_ws c = false /\ c <> 93%N /\ c <> 125%N.

Lemma wf_float_head (r : text) :
  wf_float r -> exists c t, r = c :: t /\ value_head c.
Proof.
  intros H. specialize (H 0 [] I). rewrite app_nil_r in H.
  destruct r as [|c t]; [discriminate|].
  exists c, t. split; [reflexivity|].
  unfold value_head.
  destruct (is_ws c) eqn:Ews.
  { unfold is_ws in Ews.
    repeat (apply orb_true_iff in Ews as [Ews|Ews]);
      apply N.eqb_eq in Ews; subst c; cbn in H; discriminate. }
  split; [reflexivity|].
  split; intros ->; cbn in H; discriminate.
Qed.

Lemma encode_head (sort_keys : bool) (level : nat) (v : value) :
  wf v -> exists c t, encode sort_keys level v = c :: t /\ value_head c.
Proof.
  intros Hwf. destruct v as [ | [|] | z | r | s | [|x items] | [|kv items]];
    try (eexists; eexists; split; [reflexivity|];
         unfold value_head; repeat split; discriminate).
  - destruct (str_of_Z_head z) as (c & t & E & Hc).
    exists c, t. split; [exact E|].
    unfold value_head, is_ws.
    destruct Hc as [Hc| ->]; [|repeat split; discriminate].
    unfold is_digit in Hc. apply andb_true_iff in Hc as [H1 H2].
    apply N.leb_le in H1, H2.
    repeat split; try lia.
    repeat (apply orb_false_iff; split); apply N.eqb_neq; lia.
  - now apply wf_float_head.
Qed.

Lemma value_head_delimited (c : char) (t : text) :
  value_head c -> skip_ws (c :: t) = c :: t.
Proof. intros [H _]. now apply skip_ws_head. Qed.

(** *** The fuel a document asks for *)

Fixpoint cost (v : value) : nat :=
  match v with
  | JList items =>
      S ((fix go (l : list value) : nat :=
            match l with
            | [] => 0
            | x :: l' => S (cost x + go l')
            end) items)
  | JDict items =>
      S ((fix go (l : list (text * value)) : nat :=
            match l with
            | [] => 0
            | kv :: l' => S (cost (snd kv) + go l')
            end) items)
  | _ => 1
  end.

Fixpoint cost_items (l : list value) : nat :=
  match l with
  | [] => 0
  | x :: l' => S (cost x + cost_items l')
  end.

Fixpoint cost_members (l : list (text * value)) : nat :=
  match l with
  | [] => 0
  | kv :: l' => S (cost (snd kv) + cost_members l')
  end.

Lemma cost_list (items : list value) : cost (JList items) = S (cost_items items).
Proof.
  reflexivity.
Qed.

Lemma cost_dict (items : list (text * value)) :
  cost (JDict items) = S (cost_members items).
Proof.
  reflexivity.
Qed.

(** *** [dict(pairs)] of items with different keys *)

Lemma dict_set_fresh (k : text) (v : value) (d : list (text * value)) :
  ~ In k (map fst d) -> dict_set k v d = d ++ [(k, v)].
Proof.
  induction d as [|kv d IH]; intros Hk; [reflexivity|].
  cbn [dict_set app]. cbn [map] in Hk.
  destruct (text_eqb k (fst kv)) eqn:E.
  - apply text_eqb_eq in E. exfalso. apply Hk. now left.
  - f_equal. apply IH. intros Hin. apply Hk. now right.
Qed.

Lemma dict_of_pairs_fresh (pairs acc : list (text * value)) :
  NoDup (map fst (acc ++ pairs)) ->
  fold_left (fun d kv => dict_set (fst kv) (snd kv) d) pairs acc = acc ++ pairs.
Proof.
  revert acc; induction pairs as [|[k v] pairs IH]; intros acc Hnd; cbn [fold_left].
  - now rewrite app_nil_r.
  - cbn [fst snd]. rewrite dict_set_fresh.
    + rewrite IH; rewrite <- app_assoc; [reflexivity|exact Hnd].
    + rewrite map_app in Hnd. cbn [map fst] in Hnd.
      apply NoDup_remove_2 in Hnd. intros Hin. apply Hnd.
      apply in_or_app. now left.
Qed.

Lemma dict_of_pairs_nodup (pairs : list (text * value)) :
  NoDup (map fst pairs) -> dict_of_pairs pairs = pairs.
Proof. intros H. unfold dict_of_pairs. now rewrite dict_of_pairs_fresh. Qed.

(** *** One step of [_scan_once] *)

Lemma scan_once_string (fuel : nat) (s : text) :
  scan_once (S fuel) (34%N :: s)
  = match scanstring s with
    | Some (t, rest) => Some (JStr t, rest)
    | None => None
    end.
Proof. reflexivity. Qed.

Lemma scan_once_list (fuel : nat) (s : text) :
  scan_once (S fuel) (91%N :: s)
  = match skip_ws s with
    | d :: s'' =>
        if (d =? 93)%N then Some (JList [], s'')
        else
          match parse_array fuel (d :: s'') with
          | Some (items, rest) => Some (JList items, rest)
          | None => None
          end
    | [] => None
    end.
Proof. reflexivity. Qed.

Lemma scan_once_dict (fuel : nat) (s : text) :
  scan_once (S fuel) (123%N :: s)
  = match skip_ws s with
    | d :: s'' =>
        if (d =? 125)%N then Some (JDict [], s'')
        else
          match parse_object fuel (d :: s'') with
          | Some (pairs, rest) => Some (JDict (dict_of_pairs pairs), rest)
          | None => None
          end
    | [] => None
    end.
Proof. reflexivity. Qed.

Lemma parse_array_step (fuel : nat) (s : text) :
  parse_array (S fuel) s
  = match scan_once fuel s with
    | None => None
    | Some (v, rest) =>
        match skip_ws rest with
        | c :: rest' =>
            if (c =? 93)%N then Some ([v], rest')
            else if (c =? 44)%N then
              match parse_array fuel (skip_ws rest') with
              | Some (vs, rest'') => Some (v :: vs, rest'')
              | None => None
              end
            else None
        | [] => None
        end
    end.
Proof. reflexivity. Qed.

Lemma parse_object_step (fuel : nat) (s : text) :
  parse_object (S fuel) (34%N :: s)
  = match scanstring s with
    | None => None
    | Some (key, rest) =>
        match skip_ws rest with
        | c :: rest' =>
            if (c =? 58)%N then
              match scan_once fuel (skip_ws rest') with
              | None => None
              | Some (v, rest2) =>
                  match skip_ws rest2 with
                  | d :: rest3 =>
                      if (d =? 125)%N then Some ([(key, v)], rest3)
                      else if (d =? 44)%N then
                        match parse_object fuel (skip_ws rest3) with
                        | Some (kvs, rest4) => Some ((key, v) :: kvs, rest4)
                        | None => None
                        end
                      else None
                  | [] => None
                  end
              end
            else None
        | [] => None
        end
    end.
Proof. reflexivity. Qed.

(** *** The round trip *)

(** The value reads back from its text, at every depth, before every
    delimiter, with fuel to spare. *)
Definition reads_back (v : value) : Prop :=
  forall level rest fuel,
    delimited rest -> cost v <= fuel ->
    scan_once fuel (encode false level v ++ rest) = Some (v, rest).

Definition items_text (level : nat) (items : list value) : text :=
  join (44%N :: newline_indent (S level)) (map (encode false (S level)) items).

Definition members_text (level : nat) (items : list (text * value)) : text :=
  join (44%N :: newline_indent (S level))
       (map encode_item
            (map (fun kv => (fst kv, encode false (S level) (snd kv))) items)).

Lemma items_text_cons (level : nat) (x y : value) (items : list value) :
  items_text level (x :: y :: items)
  = encode false (S level) x
    ++ (44%N :: newline_indent (S level)) ++ items_text level (y :: items).
Proof. reflexivity. Qed.

Lemma members_text_cons (level : nat) (x y : text * value) (items : list (text * value)) :
  members_text level (x :: y :: items)
  = encode_item (fst x, encode false (S level) (snd x))
    ++ (44%N :: newline_indent (S level)) ++ members_text level (y :: items).
Proof. reflexivity. Qed.

Lemma items_text_head (level : nat) (x : value) (items : list value) :
  wf x -> exists c t, items_text level (x :: items) = c :: t /\ value_head c.
Proof.
  intros Hwf. destruct (encode_head false (S level) x Hwf) as (c & t & E & Hc).
  destruct items as [|y items].
  - exists c, t. split; [exact E|exact Hc].
  - rewrite items_text_cons, E. eexists; eexists. split; [reflexivity|exact Hc].
Qed.

Lemma parse_array_items (level : nat) (rest : text) :
  forall items, items <> [] ->
    Forall (fun x => wf x /\ reads_back x) items ->
    forall fuel, cost_items items <= fuel ->
      parse_array fuel (items_text level items ++ newline_indent level ++ 93%N :: rest)
      = Some (items, rest).
Proof.
  induction items as [|x items IH]; intros Hne Hall fuel Hfuel; [congruence|].
  inversion Hall as [|? ? [Hwf Hx] Hall']; subst.
  cbn [cost_items] in Hfuel. destruct fuel as [|fuel]; [lia|].
  rewrite parse_array_step.
  destruct items as [|y items].
  - unfold items_text. cbn [map join].
    rewrite (Hx (S level) (newline_indent level ++ 93%N :: rest) fuel);
      [|unfold newline_indent; cbn; now left|lia].
    rewrite skip_ws_newline_indent. reflexivity.
  - rewrite items_text_cons, <- !app_assoc.
    rewrite (Hx (S level)); [|cbn; now right|lia].
    cbn [app]. rewrite skip_ws_head by reflexivity.
    change (44 =? 93)%N with false. change (44 =? 44)%N with true. cbv iota.
    rewrite skip_ws_newline_indent.
    inversion Hall' as [|? ? [Hwfy _] _]; subst.
    destruct (items_text_head level y items Hwfy) as (c & t & E & Hc).
    rewrite E. cbn [app]. rewrite (value_head_delimited c _ Hc).
    change (c :: t ++ newline_indent level ++ 93%N :: rest)
      with ((c :: t) ++ newline_indent level ++ 93%N :: rest).
    rewrite <- E. rewrite IH; [reflexivity|discriminate|exact Hall'|].
    cbn [cost_items] in *. lia.
Qed.

Lemma encode_item_text (k v : text) (tail : text) :
  encode_item (k, v) ++ tail
  = 34%N :: flat_map escape_char k ++ 34%N :: 58%N :: 32%N :: v ++ tail.
Proof.
  unfold encode_item, encode_string, dquote. cbn [fst snd app].
  rewrite <- !app_assoc. reflexivity.
Qed.

Lemma members_text_quote (level : nat) (x : text * value) (items : list (text * value)) :
  exists t, members_text level (x :: items) = 34%N :: t.
Proof.
  destruct items as [|y items].
  - unfold members_text. cbn [map join]. destruct x as [k v].
    rewrite <- (app_nil_r (encode_item _)), encode_item_text.
    eexists; reflexivity.
  - rewrite members_text_cons. destruct x as [k v]. cbn [fst snd].
    rewrite encode_item_text. eexists; reflexivity.
Qed.

Lemma parse_object_members (level : nat) (rest : text) :
  forall items, items <> [] ->
    Forall (fun kv => wf_string (fst kv) /\ wf (snd kv) /\ reads_back (snd kv)) items ->
    forall fuel, cost_members items <= fuel ->
      parse_object fuel (members_text level items ++ newline_indent level ++ 125%N :: rest)
      = Some (items, rest).
Proof.
  induction items as [|[k v] items IH]; intros Hne Hall fuel Hfuel; [congruence|].
  inversion Hall as [|? ? (Hk & Hwf & Hv) Hall']; subst. cbn [fst snd] in *.
  cbn [cost_members snd] in Hfuel. destruct fuel as [|fuel]; [lia|].
  destruct (encode_head false (S level) v Hwf) as (c & t & E & Hc).
  destruct items as [|y items].
  - unfold members_text. cbn [map join fst snd].
    rewrite encode_item_text, parse_object_step.
    rewrite (scanstring_escaped k _ Hk).
    rewrite skip_ws_head by reflexivity.
    change (58 =? 58)%N with true. cbv iota.
    change (skip_ws (32%N :: ?s)) with (skip_ws s).
    rewrite E. cbn [app]. rewrite (value_head_delimited c _ Hc).
    change (c :: t ++ newline_indent level ++ 125%N :: rest)
      with ((c :: t) ++ newline_indent level ++ 125%N :: rest).
    rewrite <- E.
    rewrite (Hv (S level)); [|unfold newline_indent; cbn; now left|lia].
    rewrite skip_ws_newline_indent. reflexivity.
  - rewrite members_text_cons. cbn [fst snd].
    rewrite <- !app_assoc, encode_item_text, parse_object_step.
    rewrite (scanstring_escaped k _ Hk).
    rewrite skip_ws_head by reflexivity.
    change (58 =? 58)%N with true. cbv iota.
    change (skip_ws (32%N :: ?s)) with (skip_ws s).
    rewrite E. cbn [app]. rewrite (value_head_delimited c _ Hc).
    match goal with
    | |- context [scan_once fuel (c :: t ++ ?tail)] =>
        change (c :: t ++ tail) with ((c :: t) ++ tail)
    end.
    rewrite <- E.
    rewrite (Hv (S level)); [|cbn; now right|lia].
    rewrite skip_ws_head by reflexivity.
    change (44 =? 125)%N with false. change (44 =? 44)%N with true. cbv iota.
    rewrite skip_ws_newline_indent.
    destruct (members_text_quote level y items) as (t' & E').
    rewrite E'. cbn [app]. rewrite skip_ws_head by reflexivity.
    change (34%N :: t' ++ newline_indent level ++ 125%N :: rest)
      with ((34%N :: t') ++ newline_indent level ++ 125%N :: rest).
    rewrite <- E'. rewrite IH; [reflexivity|discriminate|exact Hall'|].
    cbn [cost_members] in *. lia.
Qed.

(** Every well-formed value reads back. *)
Lemma scan_once_encode : forall v, wf v -> reads_back v.
Proof.
  induction v as [ | b | z | r | s | items IH | items IH] using value_induction;
    intros Hwf level rest fuel Hrest Hfuel.
  - destruct fuel as [|fuel]; [cbn in Hfuel; lia|]. reflexivity.
  - destruct fuel as [|fuel]; [cbn in Hfuel; lia|]. destruct b; reflexivity.
  - destruct fuel as [|fuel]; [cbn in Hfuel; lia|]. now apply scan_once_int.
  - destruct fuel as [|fuel]; [cbn in Hfuel; lia|]. now apply Hwf.
  - destruct fuel as [|fuel]; [cbn in Hfuel; lia|].
    cbn [encode]. unfold encode_string, dquote. cbn [app].
    rewrite <- app_assoc. rewrite scan_once_string. cbn [app].
    now rewrite scanstring_escaped.
  - rewrite cost_list in Hfuel. destruct fuel as [|fuel]; [lia|].
    destruct items as [|x items]; [reflexivity|].
    rewrite encode_list_cons. cbn [app]. rewrite scan_once_list.
    rewrite <- !app_assoc, skip_ws_newline_indent.
    apply wf_list in Hwf.
    assert (Hall : Forall (fun x => wf x /\ reads_back x) (x :: items)).
    { clear - IH Hwf. induction (x :: items) as [|y l IHl]; constructor.
      - inversion IH; inversion Hwf; subst. auto.
      - inversion IH; inversion Hwf; subst. auto. }
    fold (items_text level (x :: items)).
    inversion Hwf as [|? ? Hwx _]; subst.
    destruct (items_text_head level x items Hwx) as (c & t & E & Hc).
    rewrite E. cbn [app]. rewrite (value_head_delimited c _ Hc).
    destruct Hc as (_ & Hc & _). apply N.eqb_neq in Hc. rewrite Hc.
    match goal with
    | |- context [parse_array fuel (c :: t ++ ?tail)] =>
        change (c :: t ++ tail) with ((c :: t) ++ tail)
    end.
    rewrite <- E. cbn [app].
    rewrite (parse_array_items level rest (x :: items));
      [reflexivity|discriminate|exact Hall|lia].
  - rewrite cost_dict in Hfuel. destruct fuel as [|fuel]; [lia|].
    destruct items as [|x items]; [reflexivity|].
    rewrite encode_dict_cons. cbv zeta. cbn [app]. rewrite scan_once_dict.
    rewrite <- !app_assoc, skip_ws_newline_indent.
    apply wf_dict in Hwf as [Hnd Hwf].
    assert (Hall : Forall (fun kv => wf_string (fst kv) /\ wf (snd kv)
                                     /\ reads_back (snd kv)) (x :: items)).
    { clear - IH Hwf. induction (x :: items) as [|y l IHl]; constructor.
      - inversion IH; inversion Hwf; subst. intuition.
      - inversion IH; inversion Hwf; subst. auto. }
    fold (members_text level (x :: items)).
    destruct (members_text_quote level x items) as (t & E).
    rewrite E. cbn [app]. rewrite skip_ws_head by reflexivity.
    change (34 =? 125)%N with false. cbv iota.
    match goal with
    | |- context [parse_object fuel (34%N :: t ++ ?tail)] =>
        change (34%N :: t ++ tail) with ((34%N :: t) ++ tail)
    end.
    rewrite <- E.
    rewrite (parse_object_members level rest (x :: items));
      [|discriminate|exact Hall|lia].
    now rewrite dict_of_pairs_nodup.
Qed.

End json_values.

(* ===================================================================== *)
(** ** Facts about [json]: [loads] of what [dumps] writes *)
(* ===================================================================== *)

Module json_loads.
Import Py json Py_facts json_facts json_roundtrip json_numbers json_values.

Local Open Scope nat_scope.

(** [lia] with the names of the text types unfolded. *)
Local Ltac tlia := unfold text, char in *; lia.

Lemma encode_length (sort_keys : bool) (level : nat) (v : value) :
  wf v -> 1 <= List.length (encode sort_keys level v).
Proof.
  intros Hwf. destruct (encode_head sort_keys level v Hwf) as (c & t & -> & _).
  simpl. tlia.
Qed.

Lemma newline_indent_length (level : nat) : 1 <= List.length (newline_indent level).
Proof. unfold newline_indent. simpl. tlia. Qed.

Lemma cost_items_length (level : nat) (items : list value) :
  Forall (fun x => cost x <= List.length (encode false (S level) x)) items ->
  cost_items items <= List.length (items_text level items) + 1.
Proof.
  induction items as [|x items IH]; intros Hall; [simpl; tlia|].
  inversion Hall as [|? ? Hx Hall']; subst. specialize (IH Hall').
  destruct items as [|y items].
  - unfold items_text. cbn [map join cost_items]. tlia.
  - rewrite items_text_cons. cbn [cost_items] in *.
    rewrite !length_app. simpl List.length.
    tlia.
Qed.

Lemma encode_item_length (k v : text) :
  List.length v + 4 <= List.length (encode_item (k, v)).
Proof.
  unfold encode_item, encode_string. cbn [fst snd].
  rewrite !length_app. cbn [List.length]. rewrite length_app. cbn [List.length].
  tlia.
Qed.

Lemma cost_members_length (level : nat) (items : list (text * value)) :
  Forall (fun kv => cost (snd kv) <= List.length (encode false (S level) (snd kv))) items ->
  cost_members items <= List.length (members_text level items) + 1.
Proof.
  induction items as [|[k v] items IH]; intros Hall; [simpl; tlia|].
  inversion Hall as [|? ? Hx Hall']; subst. specialize (IH Hall'). cbn [snd] in Hx.
  pose proof (encode_item_length k (encode false (S level) v)) as Hlen.
  destruct items as [|y items].
  - unfold members_text. cbn [map join cost_members fst snd]. tlia.
  - rewrite members_text_cons. cbn [cost_members fst snd] in *.
    rewrite !length_app.
    change (List.length (44%N :: newline_indent (S level)))
      with (S (List.length (newline_indent (S level)))).
    pose proof (newline_indent_length (S level)). tlia.
Qed.

(** The fuel a document asks for is no more than the length of its text. *)
Lemma cost_le_length : forall v, wf v ->
  forall level, cost v <= List.length (encode false level v).
Proof.
  induction v as [ | b | z | r | s | items IH | items IH] using value_induction;
    intros Hwf level;
    try (change (cost _) with 1; now apply encode_length).
  - rewrite cost_list. destruct items as [|x items]; [simpl; tlia|].
    rewrite encode_list_cons. fold (items_text level (x :: items)).
    apply wf_list in Hwf.
    assert (Hall : Forall (fun x => cost x <= List.length (encode false (S level) x))
                          (x :: items)).
    { clear - IH Hwf. induction (x :: items) as [|y l IHl]; constructor;
        inversion IH; inversion Hwf; subst; auto. }
    pose proof (cost_items_length level (x :: items) Hall).
    rewrite !length_app. simpl List.length. tlia.
  - rewrite cost_dict. destruct items as [|x items]; [simpl; tlia|].
    rewrite encode_dict_cons. cbv zeta. fold (members_text level (x :: items)).
    apply wf_dict in Hwf as [_ Hwf].
    assert (Hall : Forall (fun kv => cost (snd kv)
                                     <= List.length (encode false (S level) (snd kv)))
                          (x :: items)).
    { clear - IH Hwf. induction (x :: items) as [|y l IHl]; constructor;
        inversion IH; inversion Hwf; subst; intuition. }
    pose proof (cost_members_length level (x :: items) Hall).
    rewrite !length_app. simpl List.length. tlia.
Qed.

(** [json.loads] gives back the document [json.dump] wrote, with the line
    feed the script writes behind it or without. *)
Lemma loads_dumps (v : value) (tail : text) :
  wf v -> tail = [] \/ tail = [10%N] -> loads (dumps false v ++ tail) = Some v.
Proof.
  intros Hwf Htail. unfold loads, dumps.
  destruct (encode_head false 0 v Hwf) as (c & t & E & Hc).
  assert (Hskip : skip_ws (encode false 0 v ++ tail) = encode false 0 v ++ tail).
  { rewrite E. cbn [app]. now apply value_head_delimited. }
  rewrite Hskip.
  rewrite (scan_once_encode v Hwf 0 tail).
  - destruct Htail as [->| ->]; reflexivity.
  - destruct Htail as [->| ->]; cbn; auto.
  - pose proof (cost_le_length v Hwf 0). rewrite length_app. tlia.
Qed.

End json_loads.

(* ===================================================================== *)
(** ** Facts about [json]: the documents [loads] builds are well formed *)
(* ===================================================================== *)

Module json_wf.
Import Py json Py_facts json_facts json_roundtrip json_numbers json_values.

(** A text of Unicode scalar values. *)
Definition valid (s : text) : Prop := forallb is_scalar s = true.

Lemma valid_cons (c : char) (s : text) : valid (c :: s) <-> is_scalar c = true /\ valid s.
Proof. unfold valid. cbn [forallb]. apply andb_true_iff. Qed.

Lemma valid_tail (c : char) (s : text) : valid (c :: s) -> valid s.
Proof. intros H. now apply valid_cons in H. Qed.

Lemma valid_app (s t : text) : valid (s ++ t) -> valid t.
Proof. unfold valid. rewrite forallb_app. intros H. now apply andb_true_iff in H. Qed.

Lemma valid_skip_ws (s : text) : valid s -> valid (skip_ws s).
Proof.
  induction s as [|c s IH]; intros H; [exact H|].
  cbn [skip_ws]. destruct (is_ws c); [apply IH; now apply valid_tail in H|exact H].
Qed.

Lemma valid_skipn (n : nat) (s : text) : valid s -> valid (skipn n s).
Proof. intros H. rewrite <- (firstn_skipn n s) in H. now apply valid_app in H. Qed.

(** *** Strings *)

Lemma hex_value_bound (c : char) (n : N) : hex_value c = Some n -> n < 16.
Proof.
  unfold hex_value, is_digit.
  destruct ((48 <=? c) && (c <=? 57)) eqn:E1.
  { apply andb_true_iff in E1 as [H1 H2]. apply N.leb_le in H1, H2.
    intros H; injection H as <-. lia. }
  destruct ((97 <=? c) && (c <=? 102)) eqn:E2.
  { apply andb_true_iff in E2 as [H1 H2]. apply N.leb_le in H1, H2.
    intros H; injection H as <-. lia. }
  destruct ((65 <=? c) && (c <=? 70)) eqn:E3; [|discriminate].
  apply andb_true_iff in E3 as [H1 H2]. apply N.leb_le in H1, H2.
  intros H; injection H as <-. lia.
Qed.

Lemma hex4_value_bound (h1 h2 h3 h4 : char) (u : N) :
  hex4_value h1 h2 h3 h4 = Some u -> u < 65536.
Proof.
  unfold hex4_value.
  destruct (hex_value h1) as [a|] eqn:E1; [|discriminate].
  destruct (hex_value h2) as [b|] eqn:E2; [|discriminate].
  destruct (hex_value h3) as [c|] eqn:E3; [|discriminate].
  destruct (hex_value h4) as [d|] eqn:E4; [|discriminate].
  apply hex_value_bound in E1, E2, E3, E4.
  intros H; injection H as <-. lia.
Qed.

Lemma combine_bound (u u2 : N) :
  is_high_surrogate u = true -> is_low_surrogate u2 = true ->
  65536 <= combine_surrogates u u2 /\ combine_surrogates u u2 < 1114112.
Proof.
  unfold is_high_surrogate, is_low_surrogate, combine_surrogates.
  intros Hu Hu2.
  apply andb_true_iff in Hu as [H1 H2]. apply andb_true_iff in Hu2 as [H3 H4].
  apply N.leb_le in H1, H2, H3, H4.
  rewrite N.shiftl_mul_pow2. change (2 ^ 10) with 1024.
  rewrite lor_shift_small by lia. lia.
Qed.

Lemma cons_char_some (c : char) (r : option (text * text)) (t rest : text) :
  cons_char c r = Some (t, rest) ->
  exists t', r = Some (t', rest) /\ t = c :: t'.
Proof.
  destruct r as [[t' rest']|]; [|discriminate].
  cbn [cons_char]. intros H; injection H as <- <-. now exists t'.
Qed.

(** A string that starts with a low surrogate was read from its escape. *)
Definition head_escaped (s t : text) : Prop :=
  match t with
  | d :: _ =>
      is_low_surrogate d = true ->
      exists g1 g2 g3 g4 s5,
        s = 92 :: 117 :: g1 :: g2 :: g3 :: g4 :: s5 /\
        hex4_value g1 g2 g3 g4 = Some d
  | [] => True
  end.

Lemma wf_string_nil : wf_string [].
Proof. split; reflexivity. Qed.

Lemma wf_string_cons (c : char) (t : text) :
  c < 1114112 ->
  (is_high_surrogate c = true ->
   match t with d :: _ => is_low_surrogate d = false | [] => True end) ->
  wf_string t -> wf_string (c :: t).
Proof.
  intros Hc Hpair [H1 H2]. split.
  - cbn [forallb]. apply N.ltb_lt in Hc. now rewrite Hc, H1.
  - cbn [no_surrogate_pair]. rewrite H2, andb_true_r.
    destruct t as [|d t]; [reflexivity|].
    destruct (is_high_surrogate c); [|reflexivity].
    now rewrite (Hpair eq_refl).
Qed.

Lemma scalar_not_surrogate (c : char) :
  is_scalar c = true ->
  c < 1114112 /\ is_high_surrogate c = false /\ is_low_surrogate c = false.
Proof.
  unfold is_scalar, is_high_surrogate, is_low_surrogate. intros H.
  apply orb_true_iff in H as [H|H].
  - apply N.ltb_lt in H. repeat split; [lia| |];
      apply andb_false_iff; left; apply N.leb_gt; lia.
  - apply andb_true_iff in H as [H1 H2]. apply N.leb_le in H1. apply N.ltb_lt in H2.
    repeat split; [lia| |]; apply andb_false_iff; right; apply N.leb_gt; lia.
Qed.

(** After a character that is no high surrogate, anything may follow. *)
Lemma wf_string_cons_plain (c : char) (t : text) :
  c < 1114112 -> is_high_surrogate c = false -> wf_string t -> wf_string (c :: t).
Proof.
  intros Hc Hh Ht. apply wf_string_cons; auto. rewrite Hh. discriminate.
Qed.

Lemma head_escaped_not_low (c : char) (s t : text) :
  is_low_surrogate c = false -> head_escaped s (c :: t).
Proof. intros H. cbn [head_escaped]. rewrite H. discriminate. Qed.

Lemma unescape_plain (e c : char) :
  unescape e = Some c ->
  c < 1114112 /\ is_high_surrogate c = false /\ is_low_surrogate c = false.
Proof.
  unfold unescape.
  repeat match goal with
         | |- context [if ?b then _ else _] => destruct b
         end;
    intros H; try discriminate; injection H as <-; repeat split; reflexivity.
Qed.

Lemma scanstring_wf : forall n s,
  (List.length s <= n)%nat -> valid s ->
  forall t rest, scanstring s = Some (t, rest) ->
    wf_string t /\ valid rest /\ head_escaped s t.
Proof.
  induction n as [|n IH]; intros s Hlen Hs t rest H.
  { destruct s; [discriminate|simpl in Hlen; lia]. }
  destruct s as [|c s1]; [discriminate|].
  cbn [List.length] in Hlen.
  apply valid_cons in Hs as [Hc Hs1].
  cbn [scanstring] in H.
  destruct (c =? 34) eqn:E34.
  { injection H as <- <-. split; [apply wf_string_nil|split; [exact Hs1|exact I]]. }
  destruct (c =? 92) eqn:E92.
  - destruct s1 as [|e s2]; [discriminate|].
    cbn [List.length] in Hlen. apply valid_tail in Hs1 as Hs2.
    destruct (e =? 117) eqn:E117.
    + destruct s2 as [|h1 [|h2 [|h3 [|h4 s3]]]]; try discriminate.
      cbn [List.length] in Hlen.
      assert (Hs3 : valid s3) by (do 4 apply valid_tail in Hs2; exact Hs2).
      destruct (hex4_value h1 h2 h3 h4) as [u|] eqn:Eu; [|discriminate].
      pose proof (hex4_value_bound _ _ _ _ _ Eu) as Hu.
      apply N.eqb_eq in E92, E117. subst c e.
      assert (Hplain : forall t3,
                 scanstring s3 = Some (t3, rest) ->
                 (is_high_surrogate u = true ->
                  match t3 with d :: _ => is_low_surrogate d = false | [] => True end) ->
                 wf_string (u :: t3) /\ valid rest
                 /\ head_escaped (92 :: 117 :: h1 :: h2 :: h3 :: h4 :: s3) (u :: t3)).
      { intros t3 H3 Hpair.
        destruct (IH s3 ltac:(lia) Hs3 t3 rest H3) as (Hw & Hv & _).
        split; [apply wf_string_cons; auto; lia|split; [exact Hv|]].
        cbn [head_escaped]. intros _. now exists h1, h2, h3, h4, s3. }
      destruct (is_high_surrogate u) eqn:Ehigh.
      * destruct s3 as [|b1 [|b2 s4]].
        -- apply cons_char_some in H as (t3 & H3 & ->).
           apply Hplain; [exact H3|]. intros _.
           destruct (IH [] ltac:(simpl; lia) Hs3 t3 rest H3) as (_ & _ & Hhead).
           destruct t3 as [|d t3]; [exact I|].
           destruct (is_low_surrogate d) eqn:Ed; [|reflexivity].
           destruct (Hhead Ed) as (? & ? & ? & ? & ? & Hcontra & _). discriminate.
        -- apply cons_char_some in H as (t3 & H3 & ->).
           apply Hplain; [exact H3|]. intros _.
           destruct (IH [b1] ltac:(simpl; lia) Hs3 t3 rest H3) as (_ & _ & Hhead).
           destruct t3 as [|d t3]; [exact I|].
           destruct (is_low_surrogate d) eqn:Ed; [|reflexivity].
           destruct (Hhead Ed) as (? & ? & ? & ? & ? & Hcontra & _). discriminate.
        -- cbn [List.length] in Hlen.
           destruct ((b1 =? 92) && (b2 =? 117)) eqn:Eb.
           ++ destruct s4 as [|g1 [|g2 [|g3 [|g4 s5]]]]; try discriminate.
              cbn [List.length] in Hlen.
              destruct (hex4_value g1 g2 g3 g4) as [u2|] eqn:Eu2; [|discriminate].
              destruct (is_low_surrogate u2) eqn:Elow.
              ** apply cons_char_some in H as (t5 & H5 & ->).
                 assert (Hs5 : valid s5) by (do 6 apply valid_tail in Hs3; exact Hs3).
                 destruct (IH s5 ltac:(lia) Hs5 t5 rest H5) as (Hw & Hv & _).
                 destruct (combine_bound u u2 Ehigh Elow) as [Hc1 Hc2].
                 assert (Hnh : is_high_surrogate (combine_surrogates u u2) = false).
                 { unfold is_high_surrogate. apply andb_false_iff. right.
                   apply N.leb_gt. lia. }
                 assert (Hnl : is_low_surrogate (combine_surrogates u u2) = false).
                 { unfold is_low_surrogate. apply andb_false_iff. right.
                   apply N.leb_gt. lia. }
                 split; [now apply wf_string_cons_plain|split; [exact Hv|]].
                 now apply head_escaped_not_low.
              ** apply cons_char_some in H as (t3 & H3 & ->).
                 apply Hplain; [exact H3|]. intros _.
                 destruct (IH (b1 :: b2 :: g1 :: g2 :: g3 :: g4 :: s5)
                              ltac:(cbn [List.length]; lia) Hs3 t3 rest H3)
                   as (_ & _ & Hhead).
                 destruct t3 as [|d t3]; [exact I|].
                 destruct (is_low_surrogate d) eqn:Ed; [|reflexivity].
                 destruct (Hhead Ed) as (? & ? & ? & ? & ? & Heq & Hd).
                 injection Heq as _ _ <- <- <- <- _.
                 rewrite Eu2 in Hd. injection Hd as <-. congruence.
           ++ apply cons_char_some in H as (t3 & H3 & ->).
              apply Hplain; [exact H3|]. intros _.
              destruct (IH (b1 :: b2 :: s4) ltac:(cbn [List.length]; lia) Hs3 t3 rest H3)
                as (_ & _ & Hhead).
              destruct t3 as [|d t3]; [exact I|].
              destruct (is_low_surrogate d) eqn:Ed; [|reflexivity].
              destruct (Hhead Ed) as (? & ? & ? & ? & ? & Heq & _).
              injection Heq as -> -> _. discriminate.
      * apply cons_char_some in H as (t3 & H3 & ->).
        apply Hplain; [exact H3|discriminate].
    + destruct (unescape e) as [c'|] eqn:Ee; [|discriminate].
      apply cons_char_some in H as (t2 & H2 & ->).
      destruct (IH s2 ltac:(lia) Hs2 t2 rest H2) as (Hw & Hv & _).
      destruct (unescape_plain e c' Ee) as (Hc1 & Hc2 & Hc3).
      split; [now apply wf_string_cons_plain|split; [exact Hv|]].
      now apply head_escaped_not_low.
  - destruct (c <? 32); [discriminate|].
    apply cons_char_some in H as (t1 & H1 & ->).
    destruct (IH s1 ltac:(lia) Hs1 t1 rest H1) as (Hw & Hv & _).
    destruct (scalar_not_surrogate c Hc) as (Hc1 & Hc2 & Hc3).
    split; [now apply wf_string_cons_plain|split; [exact Hv|]].
    now apply head_escaped_not_low.
Qed.

Lemma scanstring_valid (s t rest : text) :
  valid s -> scanstring s = Some (t, rest) -> wf_string t /\ valid rest.
Proof.
  intros Hs H.
  destruct (scanstring_wf (List.length s) s (le_n _) Hs t rest H) as (Hw & Hv & _).
  now split.
Qed.

End json_wf.

(* ===================================================================== *)
(** ** Facts about [json]: numbers and containers that [loads] builds *)
(* ===================================================================== *)

Module json_parse.
Import Py json Py_facts json_facts json_roundtrip json_numbers json_values json_wf.

(** *** Floats *)

Definition frac_shape (frac : text) : Prop :=
  frac = [] \/ exists ds, frac = 46 :: ds /\ ds <> [] /\ forallb is_digit ds = true.

Definition exp_shape (exp : text) : Prop :=
  exp = []
  \/ exists c ds, (c = 101 \/ c = 69) /\ ds <> [] /\ forallb is_digit ds = true
                  /\ (exp = c :: ds
                      \/ exists sg, (sg = 45 \/ sg = 43) /\ exp = c :: sg :: ds).

Definition int_shape (ip : text) : Prop :=
  ip = [48]
  \/ exists c ds, ip = c :: ds /\ c <> 48 /\ is_digit c = true
                  /\ forallb is_digit ds = true.

Lemma match_integer_shape (s ip s1 : text) :
  match_integer s = Some (ip, s1) -> int_shape ip /\ s = ip ++ s1.
Proof.
  unfold match_integer. destruct s as [|c s']; [discriminate|].
  destruct (c =? 48) eqn:E0.
  - apply N.eqb_eq in E0. subst c. intros H; injection H as <- <-.
    split; [now left|reflexivity].
  - destruct (is_digit c) eqn:Ec; [|discriminate].
    destruct (span_digits s') as [ds rest] eqn:Es.
    intros H; injection H as <- <-.
    destruct (span_digits_spec _ _ _ Es) as (-> & Hds & _).
    split; [|reflexivity]. right. exists c, ds.
    apply N.eqb_neq in E0. now repeat split.
Qed.

Lemma match_frac_shape (s frac s2 : text) :
  match_frac s = (frac, s2) -> frac_shape frac /\ s = frac ++ s2.
Proof.
  unfold match_frac. destruct s as [|c s'].
  - intros H; injection H as <- <-. split; [now left|reflexivity].
  - destruct (c =? 46) eqn:Ec.
    + apply N.eqb_eq in Ec. subst c.
      destruct (span_digits s') as [ds rest] eqn:Es.
      destruct (span_digits_spec _ _ _ Es) as (-> & Hds & _).
      destruct ds as [|d ds].
      * intros H; injection H as <- <-. split; [now left|reflexivity].
      * intros H; injection H as <- <-. split; [|reflexivity].
        right. exists (d :: ds). repeat split; [discriminate|exact Hds].
    + intros H; injection H as <- <-. split; [now left|reflexivity].
Qed.

Lemma match_exp_shape (s exp s3 : text) :
  match_exp s = (exp, s3) -> exp_shape exp /\ s = exp ++ s3.
Proof.
  unfold match_exp. destruct s as [|c s'].
  - intros H; injection H as <- <-. split; [now left|reflexivity].
  - destruct ((c =? 101) || (c =? 69)) eqn:Ec.
    + assert (Hc : c = 101 \/ c = 69).
      { apply orb_true_iff in Ec as [Ec|Ec]; apply N.eqb_eq in Ec; auto. }
      destruct s' as [|sg s''].
      * intros H; injection H as <- <-. split; [now left|reflexivity].
      * destruct ((sg =? 45) || (sg =? 43)) eqn:Esg.
        -- assert (Hsg : sg = 45 \/ sg = 43).
           { apply orb_true_iff in Esg as [E|E]; apply N.eqb_eq in E; auto. }
           destruct (span_digits s'') as [ds rest] eqn:Es.
           destruct (span_digits_spec _ _ _ Es) as (-> & Hds & _).
           destruct ds as [|d ds].
           ++ intros H; injection H as <- <-. split; [now left|reflexivity].
           ++ intros H; injection H as <- <-. split; [|reflexivity].
              right. exists c, (d :: ds).
              split; [exact Hc|]. split; [discriminate|]. split; [exact Hds|].
              right. now exists sg.
        -- destruct (span_digits (sg :: s'')) as [ds rest] eqn:Es.
           destruct (span_digits_spec _ _ _ Es) as (E & Hds & _).
           destruct ds as [|d ds].
           ++ intros H; injection H as <- <-. split; [now left|reflexivity].
           ++ intros H; injection H as <- <-. split.
              ** right. exists c, (d :: ds).
                 split; [exact Hc|]. split; [discriminate|]. split; [exact Hds|].
                 now left.
              ** cbn [app]. f_equal. exact E.
    + intros H; injection H as <- <-. split; [now left|reflexivity].
Qed.

(** What may stand behind the integer part, the fraction or the exponent
    of a float that is followed by a delimiter. *)
Lemma frac_head (frac tail : text) :
  frac_shape frac -> frac <> [] -> exists t, frac ++ tail = 46 :: t.
Proof.
  intros [->|(ds & -> & _)] H; [congruence|]. eexists; reflexivity.
Qed.

Lemma exp_head (exp tail : text) :
  exp_shape exp -> exp <> [] ->
  exists c t, exp ++ tail = c :: t /\ (c = 101 \/ c = 69).
Proof.
  intros [->|(c & ds & Hc & _ & _ & [->|(sg & _ & ->)])] H; [congruence| |];
    exists c; eexists; split; try reflexivity; exact Hc.
Qed.

Lemma match_integer_again (ip tail : text) :
  int_shape ip -> no_digit_next tail -> match_integer (ip ++ tail) = Some (ip, tail).
Proof.
  intros [->|(c & ds & -> & Hc & Hd & Hds)] Htail; [reflexivity|].
  cbn [app match_integer]. apply N.eqb_neq in Hc. rewrite Hc, Hd.
  now rewrite span_digits_app.
Qed.

Lemma match_frac_again (frac tail : text) :
  frac_shape frac -> no_digit_next tail ->
  (frac = [] -> match tail with c :: _ => c <> 46 | [] => True end) ->
  match_frac (frac ++ tail) = (frac, tail).
Proof.
  intros [->|(ds & -> & Hne & Hds)] Htail Hdot.
  - cbn [app]. unfold match_frac. destruct tail as [|c t]; [reflexivity|].
    specialize (Hdot eq_refl). apply N.eqb_neq in Hdot. now rewrite Hdot.
  - cbn [app]. unfold match_frac. change (46 =? 46) with true. cbv iota.
    rewrite span_digits_app by assumption.
    destruct ds; [congruence|reflexivity].
Qed.

Lemma match_exp_again (exp tail : text) :
  exp_shape exp -> no_digit_next tail ->
  (exp = [] -> match tail with c :: _ => c <> 101 /\ c <> 69 | [] => True end) ->
  match_exp (exp ++ tail) = (exp, tail).
Proof.
  intros [->|(c & ds & Hc & Hne & Hds & [->|(sg & Hsg & ->)])] Htail He.
  - cbn [app]. unfold match_exp. destruct tail as [|c t]; [reflexivity|].
    destruct (He eq_refl) as [H1 H2]. apply N.eqb_neq in H1, H2. now rewrite H1, H2.
  - cbn [app]. unfold match_exp.
    replace ((c =? 101) || (c =? 69)) with true
      by (destruct Hc as [->| ->]; reflexivity).
    destruct ds as [|d ds]; [congruence|]. cbn [app].
    cbn [forallb] in Hds. apply andb_true_iff in Hds as [Hd Hds].
    replace ((d =? 45) || (d =? 43)) with false.
    2:{ symmetry. unfold is_digit in Hd. apply andb_true_iff in Hd as [H1 H2].
        apply N.leb_le in H1, H2. apply orb_false_iff. split; apply N.eqb_neq; lia. }
    change (d :: ds ++ tail) with ((d :: ds) ++ tail).
    rewrite span_digits_app; [reflexivity| |exact Htail].
    cbn [forallb]. now rewrite Hd, Hds.
  - cbn [app]. unfold match_exp.
    replace ((c =? 101) || (c =? 69)) with true
      by (destruct Hc as [->| ->]; reflexivity).
    replace ((sg =? 45) || (sg =? 43)) with true
      by (destruct Hsg as [->| ->]; reflexivity).
    rewrite span_digits_app by assumption.
    destruct ds; [congruence|reflexivity].
Qed.

Lemma delimited_plain (rest : text) :
  delimited rest ->
  no_digit_next rest
  /\ match rest with c :: _ => c <> 46 | [] => True end
  /\ match rest with c :: _ => c <> 101 /\ c <> 69 | [] => True end.
Proof.
  destruct rest as [|c rest]; [now repeat split|].
  intros [->| ->]; repeat split; discriminate.
Qed.

(** A float that [scan_unsigned] reads stands again before a delimiter. *)
Lemma scan_unsigned_float (neg : bool) (s r rest : text) :
  scan_unsigned neg s = Some (JFloat r, rest) ->
  exists body,
    r = (if neg then [45] else []) ++ body
    /\ (exists c t, body = c :: t /\ is_digit c = true)
    /\ s = body ++ rest
    /\ forall rest', delimited rest' ->
         scan_unsigned neg (body ++ rest') = Some (JFloat r, rest').
Proof.
  unfold scan_unsigned.
  destruct (match_integer s) as [[ip s1]|] eqn:Ei; [|discriminate].
  destruct (match_frac s1) as [frac s2] eqn:Ef.
  destruct (match_exp s2) as [exp s3] eqn:Ee.
  destruct (match_integer_shape _ _ _ Ei) as (Hip & ->).
  destruct (match_frac_shape _ _ _ Ef) as (Hfrac & ->).
  destruct (match_exp_shape _ _ _ Ee) as (Hexp & ->).
  intros H.
  assert (Hfloat : (frac <> [] \/ exp <> [])
                   /\ r = (if neg then [45] else []) ++ ip ++ frac ++ exp
                   /\ rest = s3).
  { destruct frac as [|f frac]; [destruct exp as [|e exp]|].
    - discriminate.
    - injection H as <- <-. repeat split. right; discriminate.
    - injection H as <- <-. repeat split. left; discriminate. }
  destruct Hfloat as (Hne & -> & ->). clear H.
  exists (ip ++ frac ++ exp). split; [reflexivity|]. split.
  { destruct Hip as [->|(c & ds & -> & _ & Hd & _)];
      eexists; eexists; (split; [reflexivity|]); [reflexivity|exact Hd]. }
  split; [now rewrite <- !app_assoc|].
  intros rest' Hrest'.
  destruct (delimited_plain rest' Hrest') as (Hnd & Hdot & He).
  rewrite <- !app_assoc.
  assert (Hexp_tail : no_digit_next (exp ++ rest')
                      /\ match exp ++ rest' with c :: _ => c <> 46 | [] => True end).
  { destruct (list_eq_dec N.eq_dec exp []) as [->|Hx]; [now split|].
    destruct (exp_head exp rest' Hexp Hx) as (c & t & -> & [->| ->]);
      split; cbn; try reflexivity; discriminate. }
  destruct Hexp_tail as [Hexp_nd Hexp_dot].
  assert (Hfrac_tail : no_digit_next (frac ++ exp ++ rest')).
  { destruct (list_eq_dec N.eq_dec frac []) as [->|Hx]; [exact Hexp_nd|].
    destruct (frac_head frac (exp ++ rest') Hfrac Hx) as (t & ->). reflexivity. }
  rewrite (match_integer_again ip _ Hip Hfrac_tail).
  rewrite (match_frac_again frac _ Hfrac Hexp_nd (fun _ => Hexp_dot)).
  rewrite (match_exp_again exp _ Hexp Hnd (fun _ => He)).
  destruct frac as [|f frac]; [destruct exp as [|e exp]|]; try reflexivity.
  destruct Hne; congruence.
Qed.

Lemma scan_unsigned_valid (neg : bool) (s : text) (v : value) (rest : text) :
  valid s -> scan_unsigned neg s = Some (v, rest) -> valid rest.
Proof.
  unfold scan_unsigned.
  destruct (match_integer s) as [[ip s1]|] eqn:Ei; [|discriminate].
  destruct (match_frac s1) as [frac s2] eqn:Ef.
  destruct (match_exp s2) as [exp s3] eqn:Ee.
  destruct (match_integer_shape _ _ _ Ei) as (_ & ->).
  destruct (match_frac_shape _ _ _ Ef) as (_ & ->).
  destruct (match_exp_shape _ _ _ Ee) as (_ & ->).
  intros Hs H. do 3 apply valid_app in Hs.
  destruct frac; destruct exp; injection H as _ <-; exact Hs.
Qed.

(** What [scan_number] reads is well formed. *)
Lemma scan_number_wf (s : text) (v : value) (rest : text) :
  valid s -> scan_number s = Some (v, rest) -> wf v /\ valid rest.
Proof.
  intros Hs H.
  destruct s as [|c s']; [discriminate|].
  destruct (N.eq_dec c 45) as [->|Hc].
  - rewrite scan_number_minus in H.
    split; [|eapply scan_unsigned_valid; [apply (valid_tail _ _ Hs)|exact H]].
    destruct v; try exact I.
    + destruct (scan_unsigned_float _ _ _ _ H) as (body & -> & _ & _ & Hagain).
      intros fuel rest' Hrest'. cbn [app].
      apply scan_once_number; [now right|].
      rewrite scan_number_minus. now apply Hagain.
    + unfold scan_unsigned in H.
      destruct (match_integer s') as [[ip s1]|]; [|discriminate].
      destruct (match_frac s1) as [frac s2]. destruct (match_exp s2) as [exp s3].
      destruct frac; destruct exp; discriminate.
    + unfold scan_unsigned in H.
      destruct (match_integer s') as [[ip s1]|]; [|discriminate].
      destruct (match_frac s1) as [frac s2]. destruct (match_exp s2) as [exp s3].
      destruct frac; destruct exp; discriminate.
    + unfold scan_unsigned in H.
      destruct (match_integer s') as [[ip s1]|]; [|discriminate].
      destruct (match_frac s1) as [frac s2]. destruct (match_exp s2) as [exp s3].
      destruct frac; destruct exp; discriminate.
  - rewrite scan_number_plain in H by exact Hc.
    split; [|eapply scan_unsigned_valid; [exact Hs|exact H]].
    destruct v; try exact I.
    + destruct (scan_unsigned_float _ _ _ _ H)
        as (body & -> & (d & t & -> & Hd) & _ & Hagain).
      intros fuel rest' Hrest'. cbn [app].
      apply scan_once_number; [now left|].
      rewrite scan_number_plain; [now apply Hagain|].
      intros ->. discriminate.
    + unfold scan_unsigned in H.
      destruct (match_integer (c :: s')) as [[ip s1]|]; [|discriminate].
      destruct (match_frac s1) as [frac s2]. destruct (match_exp s2) as [exp s3].
      destruct frac; destruct exp; discriminate.
    + unfold scan_unsigned in H.
      destruct (match_integer (c :: s')) as [[ip s1]|]; [|discriminate].
      destruct (match_frac s1) as [frac s2]. destruct (match_exp s2) as [exp s3].
      destruct frac; destruct exp; discriminate.
    + unfold scan_unsigned in H.
      destruct (match_integer (c :: s')) as [[ip s1]|]; [|discriminate].
      destruct (match_frac s1) as [frac s2]. destruct (match_exp s2) as [exp s3].
      destruct frac; destruct exp; discriminate.
Qed.

End json_parse.

(* ===================================================================== *)
(** ** Facts about [json]: [loads] builds well-formed documents *)
(* ===================================================================== *)

Module json_loads_wf.
Import Py json Py_facts json_facts json_roundtrip json_numbers json_values.
Import json_loads json_wf json_parse.

Definition wf_member (kv : text * value) : Prop := wf_string (fst kv) /\ wf (snd kv).

Lemma dict_set_keys (k : text) (v : value) (d : list (text * value)) :
  map fst (dict_set k v d) = map fst d
  \/ (~ In k (map fst d) /\ map fst (dict_set k v d) = map fst d ++ [k]).
Proof.
  induction d as [|kv d IH]; cbn [dict_set map].
  - right. split; [intros []|reflexivity].
  - destruct (text_eqb k (fst kv)) eqn:E.
    + apply text_eqb_eq in E. left. cbn [map fst]. now rewrite E.
    + cbn [map]. destruct IH as [->|[Hnin ->]]; [now left|].
      right. split; [|reflexivity].
      intros [Heq|Hin]; [|contradiction].
      rewrite Heq, text_eqb_refl in E. discriminate.
Qed.

Lemma dict_set_wf (k : text) (v : value) (d : list (text * value)) :
  wf_member (k, v) -> NoDup (map fst d) -> Forall wf_member d ->
  NoDup (map fst (dict_set k v d)) /\ Forall wf_member (dict_set k v d).
Proof.
  intros Hkv Hnd Hall. split.
  - destruct (dict_set_keys k v d) as [->|[Hnin ->]]; [exact Hnd|].
    apply NoDup_app; [exact Hnd|repeat constructor; intros []|].
    intros x Hx [<-|[]]. contradiction.
  - induction d as [|kv d IH]; cbn [dict_set]; [now constructor|].
    inversion Hall; subst. inversion Hnd; subst.
    destruct (text_eqb k (fst kv)); constructor; auto.
Qed.

Lemma dict_of_pairs_wf (pairs : list (text * value)) :
  Forall wf_member pairs ->
  NoDup (map fst (dict_of_pairs pairs)) /\ Forall wf_member (dict_of_pairs pairs).
Proof.
  unfold dict_of_pairs.
  assert (H : forall acc,
             NoDup (map fst acc) -> Forall wf_member acc -> Forall wf_member pairs ->
             NoDup (map fst (fold_left (fun d kv => dict_set (fst kv) (snd kv) d) pairs acc))
             /\ Forall wf_member
                  (fold_left (fun d kv => dict_set (fst kv) (snd kv) d) pairs acc)).
  { induction pairs as [|[k v] pairs IH]; intros acc Hnd Hacc Hall; cbn [fold_left].
    - now split.
    - inversion Hall; subst. cbn [fst snd].
      destruct (dict_set_wf k v acc) as [Hnd' Hacc']; auto. }
  intros Hall. apply H; [constructor|constructor|exact Hall].
Qed.

Lemma wf_of_members (items : list (text * value)) :
  NoDup (map fst items) -> Forall wf_member items -> wf (JDict items).
Proof. intros H1 H2. apply wf_dict. now split. Qed.

Lemma wf_float_constant (r : text) :
  r = str "NaN" \/ r = str "Infinity" \/ r = str "-Infinity" -> wf_float r.
Proof.
  intros [->|[->| ->]] fuel rest _; reflexivity.
Qed.

Lemma scan_once_other (fuel : nat) (s : text) (c : char) :
  (c =? 34) = false -> (c =? 123) = false -> (c =? 91) = false ->
  scan_once (S fuel) (c :: s)
  = let s := c :: s in
    if startswith (str "null") s then Some (JNull, skipn 4 s)
    else if startswith (str "true") s then Some (JBool true, skipn 4 s)
    else if startswith (str "false") s then Some (JBool false, skipn 5 s)
    else
      match scan_number s with
      | Some r => Some r
      | None =>
          if startswith (str "NaN") s then Some (JFloat (str "NaN"), skipn 3 s)
          else if startswith (str "Infinity") s
          then Some (JFloat (str "Infinity"), skipn 8 s)
          else if startswith (str "-Infinity") s
          then Some (JFloat (str "-Infinity"), skipn 9 s)
          else None
      end.
Proof. intros H1 H2 H3. cbn [scan_once]. rewrite H1, H2, H3. reflexivity. Qed.

(** The three readers, on a text of scalar values, return well-formed
    values and leave a text of scalar values. *)
Lemma readers_wf : forall fuel,
  (forall s v rest, valid s -> scan_once fuel s = Some (v, rest) ->
                    wf v /\ valid rest)
  /\ (forall s vs rest, valid s -> parse_array fuel s = Some (vs, rest) ->
                        Forall wf vs /\ valid rest)
  /\ (forall s kvs rest, valid s -> parse_object fuel s = Some (kvs, rest) ->
                         Forall wf_member kvs /\ valid rest).
Proof.
  induction fuel as [|fuel (IHv & IHa & IHo)].
  { repeat split; discriminate. }
  split; [|split].
  - (* scan_once *)
    intros s v rest Hs H. destruct s as [|c s']; [discriminate|].
    pose proof (valid_tail _ _ Hs) as Hs'.
    destruct (N.eq_dec c 34) as [->|H34].
    { rewrite scan_once_string in H.
      destruct (scanstring s') as [[t r]|] eqn:Et; [|discriminate].
      injection H as <- <-. now apply scanstring_valid in Et. }
    destruct (N.eq_dec c 123) as [->|H123].
    { rewrite scan_once_dict in H.
      pose proof (valid_skip_ws _ Hs') as Hsk.
      destruct (skip_ws s') as [|d s'']; [discriminate|].
      destruct (d =? 125).
      - injection H as <- <-. split; [|now apply valid_tail in Hsk].
        apply wf_of_members; constructor.
      - destruct (parse_object fuel (d :: s'')) as [[pairs r]|] eqn:Ep; [|discriminate].
        injection H as <- <-.
        destruct (IHo _ _ _ Hsk Ep) as [Hall Hv]. split; [|exact Hv].
        destruct (dict_of_pairs_wf pairs Hall). now apply wf_of_members. }
    destruct (N.eq_dec c 91) as [->|H91].
    { rewrite scan_once_list in H.
      pose proof (valid_skip_ws _ Hs') as Hsk.
      destruct (skip_ws s') as [|d s'']; [discriminate|].
      destruct (d =? 93).
      - injection H as <- <-. split; [exact I|now apply valid_tail in Hsk].
      - destruct (parse_array fuel (d :: s'')) as [[items r]|] eqn:Ep; [|discriminate].
        injection H as <- <-.
        destruct (IHa _ _ _ Hsk Ep) as [Hall Hv]. split; [|exact Hv].
        now apply wf_list. }
    apply N.eqb_neq in H34, H123, H91.
    rewrite (scan_once_other fuel s' c H34 H123 H91) in H. cbv zeta in H.
    destruct (startswith (str "null") (c :: s')).
    { injection H as <- <-. split; [exact I|exact (valid_skipn 4 (c :: s') Hs)]. }
    destruct (startswith (str "true") (c :: s')).
    { injection H as <- <-. split; [exact I|exact (valid_skipn 4 (c :: s') Hs)]. }
    destruct (startswith (str "false") (c :: s')).
    { injection H as <- <-. split; [exact I|exact (valid_skipn 5 (c :: s') Hs)]. }
    destruct (scan_number (c :: s')) as [[v' r]|] eqn:En.
    { injection H as <- <-. now apply (scan_number_wf (c :: s')). }
    destruct (startswith (str "NaN") (c :: s')).
    { injection H as <- <-. split; [|exact (valid_skipn 3 (c :: s') Hs)].
      apply wf_float_constant. auto. }
    destruct (startswith (str "Infinity") (c :: s')).
    { injection H as <- <-. split; [|exact (valid_skipn 8 (c :: s') Hs)].
      apply wf_float_constant. auto. }
    destruct (startswith (str "-Infinity") (c :: s')); [|discriminate].
    injection H as <- <-. split; [|exact (valid_skipn 9 (c :: s') Hs)].
    apply wf_float_constant. auto.
  - (* parse_array *)
    intros s vs rest Hs H. rewrite parse_array_step in H.
    destruct (scan_once fuel s) as [[v r]|] eqn:Ev; [|discriminate].
    destruct (IHv _ _ _ Hs Ev) as [Hwf Hr].
    pose proof (valid_skip_ws _ Hr) as Hsk.
    destruct (skip_ws r) as [|c r']; [discriminate|].
    pose proof (valid_tail _ _ Hsk) as Hr'.
    destruct (c =? 93).
    { injection H as <- <-. split; [now repeat constructor|exact Hr']. }
    destruct (c =? 44); [|discriminate].
    destruct (parse_array fuel (skip_ws r')) as [[vs' r'']|] eqn:Ea; [|discriminate].
    injection H as <- <-.
    destruct (IHa _ _ _ (valid_skip_ws _ Hr') Ea) as [Hall Hv].
    split; [now constructor|exact Hv].
  - (* parse_object *)
    intros s kvs rest Hs H. destruct s as [|q s']; [discriminate|].
    pose proof (valid_tail _ _ Hs) as Hs'.
    destruct (N.eq_dec q 34) as [->|Hq].
    2:{ cbn [parse_object] in H. apply N.eqb_neq in Hq. rewrite Hq in H. discriminate. }
    rewrite parse_object_step in H.
    destruct (scanstring s') as [[key r]|] eqn:Ek; [|discriminate].
    destruct (scanstring_valid _ _ _ Hs' Ek) as [Hkey Hr].
    pose proof (valid_skip_ws _ Hr) as Hsk.
    destruct (skip_ws r) as [|c r']; [discriminate|].
    pose proof (valid_tail _ _ Hsk) as Hr'.
    destruct (c =? 58); [|discriminate].
    destruct (scan_once fuel (skip_ws r')) as [[v r2]|] eqn:Ev; [|discriminate].
    destruct (IHv _ _ _ (valid_skip_ws _ Hr') Ev) as [Hwf Hr2].
    pose proof (valid_skip_ws _ Hr2) as Hsk2.
    destruct (skip_ws r2) as [|d r3]; [discriminate|].
    pose proof (valid_tail _ _ Hsk2) as Hr3.
    destruct (d =? 125).
    { injection H as <- <-. split; [|exact Hr3].
      constructor; [now split|constructor]. }
    destruct (d =? 44); [|discriminate].
    destruct (parse_object fuel (skip_ws r3)) as [[kvs' r4]|] eqn:Eo; [|discriminate].
    injection H as <- <-.
    destruct (IHo _ _ _ (valid_skip_ws _ Hr3) Eo) as [Hall Hv].
    split; [|exact Hv]. constructor; [now split|exact Hall].
Qed.

(** Every document [json.loads] returns for a text of scalar values is
    well formed. *)
Lemma loads_wf (s : text) (v : value) : valid s -> loads s = Some v -> wf v.
Proof.
  intros Hs H. unfold loads in H.
  destruct (scan_once (2 * List.length s + 2) (skip_ws s)) as [[v' rest]|] eqn:E;
    [|discriminate].
  destruct (skip_ws rest); [|discriminate]. injection H as <-.
  destruct (readers_wf (2 * List.length s + 2)) as (Hv & _ & _).
  now destruct (Hv _ _ _ (valid_skip_ws _ Hs) E).
Qed.


End json_loads_wf.

(* ===================================================================== *)
(** ** Facts about [json]: what the text with sorted keys tells *)
(* ===================================================================== *)

Module json_canonical.
Import Py json Py_facts json_facts json_loads json_wf json_loads_wf.









End json_canonical.

(* ===================================================================== *)
(** ** [update_context.main]: rejected input, the order of the writes *)
(* ===================================================================== *)

Module update_facts.
Import Py json difflib update_context Py_facts difflib_facts.

Definition no_content : outcome :=
  Outcome [PrintErr (str "ERROR: No content provided on stdin")] 1.

Definition invalid_json : outcome :=
  Outcome [PrintErr (str "ERROR: Invalid JSON in new content: ")] 1.



(** The events of an accepted update, behind the warning. *)
Definition applied_events (home now : text) (new_json : value) (diff : list text)
  : list event :=
  [Mkdir;
   Append (changelog_entry now diff);
   OpenWrite;
   Write (dumps false new_json);
   Write [10];
   Print (str "Updated " ++ context_path home);
   Print (str "  +" ++ str_of_nat (additions diff)
          ++ str " -" ++ str_of_nat (deletions diff) ++ str " lines");
   Print (str "Diff appended to " ++ changelog_path home)].

(** The inputs of the examples. *)
Definition example_home : text := str "/home/user".
Definition example_now : text := str "2025-01-01 12:00:00".
Definition no_files : files := Files None None.



(** The three ways [main] ends. *)
Lemma main_cases (home now stdin : text) (fs : files) :
  (strip stdin = [] /\ main home now stdin fs = no_content)
  \/ (strip stdin <> [] /\ loads (strip stdin) = None
      /\ main home now stdin fs = invalid_json)
  \/ (exists new_json,
        loads (strip stdin) = Some new_json /\
        let diff := diff_lines (fst (read_old fs)) new_json in
        (diff = [] /\
         main home now stdin fs
         = Outcome (snd (read_old fs) ++ [Print (str "No changes detected")]) 0)
        \/ (diff <> [] /\
            main home now stdin fs
            = Outcome (snd (read_old fs) ++ applied_events home now new_json diff) 0)).
Proof.
  unfold main. destruct (strip stdin) as [|c s] eqn:Es.
  - left. split; reflexivity.
  - destruct (loads (c :: s)) as [new_json|] eqn:El.
    + right; right. exists new_json. split; [reflexivity|].
      destruct (read_old fs) as [old_json warning]. cbn [fst snd].
      destruct (diff_lines old_json new_json) as [|d ds] eqn:Ed.
      * left. split; reflexivity.
      * right. split; [discriminate|]. reflexivity.
    + right; left. split; [discriminate|]. split; reflexivity.
Qed.








(** C4: when the input does not parse as JSON, [main] prints one line on
    the error channel, exits with status 1, and performs no other event:
    both files are as before. *)
Theorem malformed_input_no_write (home now stdin : text) (fs : files) :
  loads (strip stdin) = None ->
  (exists line, events (main home now stdin fs) = [PrintErr line])
  /\ exit_status (main home now stdin fs) = 1%Z
  /\ run fs (events (main home now stdin fs)) = fs.
Proof.
  intros Hbad.
  destruct (main_cases home now stdin fs)
    as [[_ ->]|[(_ & _ & ->)|(v & Hv & _)]].
  - repeat split. eexists; reflexivity.
  - repeat split. eexists; reflexivity.
  - rewrite Hv in Hbad. discriminate.
Qed.

Lemma malformed_input_no_write_example :
  let stdin := str "not json" in
  loads (strip stdin) = None
  /\ exit_status (main example_home example_now stdin no_files) = 1%Z
  /\ run no_files (events (main example_home example_now stdin no_files)) = no_files.
Proof.
  intros stdin.
  assert (H : loads (strip stdin) = None) by (vm_compute; reflexivity).
  destruct (malformed_input_no_write example_home example_now stdin no_files H)
    as (_ & Hexit & Hrun).
  split; [exact H|]. split; [exact Hexit|exact Hrun].
Defined.





End update_facts.

(* ===================================================================== *)
(** ** [update_context.main]: updates that change nothing, the stored text *)
(* ===================================================================== *)

Module update_idempotence.
Import Py json difflib update_context Py_facts difflib_facts.
Import json_facts json_loads json_wf json_loads_wf update_facts.





Lemma loads_some_nonempty (s : text) (v : value) : loads s = Some v -> s <> [].
Proof. intros H ->. discriminate. Qed.


Lemma main_applied (home now stdin : text) (fs : files) (new_json : value) :
  loads (strip stdin) = Some new_json ->
  diff_lines (fst (read_old fs)) new_json <> [] ->
  main home now stdin fs
  = Outcome (snd (read_old fs)
             ++ applied_events home now new_json
                  (diff_lines (fst (read_old fs)) new_json)) 0.
Proof.
  intros Hv Hd. pose proof (loads_some_nonempty _ _ Hv) as Hne.
  unfold main. rewrite Hv. destruct (strip stdin); [now destruct Hne|].
  destruct (read_old fs) as [old_json warning]. cbn [fst snd] in *.
  destruct (diff_lines old_json new_json); [now destruct Hd|reflexivity].
Qed.



(** Equal canonical texts give an empty diff. *)
Lemma diff_lines_formatted (old_json new_json : value) :
  formatted old_json = formatted new_json -> diff_lines old_json new_json = [].
Proof. intros E. unfold diff_lines. rewrite E. apply unified_diff_same. Qed.








End update_idempotence.

(* ===================================================================== *)
(** ** [update_context.main]: the text of a changelog entry *)
(* ===================================================================== *)

Module update_log_format.
Import Py json difflib update_context Py_facts difflib_facts.
Import update_facts update_idempotence.

(** The lines in front of the diff: an empty line, the separator, the
    time, the separator. *)
Definition entry_head (now : text) : text :=
  [10] ++ separator ++ [10] ++ str "# " ++ now ++ [10] ++ separator ++ [10].

(** The two file headers and the start of the first hunk header, with
    nothing between them. *)
Definition joined_headers : text :=
  str "--- claude_context.json.old+++ claude_context.json.new@@ -".

Lemma concat_cons (x : text) (l : list text) : Py.concat (x :: l) = x ++ Py.concat l.
Proof. reflexivity. Qed.

Lemma entry_of_lines (now a b c : text) (rest : list text) :
  changelog_entry now (a :: b :: c :: rest)
  = entry_head now ++ a ++ b ++ c ++ Py.concat rest ++ [10].
Proof.
  unfold changelog_entry. fold (entry_head now). rewrite !concat_cons.
  now rewrite <- !app_assoc.
Qed.

(** C9: the entry of an accepted update is an empty line, the separator
    line, the time line, the separator line, the diff and a line feed.
    [unified_diff] is called with [lineterm=''], so its two file headers
    and its hunk headers end in no line feed, and [''.join] puts them in
    front of what follows: the diff part of every entry starts with
    [--- claude_context.json.old+++ claude_context.json.new@@ -] on one
    line. *)
Theorem changelog_entry_headers_on_one_line
  (home now stdin : text) (fs : files) (new_json : value) :
  loads (strip stdin) = Some new_json ->
  let diff := diff_lines (fst (read_old fs)) new_json in
  diff <> [] ->
  In (Append (changelog_entry now diff)) (events (main home now stdin fs))
  /\ exists body,
       changelog_entry now diff = entry_head now ++ joined_headers ++ body ++ [10].
Proof.
  intros Hv diff Hd. split.
  - rewrite (main_applied home now stdin fs new_json Hv Hd). cbn [events].
    apply in_or_app. right. right. left. reflexivity.
  - subst diff. unfold diff_lines in *.
    destruct (unified_diff_headers _ _ _ _ _ Hd) as (group & groups & _ & E).
    rewrite E. unfold hunk at 1. cbv zeta. cbn [app].
    match goal with
    | |- context [(str "@@ -" ++ ?r) :: ?l] => exists (r ++ Py.concat l)
    end.
    rewrite entry_of_lines.
    change joined_headers
      with ((str "--- " ++ str "claude_context.json.old" ++ [])
            ++ (str "+++ " ++ str "claude_context.json.new" ++ []) ++ str "@@ -").
    rewrite <- !app_assoc. reflexivity.
Qed.

Lemma changelog_entry_headers_on_one_line_example :
  let stdin := jstr "{'a': 1}" in
  let new_json := JDict [(str "a", JInt 1)] in
  let diff := diff_lines (fst (read_old no_files)) new_json in
  loads (strip stdin) = Some new_json
  /\ diff <> []
  /\ In (Append (changelog_entry example_now diff))
        (events (main example_home example_now stdin no_files))
  /\ exists body,
       changelog_entry example_now diff
       = entry_head example_now ++ joined_headers ++ body ++ [10].
Proof.
  intros stdin new_json diff.
  assert (Hv : loads (strip stdin) = Some new_json) by (vm_compute; reflexivity).
  assert (Hd : diff <> []) by (vm_compute; discriminate).
  split; [exact Hv|]. split; [exact Hd|].
  exact (changelog_entry_headers_on_one_line
           example_home example_now stdin no_files new_json Hv Hd).
Defined.

(** The whole entry of that update: the first line of its diff holds both
    file headers, the hunk header and the deleted line. *)
Example changelog_entry_first_update :
  changelog_entry example_now
    (diff_lines (fst (read_old no_files)) (JDict [(str "a", JInt 1)]))
  = entry_head example_now
    ++ str "--- claude_context.json.old+++ claude_context.json.new@@ -1 +1,3 @@-{}"
    ++ [10] ++ str "+{"
    ++ [10] ++ jstr "+  'a': 1"
    ++ [10] ++ str "+}"
    ++ [10] ++ [10].
Proof. vm_compute. reflexivity. Qed.

End update_log_format.

(* ===================================================================== *)
(** ** [update_context.main]: when an update is applied *)
(* ===================================================================== *)

Module update_sound.
Import Py json difflib update_context Py_facts difflib_facts difflib_sound.
Import json_facts json_loads json_wf json_loads_wf json_canonical.
Import update_facts update_idempotence.

Definition warning : event :=
  PrintErr (str "WARNING: Current context file is invalid JSON, will be overwritten").









(** X5: a context file that does not parse is read as the empty dict.
    The run is the run on a machine without context file, behind one
    warning that the file "will be overwritten".  When the new document is
    the empty dict the diff is empty all the same: [main] ends with "No
    changes detected" and the file that does not parse stays as it is. *)
Theorem corrupt_store_read_as_empty
  (home now stdin old_content : text) (log : option text) (new_json : value) :
  loads old_content = None ->
  loads (strip stdin) = Some new_json ->
  let fs := Files (Some old_content) log in
  let out := main home now stdin fs in
  events out = warning :: events (main home now stdin (Files None log))
  /\ exit_status out = 0%Z
  /\ (new_json = JDict [] ->
      events out = [warning; Print (str "No changes detected")]
      /\ run fs (events out) = fs).
Proof.
  intros Hold Hv fs out. subst fs out.
  pose proof (loads_some_nonempty _ _ Hv) as Hne.
  assert (E : forall c, read_old (Files c log)
                        = match c with
                          | Some old => match loads old with
                                        | Some v => (v, [])
                                        | None => (JDict [], [warning])
                                        end
                          | None => (JDict [], [])
                          end).
  { intros [old|]; unfold read_old; cbn [context_file]; [|reflexivity].
    destruct (loads old); reflexivity. }
  unfold main. rewrite Hv. destruct (strip stdin) as [|c s]; [now destruct Hne|].
  rewrite !E, Hold.
  destruct (diff_lines (JDict []) new_json) as [|line diff] eqn:Hd.
  - split; [reflexivity|]. split; [reflexivity|]. intros _. split; reflexivity.
  - split; [reflexivity|]. split; [reflexivity|]. intros ->.
    rewrite (diff_lines_formatted (JDict []) (JDict []) eq_refl) in Hd. discriminate.
Qed.

Lemma corrupt_store_read_as_empty_example :
  let old_content := str "{broken" in
  let stdin := str "{}" in
  let fs := Files (Some old_content) None in
  loads old_content = None
  /\ loads (strip stdin) = Some (JDict [])
  /\ events (main example_home example_now stdin fs)
     = [warning; Print (str "No changes detected")]
  /\ run fs (events (main example_home example_now stdin fs)) = fs.
Proof.
  intros old_content stdin fs.
  assert (H1 : loads old_content = None) by (vm_compute; reflexivity).
  assert (H2 : loads (strip stdin) = Some (JDict [])) by (vm_compute; reflexivity).
  split; [exact H1|]. split; [exact H2|].
  destruct (corrupt_store_read_as_empty example_home example_now stdin old_content None
              (JDict []) H1 H2) as (_ & _ & H).
  exact (H eq_refl).
Defined.



End update_sound.

(* ===================================================================== *)
(** ** [scanner]: what [run_command] absorbs, what the extractors raise *)
(* ===================================================================== *)

Module scanner_facts.
Import Py json builtins scanner Py_facts.

(** *** Example machines *)

Definition command_eqb (c d : command) : bool :=
  match c, d with
  | Argv a, Argv b =>
      (List.length a =? List.length b)%nat
      && forallb (fun p => text_eqb (fst p) (snd p)) (combine a b)
  | Shell a, Shell b => text_eqb a b
  | _, _ => false
  end.

Definition lines (l : list text) : text := join [10] l.

(** A Linux machine on which the commands of [outputs] print what stands
    next to them and exit with status 0, every other command is missing,
    and [~/.ssh] does not exist. *)
Definition linux_with (tools : list text) (outputs : list (command * text)) : world :=
  World (str "Linux") (str "box")
        (fun tool => existsb (text_eqb tool) tools)
        (fun cmd =>
           match find (fun entry => command_eqb cmd (fst entry)) outputs with
           | Some entry => Completed 0 (snd entry)
           | None => Failed FileNotFoundError
           end)
        None.

(** A machine of the system [system] on which every command ends as
    [outcome] says. *)
Definition uniform (system : string) (outcome : process) : world :=
  World (str system) (str "box") (fun _ => false) (fun _ => outcome) None.

Definition cat_meminfo : command := Argv [str "cat"; str "/proc/meminfo"].
Definition lspci_nn : command := Argv [str "lspci"; str "-nn"].

(** [/proc/meminfo] with a total that is not a number. *)
Definition bad_meminfo : world :=
  linux_with []
    [(cat_meminfo, lines [str "MemTotal:       unknown kB"; str "MemFree:         1024 kB"])].

(** Two Intel adapters of one kind, as [lspci -nn] lists them. *)
Definition two_intel : world :=
  linux_with []
    [(lspci_nn,
      lines [str "03:00.0 VGA compatible controller [0300]: Intel Corporation DG2 [Arc A770] [8086:56a0]";
             str "04:00.0 VGA compatible controller [0300]: Intel Corporation DG2 [Arc A770] [8086:56a0]"])].

(** *** [run_command] *)

Lemma run_command_completed (w : world) (cmd : command) (returncode : Z) (stdout : text) :
  subprocess_run w cmd = Completed returncode stdout ->
  run_command w cmd = Ok (strip stdout).
Proof. intros E. unfold run_command. now rewrite E. Qed.

Lemma run_command_failed (w : world) (cmd : command) (e : exn) :
  subprocess_run w cmd = Failed e ->
  run_command w cmd
  = if isinstance e SubprocessError || isinstance e FileNotFoundError
    then Ok [] else Raise e.
Proof.
  intros E. unfold run_command. rewrite E. destruct e; reflexivity.
Qed.

(** X1: [run_command] gives the trimmed output of a process that ran, whatever
    its exit status, and the empty text when the process could not be
    found, ran out of time or failed with a [SubprocessError]. *)
Theorem run_command_absorbs (w : world) (cmd : command) :
  (forall returncode stdout,
      subprocess_run w cmd = Completed returncode stdout ->
      run_command w cmd = Ok (strip stdout))
  /\ (forall e,
         subprocess_run w cmd = Failed e ->
         In e [FileNotFoundError; TimeoutExpired; SubprocessError; CalledProcessError] ->
         run_command w cmd = Ok []).
Proof.
  split.
  - apply run_command_completed.
  - intros e E Hin. rewrite (run_command_failed w cmd e E).
    cbn [In] in Hin. destruct Hin as [<-|[<-|[<-|[<-|[]]]]]; reflexivity.
Qed.

(** C6: [run_command] handles [TimeoutExpired], [SubprocessError] and
    [FileNotFoundError] only.  Any other exception of [subprocess.run]
    (a [PermissionError] for a file that may not be executed, another
    [OSError], a [UnicodeDecodeError] for output that is not text) leaves
    [run_command] as it came, where the docstring promises the empty
    text. *)
Theorem run_command_lets_other_errors_through (w : world) (cmd : command) (e : exn) :
  subprocess_run w cmd = Failed e ->
  isinstance e SubprocessError = false ->
  isinstance e FileNotFoundError = false ->
  run_command w cmd = Raise e.
Proof.
  intros E H1 H2. rewrite (run_command_failed w cmd e E). now rewrite H1, H2.
Qed.

Lemma run_command_lets_other_errors_through_example :
  let w := uniform "Linux" (Failed PermissionError) in
  subprocess_run w (Argv [str "lscpu"]) = Failed PermissionError
  /\ run_command w (Argv [str "lscpu"]) = Raise PermissionError
  /\ scan_cpu w = Raise PermissionError.
Proof.
  intros w.
  assert (H : run_command w (Argv [str "lscpu"]) = Raise PermissionError).
  { apply (run_command_lets_other_errors_through w (Argv [str "lscpu"]) PermissionError);
      reflexivity. }
  split; [reflexivity|]. split; [exact H|].
  unfold scan_cpu. change (on w "linux") with true. cbv iota. now rewrite H.
Defined.

(** *** [scan_memory] *)

Lemma meminfo_lines_app (lines1 lines2 : list text) :
  forallb (fun l => negb (startswith (str "MemTotal:") l)) lines1 = true ->
  meminfo_lines (lines1 ++ lines2) = meminfo_lines lines2.
Proof.
  induction lines1 as [|l lines1 IH]; intros H; [reflexivity|].
  cbn [forallb] in H. apply andb_prop in H. destruct H as [Hl H].
  cbn [app meminfo_lines]. apply negb_true_iff in Hl. rewrite Hl. now apply IH.
Qed.

Lemma scan_memory_linux (w : world) (meminfo : text) :
  on w "linux" = true ->
  run_command w cat_meminfo = Ok meminfo ->
  scan_memory w = meminfo_lines (split 10 meminfo).
Proof.
  intros Hl Hrun. unfold scan_memory. rewrite Hl.
  fold cat_meminfo. now rewrite Hrun.
Qed.

(** C7: [scan_memory] on Linux has no handler around [int(line.split()[1])].
    When the first line of [/proc/meminfo] that starts with [MemTotal:]
    has a second word that is not a number, the [ValueError] of [int]
    leaves [scan_memory]: no record is returned, where [scan_cpu] catches
    the same error line by line. *)
Theorem scan_memory_malformed_total_raises
  (w : world) (meminfo : text) (lines1 lines2 : list text) (line field : text) :
  on w "linux" = true ->
  run_command w cat_meminfo = Ok meminfo ->
  split 10 meminfo = lines1 ++ line :: lines2 ->
  forallb (fun l => negb (startswith (str "MemTotal:") l)) lines1 = true ->
  startswith (str "MemTotal:") line = true ->
  nth_error (split_whitespace line) 1 = Some field ->
  int field = Raise ValueError ->
  scan_memory w = Raise ValueError.
Proof.
  intros Hl Hrun Hsplit Hbefore Hline Hfield Hint.
  rewrite (scan_memory_linux w meminfo Hl Hrun), Hsplit.
  rewrite (meminfo_lines_app lines1 _ Hbefore).
  cbn [meminfo_lines]. rewrite Hline. unfold item. rewrite Hfield.
  cbn [bind]. now rewrite Hint.
Qed.

Lemma scan_memory_malformed_total_raises_example :
  run_command bad_meminfo cat_meminfo
  = Ok (lines [str "MemTotal:       unknown kB"; str "MemFree:         1024 kB"])
  /\ int (str "unknown") = Raise ValueError
  /\ scan_memory bad_meminfo = Raise ValueError.
Proof.
  assert (Hrun : run_command bad_meminfo cat_meminfo
                 = Ok (lines [str "MemTotal:       unknown kB"; str "MemFree:         1024 kB"]))
    by (vm_compute; reflexivity).
  assert (Hint : int (str "unknown") = Raise ValueError) by (vm_compute; reflexivity).
  split; [exact Hrun|]. split; [exact Hint|].
  apply (scan_memory_malformed_total_raises
           bad_meminfo
           (lines [str "MemTotal:       unknown kB"; str "MemFree:         1024 kB"])
           [] [str "MemFree:         1024 kB"]
           (str "MemTotal:       unknown kB") (str "unknown")).
  - reflexivity.
  - exact Hrun.
  - vm_compute. reflexivity.
  - reflexivity.
  - reflexivity.
  - vm_compute. reflexivity.
  - exact Hint.
Defined.

(** A [MemTotal:] line with nothing behind it ends [scan_memory] with an
    [IndexError]. *)
Example scan_memory_no_total :
  scan_memory (linux_with [] [(cat_meminfo, str "MemTotal:")]) = Raise IndexError.
Proof. vm_compute. reflexivity. Qed.

(** *** [scan_cpu] *)

Definition lscpu : command := Argv [str "lscpu"].

Definition cpu_keys : list text := [str "model"; str "cores"; str "threads"].

(** [lscpu] with a count that is not a number and a line without a value. *)
Definition odd_lscpu : world :=
  linux_with []
    [(lscpu, lines [str "Model name:          Example CPU";
                    str "CPU(s):              many";
                    str "Core(s) per socket:  4";
                    str "Socket(s):"])].

Lemma int_cases (s : text) : (exists z, int s = Ok z) \/ int s = Raise ValueError.
Proof.
  unfold int.
  destruct (match strip s with
            | [] => None
            | c :: t =>
                if c =? 45 then option_map Z.opp (int_digits 0 false t)
                else if c =? 43 then int_digits 0 false t
                else int_digits 0 false (c :: t)
            end) as [z|]; [left; now exists z|now right].
Qed.

Lemma after_colon_cases (line : text) :
  (exists field, after_colon line = Ok field) \/ after_colon line = Raise IndexError.
Proof.
  unfold after_colon, item.
  destruct (nth_error (split_once 58 line) 1) as [field|];
    [left; eexists; reflexivity|now right].
Qed.

Lemma dict_set_present (k : text) (v : value) (d : list (text * value)) :
  In k (map fst d) -> map fst (dict_set k v d) = map fst d.
Proof.
  induction d as [|kv d IH]; intros Hin; [destruct Hin|].
  cbn [dict_set]. destruct (text_eqb k (fst kv)) eqn:E.
  - apply text_eqb_eq in E. cbn [map fst]. now rewrite E.
  - cbn [map]. f_equal. apply IH. destruct Hin as [Heq|Hin]; [|exact Hin].
    rewrite Heq, text_eqb_refl in E. discriminate.
Qed.

(** A line of [lscpu] never ends the loop, and leaves the three fields in
    place. *)
Lemma cpu_line_returns (st : cpu_state) (line : text) :
  map fst (info st) = cpu_keys ->
  exists st', cpu_line st line = Ok st' /\ map fst (info st') = cpu_keys.
Proof.
  intros Hkeys.
  assert (Hset : forall key v, In key cpu_keys ->
                               map fst (dict_set key v (info st)) = cpu_keys).
  { intros key v Hin. rewrite dict_set_present; [exact Hkeys|now rewrite Hkeys]. }
  unfold cpu_line.
  destruct (startswith (str "Model name:") line).
  { destruct (after_colon_cases line) as [[field ->]| ->]; cbn.
    - eexists. split; [reflexivity|]. apply Hset. cbn. auto.
    - now exists st. }
  destruct (startswith (str "CPU(s):") line).
  { destruct (after_colon_cases line) as [[field ->]| ->]; cbn [bind try_except].
    - destruct (int_cases field) as [[z ->]| ->]; cbn.
      + eexists. split; [reflexivity|]. apply Hset. cbn. auto.
      + now exists st.
    - now exists st. }
  destruct (startswith (str "Core(s) per socket:") line).
  { destruct (after_colon_cases line) as [[field ->]| ->]; cbn [bind try_except].
    - destruct (int_cases field) as [[z ->]| ->]; cbn.
      + eexists. split; [reflexivity|exact Hkeys].
      + now exists st.
    - now exists st. }
  destruct (startswith (str "Socket(s):") line).
  { destruct (after_colon_cases line) as [[field ->]| ->]; cbn [bind try_except].
    - destruct (int_cases field) as [[z ->]| ->]; cbn.
      + eexists. split; [reflexivity|exact Hkeys].
      + now exists st.
    - now exists st. }
  now exists st.
Qed.

Lemma cpu_lines_return (listing : list text) (st : cpu_state) :
  map fst (info st) = cpu_keys ->
  exists st', for_each cpu_line listing st = Ok st' /\ map fst (info st') = cpu_keys.
Proof.
  revert st. induction listing as [|line listing IH]; intros st Hkeys.
  - now exists st.
  - cbn [for_each].
    destruct (cpu_line_returns st line Hkeys) as (st1 & -> & Hkeys1). cbn [bind].
    now apply IH.
Qed.

(** X2: on Linux [scan_cpu] returns its record, with the three fields, for
    every output of [lscpu]: a line it cannot read changes nothing. *)
Theorem scan_cpu_linux_returns (w : world) (output : text) :
  on w "linux" = true ->
  run_command w lscpu = Ok output ->
  exists cpu_info, scan_cpu w = Ok (JDict cpu_info) /\ map fst cpu_info = cpu_keys.
Proof.
  intros Hl Hrun. unfold scan_cpu. rewrite Hl. fold lscpu. rewrite Hrun. cbn [bind].
  destruct (cpu_lines_return (split 10 output)
              (CpuState [(str "model", JStr (str "Unknown")); (str "cores", JInt 0);
                         (str "threads", JInt 0)] None None) eq_refl)
    as (st & -> & Hkeys).
  cbn [bind].
  destruct (cores_per st) as [c|]; [|now exists (info st)].
  destruct (sockets st) as [n|]; [|now exists (info st)].
  destruct (negb (c =? 0)%Z && negb (n =? 0)%Z); [|now exists (info st)].
  eexists. split; [reflexivity|].
  rewrite dict_set_present; [exact Hkeys|]. rewrite Hkeys. cbn. auto.
Qed.

Lemma scan_cpu_linux_returns_example :
  on odd_lscpu "linux" = true
  /\ scan_cpu odd_lscpu
     = Ok (JDict [(str "model", JStr (str "Example CPU")); (str "cores", JInt 0);
                  (str "threads", JInt 0)])
  /\ exists cpu_info,
       scan_cpu odd_lscpu = Ok (JDict cpu_info) /\ map fst cpu_info = cpu_keys.
Proof.
  split; [reflexivity|]. split; [vm_compute; reflexivity|].
  apply (scan_cpu_linux_returns odd_lscpu
           (lines [str "Model name:          Example CPU";
                   str "CPU(s):              many";
                   str "Core(s) per socket:  4";
                   str "Socket(s):"]));
    vm_compute; reflexivity.
Defined.

(** *** [scan_all] *)

















(** *** The [lspci] part of [scan_gpus] *)

(** [g.get(key, "")] of a record whose value there is a [str]. *)
Definition field (key : string) (g : value) : text :=
  match g with
  | JDict items =>
      match lookup (str key) items with
      | Some (JStr s) => s
      | _ => []
      end
  | _ => []
  end.

Definition str_or_absent (key : string) (items : list (text * value)) : bool :=
  match lookup (str key) items with
  | Some (JStr _) | None => true
  | Some _ => false
  end.

(** A record as [nvidia_line] and [lspci_line] build them: a dict whose
    vendor and model are [str]. *)
Definition typed (g : value) : bool :=
  match g with
  | JDict items => str_or_absent "vendor" items && str_or_absent "model" items
  | _ => false
  end.

(** The test of line 188 on the records of [gpus]: one of them has [AMD]
    in its vendor and a model in which [model] occurs. *)
Definition suppressed_by (gpus : list value) (model : text) : bool :=
  existsb (fun g => contains (str "AMD") (field "vendor" g)
                    && contains model (field "model" g))
          gpus.

Definition model_of (line : text) (default : string) : text :=
  match search_model line with Some m => m | None => str default end.

Definition is_display (line : text) : bool :=
  contains (str "VGA") line || contains (str "3D controller") line.

Definition is_amd (line : text) : bool :=
  contains (str "AMD") line || contains (str "ATI") line || contains (str "Radeon") line.

(** What one line of [lspci -nn] adds to [gpus]. *)
Definition added_by (gpus : list value) (line : text) : list value :=
  if is_display line then
    if is_amd line then
      if suppressed_by gpus (model_of line "AMD GPU") then []
      else [lspci_record "AMD" (model_of line "AMD GPU")]
    else if contains (str "Intel") line then [lspci_record "Intel" (model_of line "Intel GPU")]
    else []
  else [].

(** A record of the fallback: vendor AMD or Intel, source [lspci]. *)
Definition from_lspci (g : value) : Prop :=
  exists model, g = lspci_record "AMD" model \/ g = lspci_record "Intel" model.

Lemma any_pure {A : Type} (test : A -> result bool) (f : A -> bool) (l : list A) :
  Forall (fun x => test x = Ok (f x)) l -> any test l = Ok (existsb f l).
Proof.
  induction 1 as [|x l Hx _ IH]; [reflexivity|].
  cbn [any existsb]. rewrite Hx. cbn [bind]. destruct (f x); [reflexivity|exact IH].
Qed.

Lemma amd_with_model_typed (model : text) (g : value) :
  typed g = true ->
  amd_with_model model g
  = Ok (contains (str "AMD") (field "vendor" g) && contains model (field "model" g)).
Proof.
  destruct g as [ | | | | |items|items]; try discriminate.
  unfold typed, str_or_absent, amd_with_model, py_get, field.
  intros H. apply andb_prop in H. destruct H as [Hv Hm].
  destruct (lookup (str "vendor") items) as [[ | | | |vendor| | ]|];
    try discriminate; cbn [bind py_in];
    (destruct (contains (str "AMD") _); [|reflexivity]);
    destruct (lookup (str "model") items) as [[ | | | |known| | ]|];
    try discriminate; reflexivity.
Qed.

Lemma typed_lspci_record (vendor : string) (model : text) :
  typed (lspci_record vendor model) = true.
Proof. reflexivity. Qed.

Lemma forallb_typed_app (gpus added : list value) :
  forallb typed gpus = true -> forallb typed added = true ->
  forallb typed (gpus ++ added) = true.
Proof. intros H1 H2. rewrite forallb_app. now rewrite H1, H2. Qed.

Lemma added_by_typed (gpus : list value) (line : text) :
  forallb typed (added_by gpus line) = true.
Proof.
  unfold added_by.
  destruct (is_display line); [|reflexivity].
  destruct (is_amd line).
  - destruct (suppressed_by gpus _); reflexivity.
  - destruct (contains (str "Intel") line); reflexivity.
Qed.

Lemma added_by_from_lspci (gpus : list value) (line : text) :
  Forall from_lspci (added_by gpus line).
Proof.
  unfold added_by.
  destruct (is_display line); [|constructor].
  destruct (is_amd line).
  - destruct (suppressed_by gpus _); repeat constructor.
    eexists; left; reflexivity.
  - destruct (contains (str "Intel") line); repeat constructor.
    eexists; right; reflexivity.
Qed.

(** One line of the listing leaves the records it finds as they are and
    adds what [added_by] says. *)
Lemma lspci_line_adds (gpus : list value) (line : text) :
  forallb typed gpus = true ->
  lspci_line gpus line = Ok (gpus ++ added_by gpus line).
Proof.
  intros Htyped. unfold lspci_line, added_by.
  fold (is_display line). fold (is_amd line).
  destruct (is_display line); [|now rewrite app_nil_r].
  destruct (is_amd line).
  - fold (model_of line "AMD GPU").
    rewrite (any_pure _ (fun g => contains (str "AMD") (field "vendor" g)
                                  && contains (model_of line "AMD GPU") (field "model" g))).
    + cbn [bind]. fold (suppressed_by gpus (model_of line "AMD GPU")).
      destruct (suppressed_by gpus _); [now rewrite app_nil_r|reflexivity].
    + apply Forall_forall. intros g Hin. apply amd_with_model_typed.
      rewrite forallb_forall in Htyped. now apply Htyped.
  - destruct (contains (str "Intel") line); [reflexivity|now rewrite app_nil_r].
Qed.

(** The whole listing: the records found stay in front, in their order. *)
Lemma lspci_lines_add (listing : list text) (gpus : list value) :
  forallb typed gpus = true ->
  exists added,
    for_each lspci_line listing gpus = Ok (gpus ++ added)
    /\ Forall from_lspci added.
Proof.
  revert gpus. induction listing as [|line listing IH]; intros gpus Htyped.
  - exists []. split; [cbn; now rewrite app_nil_r|constructor].
  - cbn [for_each]. rewrite (lspci_line_adds gpus line Htyped). cbn [bind].
    destruct (IH (gpus ++ added_by gpus line)) as (added & E & Hall).
    { apply forallb_typed_app; [exact Htyped|apply added_by_typed]. }
    exists (added_by gpus line ++ added). split.
    + rewrite E. now rewrite app_assoc.
    + apply Forall_app. split; [apply added_by_from_lspci|exact Hall].
Qed.

(** C5, as the code has it.  The [lspci] part runs on Linux only, and
    only when no record so far has the vendor AMD: next to a record of
    [rocm-smi] nothing is read from the bus listing, Intel adapters
    included.  When it runs, a line for an AMD adapter is left out exactly
    when a record already in the list has [AMD] in its vendor and a model
    in which the model of the line occurs (this one direction only); a
    line for an Intel adapter always adds its record.  The records found
    before stay as they are, in front; each record added has the source
    [lspci]. *)
Theorem lspci_fallback_rule (w : world) (gpus : list value) :
  forallb typed gpus = true ->
  (on w "linux" = false -> lspci w gpus = Ok gpus)
  /\ (has_amd gpus = Ok true -> lspci w gpus = Ok gpus)
  /\ (forall line, lspci_line gpus line = Ok (gpus ++ added_by gpus line))
  /\ (forall listing,
         on w "linux" = true -> has_amd gpus = Ok false ->
         run_command w lspci_nn = Ok listing ->
         exists added,
           lspci w gpus = Ok (gpus ++ added) /\ Forall from_lspci added).
Proof.
  intros Htyped. split; [|split; [|split]].
  - intros H. unfold lspci. now rewrite H.
  - intros H. unfold lspci. rewrite H. now destruct (on w "linux").
  - intros line. now apply lspci_line_adds.
  - intros listing Hl Hamd Hrun. unfold lspci. rewrite Hl, Hamd. cbn [bind].
    fold lspci_nn. rewrite Hrun. cbn [bind].
    now apply lspci_lines_add.
Qed.

Definition rtx_3090 : value :=
  JDict [(str "vendor", JStr (str "NVIDIA"));
         (str "index", JInt 0);
         (str "model", JStr (str "NVIDIA GeForce RTX 3090"));
         (str "vram_mb", JInt 24576);
         (str "pcie_bus", JStr (str "00000000:01:00.0"));
         (str "uuid", JStr (str "GPU-0"))].

Lemma lspci_fallback_rule_example :
  forallb typed [rtx_3090] = true
  /\ exists added,
       lspci two_intel [rtx_3090] = Ok ([rtx_3090] ++ added)
       /\ Forall from_lspci added.
Proof.
  assert (H : forallb typed [rtx_3090] = true) by reflexivity.
  split; [exact H|].
  destruct (lspci_fallback_rule two_intel [rtx_3090] H) as (_ & _ & _ & Hrun).
  apply (Hrun (lines [str "03:00.0 VGA compatible controller [0300]: Intel Corporation DG2 [Arc A770] [8086:56a0]";
                      str "04:00.0 VGA compatible controller [0300]: Intel Corporation DG2 [Arc A770] [8086:56a0]"]));
    vm_compute; reflexivity.
Defined.

(** Two adapters of one kind give two records with the same vendor and
    model; and an AMD line whose model holds the model of a record in the
    list (not the other way round) is added all the same. *)
Lemma lspci_repeats_vendor_and_model :
  scan_gpus two_intel
  = Ok [lspci_record "Intel" (str "00.0 VGA compatible controller");
        lspci_record "Intel" (str "00.0 VGA compatible controller")]
  /\ lspci_line [lspci_record "AMD" (str "Radeon")] (str "VGA: Radeon Pro [1002:0001]")
     = Ok [lspci_record "AMD" (str "Radeon"); lspci_record "AMD" (str "Radeon Pro")]
  /\ lspci_line [lspci_record "AMD" (str "Radeon Pro")] (str "VGA: Radeon [1002:0001]")
     = Ok [lspci_record "AMD" (str "Radeon Pro")].
Proof. repeat split; vm_compute; reflexivity. Qed.

End scanner_facts.

(* ===================================================================== *)
(** ** [scanner]: the output of a probe, the model of an adapter, the
       extractors line by line *)
(* ===================================================================== *)

Module scanner_more.
Import Py json builtins scanner Py_facts scanner_facts.

(** *** [strip] *)

(** No whitespace at the start of [t], none at its end. *)
Definition trimmed (t : text) : Prop :=
  match t with [] => True | c :: _ => isspace c = false end
  /\ match rev t with [] => True | c :: _ => isspace c = false end.

Lemma lstrip_head (s : text) :
  match lstrip s with [] => True | c :: _ => isspace c = false end.
Proof.
  induction s as [|c s IH]; [exact I|].
  cbn [lstrip]. destruct (isspace c) eqn:E; [exact IH|exact E].
Qed.

Lemma lstrip_clean (t : text) :
  match t with [] => True | c :: _ => isspace c = false end -> lstrip t = t.
Proof. destruct t as [|c t]; [reflexivity|]. cbn [lstrip]. now intros ->. Qed.

Lemma lstrip_snoc (s : text) (c : char) :
  isspace c = false -> lstrip (s ++ [c]) = lstrip s ++ [c].
Proof.
  intros Hc. induction s as [|d s IH].
  - cbn [app lstrip]. now rewrite Hc.
  - cbn [app lstrip]. destruct (isspace d); [exact IH|reflexivity].
Qed.

Lemma strip_trimmed (s : text) : trimmed (strip s).
Proof.
  unfold strip, rstrip. pose proof (lstrip_head s) as Hhead.
  destruct (lstrip s) as [|c u]; [split; exact I|].
  cbn [rev]. rewrite (lstrip_snoc (rev u) c Hhead).
  split.
  - rewrite rev_app_distr. exact Hhead.
  - rewrite rev_involutive. rewrite <- (lstrip_snoc (rev u) c Hhead).
    apply lstrip_head.
Qed.

Lemma strip_of_trimmed (t : text) : trimmed t -> strip t = t.
Proof.
  intros [Hstart Hend]. unfold strip, rstrip.
  rewrite (lstrip_clean t Hstart), (lstrip_clean (rev t) Hend).
  apply rev_involutive.
Qed.

(** X7: what [run_command] returns has no whitespace at either end, so
    stripping it again changes nothing; and it returns the empty text for
    a process that prints whitespace only. *)
Theorem run_command_trimmed (w : world) (cmd : command) (output : text) :
  run_command w cmd = Ok output ->
  trimmed output /\ strip output = output
  /\ (forall returncode stdout,
         subprocess_run w cmd = Completed returncode stdout ->
         forallb isspace stdout = true -> output = []).
Proof.
  intros H.
  assert (Ht : trimmed output).
  { unfold run_command in H. destruct (subprocess_run w cmd) as [rc stdout|e].
    - injection H as <-. apply strip_trimmed.
    - destruct (existsb _ _); [injection H as <-; split; exact I|discriminate]. }
  split; [exact Ht|]. split; [now apply strip_of_trimmed|].
  intros rc stdout E Hspace. rewrite (run_command_completed w cmd rc stdout E) in H.
  injection H as <-. now apply strip_space.
Qed.

Lemma run_command_trimmed_example :
  let w := uniform "Linux" (Completed 1 (str "  8 cores" ++ [10])) in
  run_command w lscpu = Ok (str "8 cores")
  /\ trimmed (str "8 cores").
Proof.
  intros w.
  assert (H : run_command w lscpu = Ok (str "8 cores")) by (vm_compute; reflexivity).
  split; [exact H|]. exact (proj1 (run_command_trimmed w lscpu (str "8 cores") H)).
Defined.

(** *** [re.search(r":\s*(.+?)\s*\[", line)] *)

Definition no_space_at_end (m : text) : Prop :=
  match rev m with [] => False | c :: _ => isspace c = false end.

Lemma no_space_at_end_tail (c d : char) (m : text) :
  no_space_at_end (c :: d :: m) -> no_space_at_end (d :: m).
Proof.
  unfold no_space_at_end. cbn [rev].
  destruct (rev m ++ [d]) as [|x r] eqn:E; [now destruct (rev m)|].
  cbn [app]. auto.
Qed.

Lemma ws_bracket_spaces (ws rest : text) :
  forallb isspace ws = true -> ws_bracket (ws ++ 91 :: rest) = true.
Proof.
  induction ws as [|c ws IH]; intros H; [reflexivity|].
  cbn [forallb] in H. apply andb_prop in H. destruct H as [Hc Hws].
  cbn [app ws_bracket]. rewrite Hc, (IH Hws). apply orb_true_r.
Qed.

Lemma ws_bracket_word (m rest : text) :
  forallb (fun c => negb (c =? 91)) m = true -> no_space_at_end m ->
  ws_bracket (m ++ rest) = false.
Proof.
  induction m as [|c m IH]; intros Hm Hend; [destruct Hend|].
  cbn [forallb] in Hm. apply andb_prop in Hm. destruct Hm as [Hc Hm].
  apply negb_true_iff in Hc. cbn [app ws_bracket]. rewrite Hc. cbn [orb].
  destruct m as [|d m].
  - unfold no_space_at_end in Hend. cbn in Hend. now rewrite Hend.
  - rewrite IH; [apply andb_false_r|exact Hm|now apply (no_space_at_end_tail c)].
Qed.

Lemma lazy_group_word (m ws rest : text) :
  forallb (fun c => negb (c =? 91) && negb (c =? 10)) m = true ->
  no_space_at_end m -> forallb isspace ws = true ->
  lazy_group (m ++ ws ++ 91 :: rest) = Some m.
Proof.
  induction m as [|c m IH]; intros Hm Hend Hws; [destruct Hend|].
  cbn [forallb] in Hm. apply andb_prop in Hm. destruct Hm as [Hc Hm].
  apply andb_prop in Hc. destruct Hc as [_ Hc]. apply negb_true_iff in Hc.
  cbn [app lazy_group]. rewrite Hc.
  destruct m as [|d m].
  - cbn [app]. now rewrite ws_bracket_spaces.
  - rewrite ws_bracket_word.
    + rewrite IH; [reflexivity|exact Hm|now apply (no_space_at_end_tail c)|exact Hws].
    + rewrite forallb_forall in Hm. apply forallb_forall. intros x Hx.
      specialize (Hm x Hx). now apply andb_prop in Hm.
    + now apply (no_space_at_end_tail c).
Qed.

Lemma after_sep_word (ws0 m ws rest : text) :
  forallb isspace ws0 = true ->
  match m with [] => False | c :: _ => isspace c = false end ->
  forallb (fun c => negb (c =? 91) && negb (c =? 10)) m = true ->
  no_space_at_end m -> forallb isspace ws = true ->
  after_sep (ws0 ++ m ++ ws ++ 91 :: rest) = Some m.
Proof.
  intros Hws0 Hhead Hm Hend Hws. induction ws0 as [|c ws0 IH].
  - destruct m as [|c m]; [destruct Hhead|].
    pose proof (lazy_group_word (c :: m) ws rest Hm Hend Hws) as E.
    cbn [app] in *. cbn [after_sep]. now rewrite Hhead.
  - cbn [forallb] in Hws0. apply andb_prop in Hws0. destruct Hws0 as [Hc Hws0].
    cbn [app after_sep]. rewrite Hc. now rewrite (IH Hws0).
Qed.

Lemma search_model_skip (pre rest : text) :
  forallb (fun c => negb (c =? 58)) pre = true ->
  search_model (pre ++ rest) = search_model rest.
Proof.
  induction pre as [|c pre IH]; intros H; [reflexivity|].
  cbn [forallb] in H. apply andb_prop in H. destruct H as [Hc Hpre].
  apply negb_true_iff in Hc. cbn [app search_model]. rewrite Hc. now apply IH.
Qed.

(** X8: the model [scan_gpus] takes from a line of [lspci] is the text
    between the first colon of the line and the first bracket behind it,
    without the whitespace around it.  In a line of [lspci -nn] the first
    colon is the one of the bus address, so the model is the rest of the
    address and the class of the device, never the name of the
    adapter. *)
Theorem search_model_first_colon (pre ws0 m ws rest : text) :
  forallb (fun c => negb (c =? 58)) pre = true ->
  forallb isspace ws0 = true ->
  match m with [] => False | c :: _ => isspace c = false end ->
  forallb (fun c => negb (c =? 91) && negb (c =? 10)) m = true ->
  no_space_at_end m ->
  forallb isspace ws = true ->
  search_model (pre ++ 58 :: ws0 ++ m ++ ws ++ 91 :: rest) = Some m.
Proof.
  intros Hpre Hws0 Hhead Hm Hend Hws.
  rewrite (search_model_skip pre _ Hpre). cbn [search_model N.eqb Pos.eqb].
  now rewrite (after_sep_word ws0 m ws rest Hws0 Hhead Hm Hend Hws).
Qed.

Lemma search_model_first_colon_example :
  search_model
    (str "03:00.0 VGA compatible controller [0300]: Advanced Micro Devices, Inc. [AMD/ATI] Navi 21 [1002:73bf]")
  = Some (str "00.0 VGA compatible controller").
Proof.
  apply (search_model_first_colon
           (str "03") [] (str "00.0 VGA compatible controller") (str " ")
           (str "0300]: Advanced Micro Devices, Inc. [AMD/ATI] Navi 21 [1002:73bf]"));
    reflexivity.
Defined.

(** *** [scan_memory] on Linux *)





(** *** [scan_network] on Linux *)

Definition ip_addr_show : command := Argv [str "ip"; str "-o"; str "addr"; str "show"].

(** An entry of the table: filed under its name, with an address. *)
Definition entry_ok (kv : text * interface) : Prop :=
  name (snd kv) = fst kv /\ ipv4 (snd kv) ++ ipv6 (snd kv) <> [].

Lemma has_interface_false (key : text) (d : interfaces) :
  has_interface key d = false -> ~ In key (map fst d).
Proof.
  unfold has_interface. induction d as [|kv d IH]; intros H; [intros []|].
  cbn [existsb] in H. apply orb_false_elim in H. destruct H as [Hkv Hd].
  intros [E|Hin]; [|now apply IH].
  rewrite E, text_eqb_refl in Hkv. discriminate.
Qed.

Lemma add_address_fresh (key : text) (v6 : bool) (addr : text) (d : interfaces) :
  has_interface key d = false ->
  add_address key v6 addr (set_interface key (Interface key [] []) d)
  = Ok (d ++ [(key, if v6 then Interface key [] [addr] else Interface key [addr] [])]).
Proof.
  unfold has_interface. induction d as [|[k x] d IH]; intros H.
  - cbn [set_interface add_address app]. rewrite text_eqb_refl. now destruct v6.
  - cbn [existsb fst] in H. apply orb_false_elim in H. destruct H as [Hk Hd].
    cbn [set_interface fst].
    assert (Hk' : text_eqb key k = false).
    { destruct (text_eqb key k) eqn:E; [|reflexivity].
      apply text_eqb_eq in E. subst. now rewrite text_eqb_refl in Hk. }
    rewrite Hk'. cbn [add_address]. rewrite Hk. rewrite (IH Hd). reflexivity.
Qed.

Lemma add_address_present (key : text) (v6 : bool) (addr : text) (d : interfaces) :
  has_interface key d = true -> Forall entry_ok d ->
  exists d', add_address key v6 addr d = Ok d'
             /\ map fst d' = map fst d /\ Forall entry_ok d'.
Proof.
  unfold has_interface. induction d as [|[k x] d IH]; intros H Hall; [discriminate|].
  inversion Hall as [|? ? [Hname Haddr] Hrest]; subst. cbn [fst snd] in *.
  cbn [add_address]. destruct (text_eqb k key) eqn:E.
  - eexists. split; [reflexivity|]. split; [reflexivity|].
    constructor; [|exact Hrest]. destruct v6; split; cbn [fst snd name ipv4 ipv6];
      try exact Hname.
    + intros Hnil. apply app_eq_nil in Hnil. destruct Hnil as [_ Hnil].
      now apply app_eq_nil in Hnil.
    + intros Hnil. apply app_eq_nil in Hnil. destruct Hnil as [Hnil _].
      now apply app_eq_nil in Hnil.
  - cbn [existsb fst] in H. rewrite E in H. cbn [orb] in H.
    destruct (IH H Hrest) as (d' & -> & Hkeys & Hall').
    eexists. split; [reflexivity|]. cbn [map fst]. split; [now rewrite Hkeys|].
    constructor; [now split|exact Hall'].
Qed.

Lemma split_head (sep : char) (s : text) : exists h t, split sep s = h :: t.
Proof.
  induction s as [|c s (h & t & IH)]; [now exists [], []|].
  cbn [split]. destruct (c =? sep); [now eexists; eexists|].
  rewrite IH. now eexists; eexists.
Qed.

Lemma ip_line_keeps (d : interfaces) (line : text) :
  NoDup (map fst d) -> Forall entry_ok d ->
  exists d', ip_line d line = Ok d' /\ NoDup (map fst d') /\ Forall entry_ok d'.
Proof.
  intros Hnd Hall. unfold ip_line.
  destruct (split_whitespace line) as [|p0 [|iface [|family [|address rest]]]];
    try (exists d; now repeat split).
  destruct (text_eqb family (str "inet") || text_eqb family (str "inet6"));
    [|exists d; now repeat split].
  destruct (split_head 47 address) as (addr & t & Es). rewrite Es.
  cbn [item nth_error bind].
  destruct (has_interface iface d) eqn:Eh.
  - destruct (add_address_present iface (negb (text_eqb family (str "inet"))) addr d
                Eh Hall) as (d' & E & Hkeys & Hall').
    exists d'. split; [exact E|]. split; [now rewrite Hkeys|exact Hall'].
  - rewrite (add_address_fresh iface _ addr d Eh).
    eexists. split; [reflexivity|]. split.
    + rewrite map_app. cbn [map fst]. apply NoDup_app; [exact Hnd|repeat constructor; intros []|].
      intros x Hx [<-|[]]. now apply (has_interface_false iface d Eh).
    + apply Forall_app. split; [exact Hall|]. constructor; [|constructor].
      destruct (negb (text_eqb family (str "inet"))); split; cbn; congruence.
Qed.

Lemma ip_lines_keep (listing : list text) (d : interfaces) :
  NoDup (map fst d) -> Forall entry_ok d ->
  exists d', for_each ip_line listing d = Ok d'
             /\ NoDup (map fst d') /\ Forall entry_ok d'.
Proof.
  revert d. induction listing as [|line listing IH]; intros d Hnd Hall.
  - exists d. now repeat split.
  - cbn [for_each]. destruct (ip_line_keeps d line Hnd Hall) as (d1 & -> & Hnd1 & Hall1).
    cbn [bind]. now apply IH.
Qed.

(** X10: on Linux [scan_network] returns for every output of [ip -o addr
    show]: a line it cannot read is skipped.  The interfaces it lists
    have different names, and each has at least one address. *)
Theorem scan_network_linux_interfaces (w : world) (output : text) :
  on w "linux" = true ->
  run_command w ip_addr_show = Ok output ->
  exists found,
    scan_network w = Ok (network found)
    /\ NoDup (map name found)
    /\ Forall (fun x => ipv4 x ++ ipv6 x <> []) found.
Proof.
  intros Hl Hrun. unfold scan_network. rewrite Hl. fold ip_addr_show. rewrite Hrun.
  cbn [bind].
  destruct (ip_lines_keep (split 10 output) [] (NoDup_nil _) (Forall_nil _))
    as (d & -> & Hnd & Hall).
  cbn [bind]. exists (map snd d). split; [reflexivity|]. split.
  - rewrite map_map.
    replace (map (fun kv => name (snd kv)) d) with (map fst d); [exact Hnd|].
    apply map_ext_Forall. revert Hall. apply Forall_impl. now intros kv [-> _].
  - apply Forall_map. revert Hall. apply Forall_impl. now intros kv [_ H].
Qed.

Definition two_interfaces : world :=
  linux_with []
    [(ip_addr_show,
      lines [str "1: lo    inet 127.0.0.1/8 scope host lo";
             str "2: eth0    inet 192.168.1.10/24 brd 192.168.1.255 scope global eth0";
             str "2: eth0    inet6 fe80::1/64 scope link";
             str "garbage"])].

Lemma scan_network_linux_interfaces_example :
  scan_network two_interfaces
  = Ok (network [Interface (str "lo") [str "127.0.0.1"] [];
                 Interface (str "eth0") [str "192.168.1.10"] [str "fe80::1"]])
  /\ exists found,
       scan_network two_interfaces = Ok (network found)
       /\ NoDup (map name found)
       /\ Forall (fun x => ipv4 x ++ ipv6 x <> []) found.
Proof.
  split; [vm_compute; reflexivity|].
  apply (scan_network_linux_interfaces
           two_interfaces
           (lines [str "1: lo    inet 127.0.0.1/8 scope host lo";
                   str "2: eth0    inet 192.168.1.10/24 brd 192.168.1.255 scope global eth0";
                   str "2: eth0    inet6 fe80::1/64 scope link";
                   str "garbage"]));
    vm_compute; reflexivity.
Defined.

(** *** Two adapters in one listing *)

Lemma startswith_refl (s : text) : startswith s s = true.
Proof. induction s as [|c s IH]; [reflexivity|]. cbn. now rewrite N.eqb_refl. Qed.

Lemma contains_refl (s : text) : contains s s = true.
Proof. destruct s; cbn [contains]; now rewrite startswith_refl. Qed.

Lemma suppressed_by_app (gpus added : list value) (model : text) :
  suppressed_by (gpus ++ added) model
  = suppressed_by gpus model || suppressed_by added model.
Proof. unfold suppressed_by. apply existsb_app. Qed.

(** X20: two AMD adapters in one listing of [lspci] for which the search
    finds the same model (in a listing of [lspci -nn]: the same device
    and function number and the same class, as with two cards in two
    slots) give one record: the second line is taken for a repeat of the
    first and is left out. *)
Theorem second_amd_adapter_left_out (gpus : list value) (line1 line2 : text) :
  forallb typed gpus = true ->
  is_display line1 = true -> is_amd line1 = true ->
  is_display line2 = true -> is_amd line2 = true ->
  search_model line1 = search_model line2 ->
  suppressed_by gpus (model_of line1 "AMD GPU") = false ->
  for_each lspci_line [line1; line2] gpus
  = Ok (gpus ++ [lspci_record "AMD" (model_of line1 "AMD GPU")]).
Proof.
  intros Htyped Hd1 Ha1 Hd2 Ha2 Hsame Hnew.
  assert (E1 : added_by gpus line1 = [lspci_record "AMD" (model_of line1 "AMD GPU")]).
  { unfold added_by. now rewrite Hd1, Ha1, Hnew. }
  cbn [for_each]. rewrite (lspci_line_adds gpus line1 Htyped), E1. cbn [bind].
  rewrite lspci_line_adds.
  - cbn [bind]. unfold added_by. rewrite Hd2, Ha2.
    assert (Em : model_of line2 "AMD GPU" = model_of line1 "AMD GPU")
      by (unfold model_of; now rewrite Hsame).
    rewrite Em, suppressed_by_app.
    assert (Es : suppressed_by [lspci_record "AMD" (model_of line1 "AMD GPU")]
                               (model_of line1 "AMD GPU") = true).
    { unfold suppressed_by. cbn [existsb]. unfold lspci_record at 1 2.
      change (field "vendor" (JDict [(str "vendor", JStr (str "AMD"));
                                     (str "model", JStr (model_of line1 "AMD GPU"));
                                     (str "source", JStr (str "lspci"))]))
        with (str "AMD").
      change (field "model" (JDict [(str "vendor", JStr (str "AMD"));
                                    (str "model", JStr (model_of line1 "AMD GPU"));
                                    (str "source", JStr (str "lspci"))]))
        with (model_of line1 "AMD GPU").
      rewrite (contains_refl (model_of line1 "AMD GPU")). reflexivity. }
    rewrite Es, orb_true_r. now rewrite app_nil_r.
  - rewrite forallb_app, Htyped. reflexivity.
Qed.

Definition two_radeon : world :=
  linux_with []
    [(lspci_nn,
      lines [str "03:00.0 VGA compatible controller [0300]: Advanced Micro Devices, Inc. [AMD/ATI] Navi 21 [1002:73bf]";
             str "0a:00.0 VGA compatible controller [0300]: Advanced Micro Devices, Inc. [AMD/ATI] Navi 31 [1002:744c]"])].

Lemma second_amd_adapter_left_out_example :
  scan_gpus two_radeon = Ok [lspci_record "AMD" (str "00.0 VGA compatible controller")]
  /\ for_each lspci_line
       [str "03:00.0 VGA compatible controller [0300]: Advanced Micro Devices, Inc. [AMD/ATI] Navi 21 [1002:73bf]";
        str "0a:00.0 VGA compatible controller [0300]: Advanced Micro Devices, Inc. [AMD/ATI] Navi 31 [1002:744c]"]
       []
     = Ok [lspci_record "AMD" (str "00.0 VGA compatible controller")].
Proof.
  split; [vm_compute; reflexivity|].
  apply (second_amd_adapter_left_out []
           (str "03:00.0 VGA compatible controller [0300]: Advanced Micro Devices, Inc. [AMD/ATI] Navi 21 [1002:73bf]")
           (str "0a:00.0 VGA compatible controller [0300]: Advanced Micro Devices, Inc. [AMD/ATI] Navi 31 [1002:744c]"));
    vm_compute; reflexivity.
Defined.

(** *** [scan_gpus]: the vendor tools *)


Definition rocm_query : command :=
  Argv [str "rocm-smi"; str "--showproductname"; str "--showmeminfo";
        str "vram"; str "--json"].






Lemma for_each_until_stops {S A : Type} (body : S -> A -> result S)
  (good : list A) (bad : A) (rest : list A) (s s' : S) (e : exn) :
  for_each body good s = Ok s' -> body s' bad = Raise e ->
  for_each_until body (good ++ bad :: rest) s = (s', Some e).
Proof.
  revert s. induction good as [|x good IH]; intros s Hgood Hbad.
  - cbn in Hgood. injection Hgood as ->. cbn [app for_each_until]. now rewrite Hbad.
  - cbn [for_each] in Hgood. cbn [app for_each_until].
    destruct (body s x) as [s1|]; [|discriminate]. cbn [bind] in Hgood.
    now apply IH.
Qed.

(** X12: the document of [rocm-smi] is read card by card inside one
    [try].  When the number behind [card] in a key is not a number, the
    [ValueError] ends the loop and is dropped: the cards before that key
    are kept, the cards behind it are left out, and nothing is
    reported. *)
Theorem rocm_cards_after_bad_key_left_out
  (w : world) (output : text) (good rest : list (text * value))
  (bad_id : text) (bad_info : value) (gpus gpus' : list value) :
  which w (str "rocm-smi") = true ->
  run_command w rocm_query = Ok output ->
  loads output = Some (JDict (good ++ (bad_id, bad_info) :: rest)) ->
  for_each rocm_card good gpus = Ok gpus' ->
  startswith (str "card") bad_id = true ->
  int (replace (str "card") [] bad_id) = Raise ValueError ->
  rocm_smi w gpus = Ok gpus'.
Proof.
  intros Hwhich Hrun Hloads Hgood Hcard Hint.
  unfold rocm_smi. rewrite Hwhich. fold rocm_query. rewrite Hrun. cbn [bind].
  destruct output as [|c output]; [discriminate|]. cbn [nonempty].
  rewrite Hloads. cbn [py_items bind]. unfold try_loop.
  rewrite (for_each_until_stops rocm_card good (bad_id, bad_info) rest gpus gpus'
             ValueError Hgood).
  - reflexivity.
  - unfold rocm_card. rewrite Hcard. now rewrite Hint.
Qed.

Definition odd_rocm : world :=
  World (str "Linux") (str "box")
        (fun tool => text_eqb tool (str "rocm-smi"))
        (fun cmd =>
           if command_eqb cmd rocm_query
           then Completed 0
                  (jstr "{'card0': {'Card series': 'Radeon RX 7900', 'VRAM Total Memory (B)': '25753026560'}, 'card-x': {}, 'card1': {'Card series': 'Radeon RX 7900'}}")
           else Failed FileNotFoundError)
        None.

Lemma rocm_cards_after_bad_key_left_out_example :
  rocm_smi odd_rocm []
  = Ok [JDict [(str "vendor", JStr (str "AMD"));
               (str "index", JInt 0);
               (str "model", JStr (str "Radeon RX 7900"));
               (str "vram_mb", JInt 24560)]].
Proof.
  apply (rocm_cards_after_bad_key_left_out
           odd_rocm
           (jstr "{'card0': {'Card series': 'Radeon RX 7900', 'VRAM Total Memory (B)': '25753026560'}, 'card-x': {}, 'card1': {'Card series': 'Radeon RX 7900'}}")
           [(str "card0", JDict [(str "Card series", JStr (str "Radeon RX 7900"));
                                 (str "VRAM Total Memory (B)", JStr (str "25753026560"))])]
           [(str "card1", JDict [(str "Card series", JStr (str "Radeon RX 7900"))])]
           (str "card-x") (JDict []));
    vm_compute; reflexivity.
Defined.

(** *** [scan_ssh_keys] *)

Lemma split_words_nonempty (s word : text) :
  word <> [] -> exists t ts, split_words word s = t :: ts.
Proof.
  revert word. induction s as [|c s IH]; intros word Hword.
  - cbn [split_words]. destruct word; [now destruct Hword|now eexists; eexists].
  - cbn [split_words]. destruct (isspace c).
    + destruct word; [now destruct Hword|now eexists; eexists].
    + apply IH. discriminate.
Qed.

Lemma ssh_prefix_word (content : text) :
  startswith (str "ssh-") content = true ->
  exists t ts, split_whitespace content = t :: ts.
Proof.
  destruct content as [|c content]; [discriminate|].
  intros H. cbn [str startswith] in H. apply andb_prop in H. destruct H as [Hc _].
  apply N.eqb_eq in Hc. subst c. unfold split_whitespace. cbn [split_words].
  change (isspace (N_of_ascii "s")) with false. cbv iota.
  apply split_words_nonempty. discriminate.
Qed.

(** The type [setup.py] shows for a record: [key.get("type", "unknown")]. *)
Definition shown_type (record : value) : result value :=
  py_get record (str "type") (JStr (str "unknown")).

(** What [scan_ssh_keys] records for one key file with the text
    [content]. *)
Definition recorded (key : pub_key) (content : text) (record : value) : Prop :=
  py_getitem record (str "name") = Ok (JStr (stem key))
  /\ py_getitem record (str "has_private") = Ok (JBool (private_exists key))
  /\ shown_type record
     = Ok (JStr (if startswith (str "ssh-") (strip content)
                 then hd [] (split_whitespace (strip content))
                 else str "unknown")).

Lemma ssh_key_readable (ssh_keys : list value) (key : pub_key) (content : text) :
  read_text key = Ok content ->
  exists record, ssh_key ssh_keys key = Ok (ssh_keys ++ [record])
                 /\ recorded key content record.
Proof.
  intros Hread. unfold ssh_key. rewrite Hread. cbn [bind].
  destruct (startswith (str "ssh-") (strip content)) eqn:E.
  - destruct (ssh_prefix_word _ E) as (t & ts & Es). rewrite Es.
    cbn [item nth_error bind]. eexists. split; [reflexivity|].
    unfold recorded. rewrite E, Es. repeat split.
  - eexists. split; [reflexivity|]. unfold recorded. rewrite E. repeat split.
Qed.

Lemma ssh_keys_readable (keys : list pub_key) (contents : list text) :
  Forall2 (fun key content => read_text key = Ok content) keys contents ->
  forall ssh_keys,
  exists records,
    for_each ssh_key keys ssh_keys = Ok (ssh_keys ++ records)
    /\ Forall2 (fun kc record => recorded (fst kc) (snd kc) record)
               (combine keys contents) records.
Proof.
  induction 1 as [|key content keys contents Hread _ IH]; intros ssh_keys.
  - exists []. split; [cbn; now rewrite app_nil_r|constructor].
  - cbn [for_each].
    destruct (ssh_key_readable ssh_keys key content Hread) as (record & -> & Hrec).
    cbn [bind]. destruct (IH (ssh_keys ++ [record])) as (records & -> & Hall).
    exists (record :: records). split; [now rewrite <- app_assoc|].
    cbn [combine]. now constructor.
Qed.

(** X13: [scan_ssh_keys] gives one record for each [*.pub] file it can
    read, in the order of the listing, with the name of the file, whether
    the private key is there, and a type only when the text of the file
    starts with [ssh-] (a key of another kind, [ecdsa-sha2-nistp256] for
    one, has no type and is shown as "unknown").  The first file that
    cannot be read ends the scan with the exception of the read: no key
    is reported. *)
Theorem scan_ssh_keys_records (w : world) (keys : list pub_key) :
  ssh_dir w = Some keys ->
  (forall contents,
      Forall2 (fun key content => read_text key = Ok content) keys contents ->
      exists records,
        scan_ssh_keys w = Ok records
        /\ Forall2 (fun kc record => recorded (fst kc) (snd kc) record)
                   (combine keys contents) records)
  /\ (forall before key after contents e,
         keys = before ++ key :: after ->
         Forall2 (fun key content => read_text key = Ok content) before contents ->
         read_text key = Raise e ->
         scan_ssh_keys w = Raise e).
Proof.
  intros Hdir. unfold scan_ssh_keys. rewrite Hdir. split.
  - intros contents Hall.
    destruct (ssh_keys_readable keys contents Hall []) as (records & E & Hrec).
    exists records. now split.
  - intros before key after contents e -> Hall Hread.
    destruct (ssh_keys_readable before contents Hall []) as (records & E & _).
    assert (H : forall l s s', for_each ssh_key l s = Ok s' ->
                               for_each ssh_key (l ++ key :: after) s = Raise e).
    { induction l as [|k l IHl]; intros s s' Hl.
      - cbn [app for_each]. unfold ssh_key. now rewrite Hread.
      - cbn [app for_each] in *. destruct (ssh_key s k); [|discriminate].
        cbn [bind] in *. now apply (IHl _ s'). }
    now apply (H before [] _ E).
Qed.

Definition rsa_key : pub_key :=
  PubKey (str "id_rsa") (str "/home/user/.ssh/id_rsa.pub") true
         (Ok (str "ssh-rsa AAAAB3Nza user@box" ++ [10])).

Definition ecdsa_key : pub_key :=
  PubKey (str "id_ecdsa") (str "/home/user/.ssh/id_ecdsa.pub") false
         (Ok (str "ecdsa-sha2-nistp256 AAAAE2Vj user@box" ++ [10])).

Definition locked_key : pub_key :=
  PubKey (str "other") (str "/home/user/.ssh/other.pub") false (Raise PermissionError).

Definition with_keys (keys : list pub_key) : world :=
  World (str "Linux") (str "box") (fun _ => false)
        (fun _ => Failed FileNotFoundError) (Some keys).

Lemma scan_ssh_keys_records_example :
  scan_ssh_keys (with_keys [rsa_key; ecdsa_key])
  = Ok [JDict [(str "name", JStr (str "id_rsa"));
               (str "public_key", JStr (str "/home/user/.ssh/id_rsa.pub"));
               (str "has_private", JBool true);
               (str "type", JStr (str "ssh-rsa"))];
        JDict [(str "name", JStr (str "id_ecdsa"));
               (str "public_key", JStr (str "/home/user/.ssh/id_ecdsa.pub"));
               (str "has_private", JBool false)]]
  /\ scan_ssh_keys (with_keys [rsa_key; locked_key; ecdsa_key]) = Raise PermissionError.
Proof.
  split; [vm_compute; reflexivity|].
  destruct (scan_ssh_keys_records (with_keys [rsa_key; locked_key; ecdsa_key])
              [rsa_key; locked_key; ecdsa_key] eq_refl) as (_ & Hlocked).
  apply (Hlocked [rsa_key] locked_key [ecdsa_key]
                 [str "ssh-rsa AAAAB3Nza user@box" ++ [10]] PermissionError);
    [reflexivity| |reflexivity].
  constructor; [reflexivity|constructor].
Defined.

End scanner_more.

(* ===================================================================== *)
(** ** [setup]: the primary address, the settings, the first changelog *)
(* ===================================================================== *)

Module setup_facts.
Import Py json builtins scanner update_context setup.
Import Py_facts json_facts json_loads json_wf json_loads_wf json_canonical.
Import update_facts update_idempotence update_sound scanner_facts.

(** *** [get_primary_ip] on the result of [scan_network] *)

(** Neither loopback nor link-local. *)
Definition routable (ip : text) : bool :=
  negb (startswith (str "127.") ip) && negb (startswith (str "169.254.") ip).

Lemma first_address_strs (ips : list text) :
  first_address (map JStr ips)
  = Ok match filter routable ips with ip :: _ => Some ip | [] => None end.
Proof.
  induction ips as [|ip ips IH]; [reflexivity|].
  cbn [map first_address py_str bind filter]. fold (routable ip).
  destruct (routable ip); [reflexivity|exact IH].
Qed.

Lemma interface_ipv4 (x : interface) :
  py_get (interface_value x) (str "ipv4") (JList []) = Ok (JList (map JStr (ipv4 x))).
Proof. reflexivity. Qed.

Lemma first_interface_values (found : list interface) :
  first_interface (map interface_value found)
  = Ok match filter routable (flat_map ipv4 found) with
       | ip :: _ => Some ip
       | [] => None
       end.
Proof.
  induction found as [|x found IH]; [reflexivity|].
  cbn [map first_interface flat_map]. rewrite interface_ipv4.
  cbn [py_iter bind]. rewrite first_address_strs. cbn [bind].
  rewrite filter_app. destruct (filter routable (ipv4 x)) as [|ip ips]; [exact IH|].
  reflexivity.
Qed.

(** X14: on what [scan_network] returns, [get_primary_ip] never raises.
    It gives the first IPv4 address, in the order of the interfaces, that
    starts neither with [127.] nor with [169.254.], and "Unknown" when
    there is none (a machine with IPv6 addresses only, for one). *)
Theorem get_primary_ip_first_routable (found : list interface) :
  get_primary_ip (network found)
  = Ok (hd (str "Unknown") (filter routable (flat_map ipv4 found))).
Proof.
  unfold get_primary_ip, network.
  change (py_get (JDict [(str "interfaces", JList (map interface_value found))])
                 (str "interfaces") (JList []))
    with (Ok (JList (map interface_value found))).
  cbn [bind py_iter]. rewrite first_interface_values. cbn [bind].
  now destruct (filter routable (flat_map ipv4 found)).
Qed.

(** *** [install_hook]: the settings *)

(** The settings [install_hook] writes when it finds none. *)
Definition fresh_settings (our_hook_command : text) : value :=
  JDict [(str "hooks",
          JDict [(str "SessionStart", JList [our_entry our_hook_command])])].

(** X15: without [settings.json], and with a [settings.json] that is not
    JSON, [install_hook] writes settings that hold its hook and nothing
    else, and prints the same line in both cases: what a file that does
    not parse held is dropped without a word. *)
Theorem install_hook_fresh_settings
  (hook_script settings_path context_path : text) (settings_file : option text) :
  match settings_file with
  | Some content => loads content = None
  | None => True
  end ->
  settings (install_hook hook_script settings_path context_path settings_file)
  = Ok (dumps false (fresh_settings hook_script) ++ [10],
        [str "  Updated settings: " ++ settings_path]).
Proof.
  intros H. unfold install_hook. cbn [settings]. unfold update_settings.
  assert (E : match settings_file with
              | Some content =>
                  match loads content with Some s => s | None => JDict [] end
              | None => JDict []
              end = JDict []).
  { destruct settings_file as [content|]; [now rewrite H|reflexivity]. }
  rewrite E. reflexivity.
Qed.

Lemma install_hook_fresh_settings_example :
  let hook_script := str "/home/user/.claude/hooks/load_context.sh" in
  loads (jstr "{'hooks': ") = None
  /\ settings (install_hook hook_script (str "/home/user/.claude/settings.json")
                            (str "/home/user/claude_context.json")
                            (Some (jstr "{'hooks': ")))
     = Ok (dumps false (fresh_settings hook_script) ++ [10],
           [str "  Updated settings: /home/user/.claude/settings.json"]).
Proof.
  intros hook_script.
  assert (H : loads (jstr "{'hooks': ") = None) by (vm_compute; reflexivity).
  split; [exact H|].
  exact (install_hook_fresh_settings hook_script (str "/home/user/.claude/settings.json")
           (str "/home/user/claude_context.json") (Some (jstr "{'hooks': ")) H).
Defined.

Lemma text_eqb_sym (s t : text) : text_eqb s t = text_eqb t s.
Proof.
  destruct (text_eqb s t) eqn:E1; destruct (text_eqb t s) eqn:E2; try reflexivity.
  - apply text_eqb_eq in E1. subst. now rewrite text_eqb_refl in E2.
  - apply text_eqb_eq in E2. subst. now rewrite text_eqb_refl in E1.
Qed.

Lemma lookup_dict_set (key : text) (v : value) (d : list (text * value)) :
  lookup key (dict_set key v d) = Some v.
Proof.
  induction d as [|[k x] d IH]; cbn [dict_set lookup fst].
  - now rewrite text_eqb_refl.
  - destruct (text_eqb key k) eqn:E; cbn [lookup].
    + now rewrite text_eqb_refl.
    + rewrite text_eqb_sym, E. exact IH.
Qed.

Lemma lookup_dict_set_other (key key' : text) (v : value) (d : list (text * value)) :
  key' <> key -> lookup key' (dict_set key v d) = lookup key' d.
Proof.
  intros Hne. induction d as [|[k x] d IH]; cbn [dict_set lookup fst].
  - destruct (text_eqb key key') eqn:E; [|reflexivity].
    apply text_eqb_eq in E. congruence.
  - destruct (text_eqb key k) eqn:E; cbn [lookup].
    + apply text_eqb_eq in E. subst k.
      destruct (text_eqb key key') eqn:E'; [|reflexivity].
      apply text_eqb_eq in E'. congruence.
    + now rewrite IH.
Qed.

Lemma lookup_key_present (key : text) (d : list (text * value)) :
  existsb (fun kv => text_eqb (fst kv) key) d = true ->
  exists v, lookup key d = Some v.
Proof.
  induction d as [|[k x] d IH]; intros H; [discriminate|].
  cbn [existsb fst] in H. cbn [lookup]. destruct (text_eqb k key); [now eexists|].
  now apply IH.
Qed.

Lemma key_present_dict_set (key : text) (v : value) (d : list (text * value)) :
  existsb (fun kv => text_eqb (fst kv) key) (dict_set key v d) = true.
Proof.
  induction d as [|[k x] d IH]; cbn [dict_set existsb fst].
  - now rewrite text_eqb_refl.
  - destruct (text_eqb key k); cbn [existsb fst];
      [now rewrite text_eqb_refl|rewrite IH; apply orb_true_r].
Qed.

Lemma any_false_then {A : Type} (test : A -> result bool) (l : list A) (x : A) :
  any test l = Ok false -> any test (l ++ [x]) = (b <- test x;; Ok b).
Proof.
  induction l as [|y l IH]; intros H.
  - cbn [app any]. destruct (test x) as [[]|]; reflexivity.
  - cbn [app any] in *. destruct (test y) as [[]|]; try discriminate.
    cbn [bind] in *. now apply IH.
Qed.

Lemma entry_has_our_entry (our_hook_command : text) :
  entry_has our_hook_command (our_entry our_hook_command) = Ok true.
Proof.
  unfold entry_has, our_entry.
  change (py_get (JDict [(str "matcher", JStr []);
                         (str "hooks",
                          JList [JDict [(str "type", JStr (str "command"));
                                        (str "command", JStr our_hook_command)]])])
                 (str "hooks") (JList []))
    with (Ok (JList [JDict [(str "type", JStr (str "command"));
                            (str "command", JStr our_hook_command)]])).
  cbn [bind py_iter any].
  change (py_get (JDict [(str "type", JStr (str "command"));
                         (str "command", JStr our_hook_command)])
                 (str "command") JNull)
    with (Ok (JStr our_hook_command)).
  cbn [bind py_eq_str]. now rewrite text_eqb_refl.
Qed.

Lemma wf_string_literal (s : string) :
  forallb (fun c => c <? 1114112) (str s) = true ->
  no_surrogate_pair (str s) = true -> wf_string (str s).
Proof. intros H1 H2. now split. Qed.

Lemma wf_our_entry (our_hook_command : text) :
  wf_string our_hook_command -> wf (our_entry our_hook_command).
Proof.
  intros H. unfold our_entry. apply wf_dict. split.
  - repeat constructor; cbn; intuition discriminate.
  - constructor; [|constructor; [|constructor]]; cbn [fst snd].
    + split; [now apply wf_string_literal|now split].
    + split; [now apply wf_string_literal|].
      apply wf_list. constructor; [|constructor]. apply wf_dict. split.
      * repeat constructor; cbn; intuition discriminate.
      * constructor; [|constructor; [|constructor]]; cbn [fst snd].
        -- split; [now apply wf_string_literal|]. cbn [wf]. now apply wf_string_literal.
        -- split; [now apply wf_string_literal|exact H].
Qed.

Lemma wf_dict_set (key : text) (v : value) (d : list (text * value)) :
  wf_string key -> wf v -> wf (JDict d) -> wf (JDict (dict_set key v d)).
Proof.
  intros Hk Hv Hd. apply wf_dict in Hd. destruct Hd as [Hnd Hall].
  apply wf_dict. apply dict_set_wf; [now split|exact Hnd|exact Hall].
Qed.

Lemma wf_lookup (key : text) (d : list (text * value)) (v : value) :
  wf (JDict d) -> lookup key d = Some v -> wf v.
Proof.
  intros Hd. apply wf_dict in Hd. destruct Hd as [_ Hall].
  induction Hall as [|[k x] d [_ Hx] _ IH]; [discriminate|].
  cbn [lookup]. destruct (text_eqb k key); [|exact IH].
  intros E. injection E as <-. exact Hx.
Qed.

(** The settings [update_settings] starts from are well formed. *)
Lemma loaded_settings_wf (settings_file : option text) :
  match settings_file with Some content => valid content | None => True end ->
  wf match settings_file with
     | Some content => match loads content with Some s => s | None => JDict [] end
     | None => JDict []
     end.
Proof.
  assert (Hempty : wf (JDict [])) by (apply wf_dict; split; constructor).
  destruct settings_file as [content|]; [|intros _; exact Hempty].
  intros Hvalid. destruct (loads content) as [s|] eqn:E; [|exact Hempty].
  now apply (loads_wf content).
Qed.

Lemma lookup_some_present (key : text) (d : list (text * value)) (v : value) :
  lookup key d = Some v -> existsb (fun kv => text_eqb (fst kv) key) d = true.
Proof.
  induction d as [|[k x] d IH]; [discriminate|].
  cbn [lookup existsb fst]. destruct (text_eqb k key); [reflexivity|exact IH].
Qed.

(** The settings [items] with the hooks [hooks] and the entries
    [entries] for [SessionStart] keep what the settings [s0] held: every
    other key, every other event, and the entries that were there, in
    front. *)
Definition keeps (s0 : value) (items hooks : list (text * value)) (entries : list value)
  : Prop :=
  exists items0,
    s0 = JDict items0
    /\ (forall key, key <> str "hooks" -> lookup key items = lookup key items0)
    /\ (forall hooks0,
           lookup (str "hooks") items0 = Some (JDict hooks0) ->
           (forall event, event <> str "SessionStart" ->
                          lookup event hooks = lookup event hooks0)
           /\ (forall entries0,
                  lookup (str "SessionStart") hooks0 = Some (JList entries0) ->
                  exists added, entries = entries0 ++ added)).

(** One run of [update_settings] from the settings [s0], told apart by
    what it finds. *)
Lemma update_settings_cases (our_hook_command settings_path : text)
  (settings_file : option text) (text1 : text) (printed1 : list text) :
  let s0 :=
    match settings_file with
    | Some content => match loads content with Some s => s | None => JDict [] end
    | None => JDict []
    end in
  update_settings our_hook_command settings_path settings_file = Ok (text1, printed1) ->
  exists items hooks entries,
    lookup (str "hooks") items = Some (JDict hooks)
    /\ lookup (str "SessionStart") hooks = Some (JList entries)
    /\ any (entry_has our_hook_command) entries = Ok true
    /\ text1 = dumps false (JDict items) ++ [10]
    /\ (wf s0 -> wf_string our_hook_command -> wf (JDict items))
    /\ keeps s0 items hooks entries.
Proof.
  intros s0. unfold update_settings. fold s0.
  destruct s0 as [ | | | | s | l |items] eqn:Es0; try discriminate.
  { cbn [py_in bind]. destruct (contains (str "hooks") s); discriminate. }
  { cbn [py_in bind]. destruct (existsb _ l); discriminate. }
  cbn [py_in bind].
  destruct (existsb (fun kv => text_eqb (fst kv) (str "hooks")) items) eqn:Ehas.
  - cbn [bind py_getitem].
    destruct (lookup_key_present _ _ Ehas) as (h & Eh). rewrite Eh. cbn [bind].
    destruct h as [ | | | | | |hooks]; try discriminate. cbn [py_get bind].
    destruct (lookup (str "SessionStart") hooks) as [existing|] eqn:Ess.
    + destruct existing as [ | | | | s |entries|d]; try discriminate.
      * destruct s as [|c s]; cbn [py_iter map any bind py_append]; [discriminate|].
        unfold entry_has at 1. cbn [py_get bind]. discriminate.
      * cbn [py_iter bind].
        destruct (any (entry_has our_hook_command) entries) as [[]|] eqn:Eany;
          cbn [bind]; [| |discriminate].
        -- intros H. injection H as <- <-.
           exists items, hooks, entries.
           split; [exact Eh|]. split; [exact Ess|]. split; [exact Eany|].
           split; [reflexivity|]. split; [auto|].
           exists items. split; [reflexivity|]. split; [reflexivity|].
           intros hooks0 E0. rewrite Eh in E0. injection E0 as <-.
           split; [reflexivity|]. intros entries0 E1. rewrite Ess in E1.
           injection E1 as <-. exists []. now rewrite app_nil_r.
        -- cbn [py_append bind py_setitem]. intros H. injection H as <- <-.
           exists (dict_set (str "hooks")
                     (JDict (dict_set (str "SessionStart")
                               (JList (entries ++ [our_entry our_hook_command])) hooks))
                     items),
                  (dict_set (str "SessionStart")
                     (JList (entries ++ [our_entry our_hook_command])) hooks),
                  (entries ++ [our_entry our_hook_command]).
           split; [apply lookup_dict_set|]. split; [apply lookup_dict_set|].
           split; [|split; [reflexivity|split]].
           ++ rewrite (any_false_then _ _ _ Eany). now rewrite entry_has_our_entry.
           ++ intros Hwf Hcmd.
              assert (Hhooks : wf (JDict hooks)) by exact (wf_lookup _ _ _ Hwf Eh).
              assert (Hentries : wf (JList entries)) by exact (wf_lookup _ _ _ Hhooks Ess).
              apply wf_dict_set; [now apply wf_string_literal| |exact Hwf].
              apply wf_dict_set; [now apply wf_string_literal| |exact Hhooks].
              apply wf_list. apply Forall_app. split; [now apply wf_list|].
              constructor; [now apply wf_our_entry|constructor].
           ++ exists items. split; [reflexivity|]. split.
              ** intros key Hkey. now apply lookup_dict_set_other.
              ** intros hooks0 E0. rewrite Eh in E0. injection E0 as <-. split.
                 --- intros event Hevent. now apply lookup_dict_set_other.
                 --- intros entries0 E1. rewrite Ess in E1. injection E1 as <-.
                     now eexists.
      * destruct d as [|kv d]; cbn [py_iter map any bind py_append]; [discriminate|].
        unfold entry_has at 1. cbn [py_get bind]. discriminate.
    + cbn [py_iter bind any py_append py_setitem]. intros H. injection H as <- <-.
      exists (dict_set (str "hooks")
                (JDict (dict_set (str "SessionStart")
                          (JList [our_entry our_hook_command]) hooks))
                items),
             (dict_set (str "SessionStart") (JList [our_entry our_hook_command]) hooks),
             [our_entry our_hook_command].
      split; [apply lookup_dict_set|]. split; [apply lookup_dict_set|].
      split; [|split; [reflexivity|split]].
      * cbn [app any]. now rewrite entry_has_our_entry.
      * intros Hwf Hcmd.
        assert (Hhooks : wf (JDict hooks)) by exact (wf_lookup _ _ _ Hwf Eh).
        apply wf_dict_set; [now apply wf_string_literal| |exact Hwf].
        apply wf_dict_set; [now apply wf_string_literal| |exact Hhooks].
        apply wf_list. constructor; [now apply wf_our_entry|constructor].
      * exists items. split; [reflexivity|]. split.
        -- intros key Hkey. now apply lookup_dict_set_other.
        -- intros hooks0 E0. rewrite Eh in E0. injection E0 as <-. split.
           ++ intros event Hevent. now apply lookup_dict_set_other.
           ++ intros entries0 E1. rewrite Ess in E1. discriminate.
  - cbn [py_setitem bind py_getitem]. rewrite lookup_dict_set.
    cbn [bind py_get lookup py_iter any py_append py_setitem].
    intros H. injection H as <- <-.
    exists (dict_set (str "hooks")
                     (JDict (dict_set (str "SessionStart")
                                      (JList [our_entry our_hook_command]) []))
                     (dict_set (str "hooks") (JDict []) items)),
           (dict_set (str "SessionStart") (JList [our_entry our_hook_command]) []),
           [our_entry our_hook_command].
    split; [apply lookup_dict_set|]. split; [apply lookup_dict_set|].
    split; [|split; [reflexivity|split]].
    + cbn [app any]. now rewrite entry_has_our_entry.
    + intros Hwf Hcmd.
      assert (Hempty : wf (JDict [])) by (apply wf_dict; split; constructor).
      apply wf_dict_set; [now apply wf_string_literal| |].
      * apply wf_dict_set; [now apply wf_string_literal| |exact Hempty].
        apply wf_list. constructor; [now apply wf_our_entry|constructor].
      * apply wf_dict_set; [now apply wf_string_literal|exact Hempty|exact Hwf].
    + exists items. split; [reflexivity|]. split.
      * intros key Hkey. rewrite lookup_dict_set_other by exact Hkey.
        now apply lookup_dict_set_other.
      * intros hooks0 E0. apply lookup_some_present in E0. congruence.
Qed.

(** X16: [install_hook] run again on the settings it wrote adds nothing:
    it finds its hook, says so, and writes the same text. *)
Theorem install_hook_twice
  (hook_script settings_path context_path : text) (settings_file : option text)
  (text1 : text) (printed1 : list text) :
  wf_string hook_script ->
  match settings_file with Some content => valid content | None => True end ->
  settings (install_hook hook_script settings_path context_path settings_file)
  = Ok (text1, printed1) ->
  settings (install_hook hook_script settings_path context_path (Some text1))
  = Ok (text1,
        [str "  Hook already installed, skipping";
         str "  Updated settings: " ++ settings_path]).
Proof.
  intros Hcmd Hvalid H. unfold install_hook in *. cbn [settings] in *.
  destruct (update_settings_cases hook_script settings_path settings_file text1 printed1 H)
    as (items & hooks & entries & Eh & Ess & Eany & -> & Hwf & _).
  specialize (Hwf (loaded_settings_wf settings_file Hvalid) Hcmd).
  unfold update_settings.
  rewrite (loads_dumps (JDict items) [10] Hwf) by now right.
  cbn [py_in bind].
  assert (Ehas : existsb (fun kv => text_eqb (fst kv) (str "hooks")) items = true).
  { clear - Eh. induction items as [|[k x] items IH]; [discriminate|].
    cbn [lookup] in Eh. cbn [existsb fst]. destruct (text_eqb k (str "hooks"));
      [reflexivity|now apply IH]. }
  rewrite Ehas. cbn [bind py_getitem]. rewrite Eh. cbn [bind py_get]. rewrite Ess.
  cbn [py_iter bind]. rewrite Eany. reflexivity.
Qed.

Lemma install_hook_twice_example :
  let hook_script := str "/home/user/.claude/hooks/load_context.sh" in
  let settings_path := str "/home/user/.claude/settings.json" in
  let context_path := str "/home/user/claude_context.json" in
  let before := jstr "{'model': 'opus', 'hooks': {'Stop': []}}" in
  let after :=
    dumps false
      (JDict [(str "model", JStr (str "opus"));
              (str "hooks",
               JDict [(str "Stop", JList []);
                      (str "SessionStart", JList [our_entry hook_script])])])
    ++ [10] in
  settings (install_hook hook_script settings_path context_path (Some before))
  = Ok (after, [str "  Updated settings: " ++ settings_path])
  /\ settings (install_hook hook_script settings_path context_path (Some after))
     = Ok (after, [str "  Hook already installed, skipping";
                   str "  Updated settings: " ++ settings_path]).
Proof.
  intros hook_script settings_path context_path before after.
  assert (H : settings (install_hook hook_script settings_path context_path (Some before))
              = Ok (after, [str "  Updated settings: " ++ settings_path]))
    by (vm_compute; reflexivity).
  split; [exact H|].
  apply (install_hook_twice hook_script settings_path context_path (Some before) after
           [str "  Updated settings: " ++ settings_path]);
    [split; reflexivity|reflexivity|exact H].
Defined.

(** X17: [install_hook] keeps the settings it finds.  When
    [settings.json] holds a JSON object and the run returns, the settings
    written are that object with the same value under every key but
    [hooks]; under [hooks], the entries of every event but [SessionStart]
    are the same, and the entries of [SessionStart] that were there come
    first, in their order, before the one that is added. *)
Theorem install_hook_keeps_settings
  (hook_script settings_path context_path content : text)
  (items0 : list (text * value)) (text1 : text) (printed1 : list text) :
  loads content = Some (JDict items0) ->
  settings (install_hook hook_script settings_path context_path (Some content))
  = Ok (text1, printed1) ->
  exists items hooks entries,
    text1 = dumps false (JDict items) ++ [10]
    /\ lookup (str "hooks") items = Some (JDict hooks)
    /\ lookup (str "SessionStart") hooks = Some (JList entries)
    /\ (forall key, key <> str "hooks" -> lookup key items = lookup key items0)
    /\ (forall hooks0,
           lookup (str "hooks") items0 = Some (JDict hooks0) ->
           (forall event, event <> str "SessionStart" ->
                          lookup event hooks = lookup event hooks0)
           /\ (forall entries0,
                  lookup (str "SessionStart") hooks0 = Some (JList entries0) ->
                  exists added, entries = entries0 ++ added)).
Proof.
  intros Hload H. unfold install_hook in H. cbn [settings] in H.
  destruct (update_settings_cases hook_script settings_path (Some content) text1 printed1 H)
    as (items & hooks & entries & Eh & Ess & _ & Etext & _ & Hkeep).
  rewrite Hload in Hkeep. destruct Hkeep as (items0' & E & Hkeys & Hhooks).
  injection E as <-.
  exists items, hooks, entries. auto.
Qed.

Lemma install_hook_keeps_settings_example :
  let hook_script := str "/home/user/.claude/hooks/load_context.sh" in
  let content :=
    jstr "{'model': 'opus', 'hooks': {'Stop': [1], 'SessionStart': [{'hooks': []}]}}" in
  exists items hooks entries,
    settings (install_hook hook_script (str "settings.json") (str "context.json")
                           (Some content))
    = Ok (dumps false (JDict items) ++ [10], [str "  Updated settings: settings.json"])
    /\ lookup (str "model") items = Some (JStr (str "opus"))
    /\ lookup (str "hooks") items = Some (JDict hooks)
    /\ lookup (str "Stop") hooks = Some (JList [JInt 1])
    /\ lookup (str "SessionStart") hooks = Some (JList entries)
    /\ entries = [JDict [(str "hooks", JList [])]; our_entry hook_script].
Proof.
  intros hook_script content.
  pose (items0 := [(str "model", JStr (str "opus"));
                   (str "hooks",
                    JDict [(str "Stop", JList [JInt 1]);
                           (str "SessionStart", JList [JDict [(str "hooks", JList [])]])])]).
  pose (text1 := dumps false
                   (JDict [(str "model", JStr (str "opus"));
                           (str "hooks",
                            JDict [(str "Stop", JList [JInt 1]);
                                   (str "SessionStart",
                                    JList [JDict [(str "hooks", JList [])];
                                           our_entry hook_script])])]) ++ [10]).
  assert (Hload : loads content = Some (JDict items0)) by (vm_compute; reflexivity).
  assert (Hrun : settings (install_hook hook_script (str "settings.json")
                             (str "context.json") (Some content))
                 = Ok (text1, [str "  Updated settings: settings.json"]))
    by (vm_compute; reflexivity).
  destruct (install_hook_keeps_settings hook_script (str "settings.json")
              (str "context.json") content items0 text1
              [str "  Updated settings: settings.json"] Hload Hrun)
    as (items & hooks & entries & Etext & Eh & Ess & Hkeys & Hhooks).
  exists [(str "model", JStr (str "opus"));
          (str "hooks",
           JDict [(str "Stop", JList [JInt 1]);
                  (str "SessionStart",
                   JList [JDict [(str "hooks", JList [])]; our_entry hook_script])])],
         [(str "Stop", JList [JInt 1]);
          (str "SessionStart",
           JList [JDict [(str "hooks", JList [])]; our_entry hook_script])],
         [JDict [(str "hooks", JList [])]; our_entry hook_script].
  split; [exact Hrun|]. repeat split; reflexivity.
Defined.

(** *** The files [main] writes, read by [update_context.py] *)





(** *** [format_storage] on the result of [scan_storage] *)

(** A disk as [scan_storage] records it: device, size, model. *)
Definition disk_value (d : text * text * text) : value :=
  let '(device, size, model) := d in disk device size model.

(** The key [format_storage] files the disk number [i] under. *)
Definition storage_key (i : nat) (d : text * text * text) : text :=
  let '(_, _, model) := d in
  let model := firstn 20 (replace (str " ") (str "_") model) in
  if nonempty model && negb (text_eqb model (str "Unknown")) then model
  else str "disk" ++ str_of_nat i.

Lemma storage_entry_disk (storage : list (text * value)) (i : nat)
  (d : text * text * text) :
  storage_entry storage (i, disk_value d)
  = Ok (dict_set (storage_key i d) (disk_value d) storage).
Proof. destruct d as [[device size] model]. reflexivity. Qed.

(** The table after the disks [ds], numbered from [start]. *)
Fixpoint filed (start : nat) (ds : list (text * text * text))
  (storage : list (text * value)) : list (text * value) :=
  match ds with
  | [] => storage
  | d :: ds' => filed (S start) ds' (dict_set (storage_key start d) (disk_value d) storage)
  end.

Lemma storage_entries_filed (ds : list (text * text * text)) :
  forall (start : nat) (storage : list (text * value)),
    for_each storage_entry
             (combine (seq start (List.length ds)) (map disk_value ds)) storage
    = Ok (filed start ds storage).
Proof.
  induction ds as [|d ds IH]; intros start storage; [reflexivity|].
  cbn [List.length seq map combine for_each]. rewrite storage_entry_disk.
  cbn [bind filed]. apply IH.
Qed.

Lemma filed_app (before after : list (text * text * text)) :
  forall (start : nat) (storage : list (text * value)),
    filed start (before ++ after) storage
    = filed (start + List.length before)%nat after (filed start before storage).
Proof.
  induction before as [|d before IH]; intros start storage.
  - cbn [app filed List.length]. now rewrite Nat.add_0_r.
  - cbn [app filed List.length]. rewrite IH. now rewrite <- plus_n_Sm.
Qed.

Lemma filed_nodup (ds : list (text * text * text)) :
  forall (start : nat) (storage : list (text * value)),
    NoDup (map fst storage) -> NoDup (map fst (filed start ds storage)).
Proof.
  induction ds as [|d ds IH]; intros start storage Hnd; [exact Hnd|].
  cbn [filed]. apply IH.
  destruct (dict_set_keys (storage_key start d) (disk_value d) storage)
    as [->|[Hnin ->]]; [exact Hnd|].
  apply NoDup_app; [exact Hnd|repeat constructor; intros []|].
  intros x Hx [<-|[]]. contradiction.
Qed.

Lemma filed_lookup_other (key : text) (ds : list (text * text * text)) :
  forall (start : nat) (storage : list (text * value)),
    (forall j d, nth_error ds j = Some d -> storage_key (start + j)%nat d <> key) ->
    lookup key (filed start ds storage) = lookup key storage.
Proof.
  induction ds as [|d ds IH]; intros start storage Hother; [reflexivity|].
  cbn [filed]. rewrite IH.
  - apply lookup_dict_set_other. intros E. apply (Hother 0%nat d eq_refl).
    now rewrite Nat.add_0_r.
  - intros j d' Hj. specialize (Hother (S j) d' Hj). now rewrite <- plus_n_Sm in Hother.
Qed.

(** X19: on what [scan_storage] returns, [format_storage] never raises,
    and its table has one entry for each key.  The key of a disk is its
    model with [_] for the spaces, cut to 20 characters ([disk] and its
    number for a model that is empty or "Unknown"), so two disks of one
    model share a key: the entry then shows the last of them, and the
    disks before it are not in the table. *)
Theorem format_storage_last_disk_shown
  (before after : list (text * text * text)) (d : text * text * text) :
  let ds := before ++ d :: after in
  let key := storage_key (List.length before) d in
  (forall j d', nth_error after j = Some d' ->
                storage_key (S (List.length before) + j)%nat d' <> key) ->
  exists storage,
    format_storage (JList (map disk_value ds)) = Ok (JDict storage)
    /\ NoDup (map fst storage)
    /\ lookup key storage = Some (disk_value d)
    /\ (forall i d', nth_error before i = Some d' -> storage_key i d' = key ->
                     disk_value d' <> disk_value d ->
                     lookup (storage_key i d') storage <> Some (disk_value d')).
Proof.
  intros ds key Hlast. subst ds.
  exists (filed 0 (before ++ d :: after) []).
  assert (Hshown : lookup key (filed 0 (before ++ d :: after) []) = Some (disk_value d)).
  { rewrite filed_app. cbn [filed Nat.add].
    rewrite filed_lookup_other; [apply lookup_dict_set|].
    intros j d' Hj. now apply Hlast. }
  split; [|split; [|split]].
  - unfold format_storage.
    assert (Htrue : py_bool (JList (map disk_value (before ++ d :: after))) = true).
    { rewrite map_app. cbn [map py_bool]. now destruct (map disk_value before). }
    rewrite Htrue. cbn [py_iter bind]. unfold enumerate. rewrite length_map.
    now rewrite storage_entries_filed.
  - apply filed_nodup. constructor.
  - exact Hshown.
  - intros i d' Hi Hkey Hdiff. rewrite Hkey, Hshown. congruence.
Qed.

Lemma format_storage_last_disk_shown_example :
  let ssd1 := (str "/dev/nvme0n1", str "1.8T", str "Samsung SSD 980 PRO 2TB") in
  let ssd2 := (str "/dev/nvme1n1", str "1.8T", str "Samsung SSD 980 PRO 2TB") in
  exists storage,
    format_storage (JList (map disk_value [ssd1; ssd2])) = Ok (JDict storage)
    /\ storage = [(str "Samsung_SSD_980_PRO_", disk_value ssd2)].
Proof.
  intros ssd1 ssd2.
  destruct (format_storage_last_disk_shown [ssd1] [] ssd2) as (storage & Hrun & _).
  { intros j d' Hj. destruct j; discriminate. }
  exists storage. split; [exact Hrun|].
  cbn [app] in Hrun.
  assert (E : format_storage (JList (map disk_value [ssd1; ssd2]))
              = Ok (JDict [(str "Samsung_SSD_980_PRO_", disk_value ssd2)]))
    by (vm_compute; reflexivity).
  rewrite E in Hrun. now injection Hrun as <-.
Defined.

(** *** [scan_storage] on Linux, and [format_storage] behind it *)

Definition lsblk : command :=
  Argv [str "lsblk"; str "-d"; str "-o"; str "NAME,SIZE,TYPE,MODEL"; str "-n"].

(** What a line of [lsblk] adds: nothing, or one disk. *)
Definition lsblk_disk (line : text) : list (text * text * text) :=
  match split_whitespace line with
  | name :: size :: type :: model =>
      if text_eqb type (str "disk")
      then [(str "/dev/" ++ name, size,
             match model with [] => str "Unknown" | _ :: _ => join (str " ") model end)]
      else []
  | _ => []
  end.

Lemma lsblk_line_disk (storage : list value) (line : text) :
  lsblk_line storage line = storage ++ map disk_value (lsblk_disk line).
Proof.
  unfold lsblk_line, lsblk_disk.
  destruct (split_whitespace line) as [|name [|size [|type model]]];
    try (now rewrite app_nil_r).
  destruct (text_eqb type (str "disk")); [reflexivity|now rewrite app_nil_r].
Qed.

Lemma lsblk_lines_disks (listing : list text) (storage : list value) :
  fold_left lsblk_line listing storage
  = storage ++ map disk_value (flat_map lsblk_disk listing).
Proof.
  revert storage. induction listing as [|line listing IH]; intros storage.
  - cbn. now rewrite app_nil_r.
  - cbn [fold_left flat_map]. rewrite IH, lsblk_line_disk, map_app.
    now rewrite app_assoc.
Qed.

Lemma format_storage_disks (ds : list (text * text * text)) :
  exists table, format_storage (JList (map disk_value ds)) = Ok (JDict table).
Proof.
  destruct ds as [|d ds]; [eexists; reflexivity|].
  exists (filed 0 (d :: ds) []). unfold format_storage.
  cbn [map py_bool py_iter bind]. unfold enumerate.
  change (disk_value d :: map disk_value ds) with (map disk_value (d :: ds)).
  rewrite length_map. now rewrite storage_entries_filed.
Qed.

(** X21: on Linux [scan_storage] returns for every output of [lsblk]: one
    record for each line whose third word is [disk], with [/dev/] and the
    first word as its device, in the order of the lines; every other line
    is skipped.  [format_storage] returns a table for that list, whatever
    the output was. *)
Theorem scan_storage_linux_then_format (w : world) (output : text) :
  on w "linux" = true ->
  run_command w lsblk = Ok output ->
  let ds := flat_map lsblk_disk (split 10 output) in
  scan_storage w = Ok (map disk_value ds)
  /\ Forall (fun d => startswith (str "/dev/") (fst (fst d)) = true) ds
  /\ exists table,
       (storage <- scan_storage w;; format_storage (JList storage)) = Ok (JDict table).
Proof.
  intros Hl Hrun ds.
  assert (E : scan_storage w = Ok (map disk_value ds)).
  { unfold scan_storage. rewrite Hl. fold lsblk. rewrite Hrun. cbn [bind].
    now rewrite lsblk_lines_disks. }
  split; [exact E|]. split.
  - subst ds. apply Forall_flat_map. apply Forall_forall. intros line _.
    unfold lsblk_disk.
    destruct (split_whitespace line) as [|name [|size [|type model]]]; try constructor.
    destruct (text_eqb type (str "disk")); constructor; [reflexivity|constructor].
  - rewrite E. cbn [bind]. apply format_storage_disks.
Qed.

Definition two_disks : world :=
  linux_with []
    [(lsblk, lines [str "nvme0n1   1.8T disk Samsung SSD 980 PRO 2TB";
                    str "sr0      1024M rom  DVD-RW";
                    str "sda     931.5G disk"])].

Lemma scan_storage_linux_then_format_example :
  scan_storage two_disks
  = Ok [disk (str "/dev/nvme0n1") (str "1.8T") (str "Samsung SSD 980 PRO 2TB");
        disk (str "/dev/sda") (str "931.5G") (str "Unknown")]
  /\ exists table,
       (storage <- scan_storage two_disks;; format_storage (JList storage))
       = Ok (JDict table).
Proof.
  destruct (scan_storage_linux_then_format
              two_disks
              (lines [str "nvme0n1   1.8T disk Samsung SSD 980 PRO 2TB";
                      str "sr0      1024M rom  DVD-RW";
                      str "sda     931.5G disk"]))
    as (Hscan & _ & Htable); try (vm_compute; reflexivity).
  split; [|exact Htable]. vm_compute. reflexivity.
Defined.

End setup_facts.
